(** * python_quiz: the question generator, the bounded question cache,
      the refill worker and the cache accessor

    Shallow embedding of the core shared by [app.py] and [main.py]
    ([generar_pregunta], [precargar_preguntas], [obtener_pregunta_cache]
    and the queue [pregunta_cache]); the two files carry the same text
    for these functions, so one embedding covers both. *)

From Stdlib Require Import ZArith NArith List Bool Lia.
From Stdlib Require Import Strings.String Strings.Ascii.
From Stdlib Require Import Floats.SpecFloat.
From stdpp Require Import base option list gmap fin_maps.

Local Open Scope N_scope.
Set Warnings "-register-all".

(** ** Python [str]: a sequence of Unicode code points *)

Abbreviation pystr := (list N).

(** Source literals are written as Rocq strings (UTF-8 bytes) and decoded
    to code points. *)
Fixpoint utf8_decode (bs : list N) : list N :=
  match bs with
  | [] => []
  | b :: r =>
    if b <? 128 then b :: utf8_decode r
    else if b <? 224 then
      match r with
      | b1 :: r1 => ((b - 192) * 64 + (b1 - 128)) :: utf8_decode r1
      | _ => []
      end
    else if b <? 240 then
      match r with
      | b1 :: b2 :: r2 =>
        ((b - 224) * 4096 + (b1 - 128) * 64 + (b2 - 128)) :: utf8_decode r2
      | _ => []
      end
    else
      match r with
      | b1 :: b2 :: b3 :: r3 =>
        ((b - 240) * 262144 + (b1 - 128) * 4096 + (b2 - 128) * 64 + (b3 - 128))
          :: utf8_decode r3
      | _ => []
      end
  end.

Definition py (s : string) : pystr :=
  utf8_decode (map N_of_ascii (list_ascii_of_string s)).
Arguments py s%_string.

(** A literal in which the apostrophe stands for the double quote, for
    the JSON texts of the examples. *)
Definition pyq (s : string) : pystr :=
  map (fun c => if c =? 39 then 34 else c) (py s).
Arguments pyq s%_string.

(** [str.isspace] on one code point (CPython's [_PyUnicode_IsWhitespace]). *)
Definition is_space (c : N) : bool :=
  ((9 <=? c) && (c <=? 13)) || ((28 <=? c) && (c <=? 32))
  || (c =? 133) || (c =? 160) || (c =? 5760)
  || ((8192 <=? c) && (c <=? 8202))
  || (c =? 8232) || (c =? 8233) || (c =? 8239) || (c =? 8287) || (c =? 12288).

Fixpoint drop_while (f : N -> bool) (s : pystr) : pystr :=
  match s with
  | [] => []
  | c :: r => if f c then drop_while f r else s
  end.

(** Removal of the characters of a class at both ends. *)
Definition strip_with (f : N -> bool) (s : pystr) : pystr :=
  rev (drop_while f (rev (drop_while f s))).

(** [s.strip()] *)
Definition strip (s : pystr) : pystr := strip_with is_space s.

(** [s.startswith(p)] *)
Fixpoint startswith (p s : pystr) : bool :=
  match p, s with
  | [], _ => true
  | _ :: _, [] => false
  | a :: p', b :: s' => (a =? b) && startswith p' s'
  end.

(** [s.endswith(p)] *)
Definition endswith (p s : pystr) : bool := startswith (rev p) (rev s).

(** [s[n:]] and [s[:-n]] *)
Definition slice_from (n : nat) (s : pystr) : pystr := drop n s.
Definition slice_to_minus (n : nat) (s : pystr) : pystr :=
  take (length s - n) s.

(** [needle in hay] for two strings *)
Fixpoint str_contains (needle hay : pystr) : bool :=
  startswith needle hay ||
  match hay with
  | [] => false
  | _ :: r => str_contains needle r
  end.

(** [s.split(sep)] for a one-character separator: the pieces between the
    occurrences of [sep]; never the empty list. *)
Fixpoint split_aux (sep : N) (cur : pystr) (s : pystr) : list pystr :=
  match s with
  | [] => [rev cur]
  | c :: r =>
    if c =? sep then rev cur :: split_aux sep [] r
    else split_aux sep (c :: cur) r
  end.
Definition split (sep : N) (s : pystr) : list pystr := split_aux sep [] s.

(** [sep.join(l)] *)
Fixpoint join (sep : N) (l : list pystr) : pystr :=
  match l with
  | [] => []
  | x :: r =>
    match r with
    | [] => x
    | _ :: _ => x ++ sep :: join sep r
    end
  end.

Definition COMMA : N := 44.
Definition FENCE_JSON : pystr := Eval vm_compute in py "```json".
Definition FENCE : pystr := Eval vm_compute in py "```".
Definition RESOURCE_EXHAUSTED : pystr := Eval vm_compute in py "RESOURCE_EXHAUSTED".

(** ** Python values

    What [json.loads] can return, and so what the records hold. *)
Inductive pyval : Type :=
| PNone
| PBool (b : bool)
| PInt (z : Z)
| PFloat (f : spec_float)
| PStr (s : pystr)
| PList (l : list pyval)
| PDict (d : gmap pystr pyval).

Abbreviation pydict := (gmap pystr pyval).

(** [type(v).__name__] *)
Definition type_name (v : pyval) : string :=
  match v with
  | PNone => "NoneType"
  | PBool _ => "bool"
  | PInt _ => "int"
  | PFloat _ => "float"
  | PStr _ => "str"
  | PList _ => "list"
  | PDict _ => "dict"
  end.

(** ** Exceptions and results

    Every exception of the model is an instance of [Exception]; [str(e)]
    is its message. *)
Record exc : Type := Exc { exc_type : string; exc_msg : pystr }.

Definition str_exc (e : exc) : pystr := exc_msg e.

Definition attribute_error (v : pyval) (attr : string) : exc :=
  Exc "AttributeError"
      (py ("'" ++ type_name v ++ "' object has no attribute '" ++ attr ++ "'")).

Definition type_error_not_iterable (v : pyval) : exc :=
  Exc "TypeError" (py ("argument of type '" ++ type_name v ++ "' is not iterable")).

Inductive result (A : Type) : Type :=
| Return (a : A)
| Raise (e : exc).
Arguments Return {A} a.
Arguments Raise {A} e.

(** What [client.models.generate_content(...)] does on one call: it raises,
    or it returns a response whose [.text] is a [str] or [None]. *)
Inductive client_outcome : Type :=
| ClientRaises (e : exc)
| ClientReturns (text : option pystr).

(** ** Dictionaries *)

(** [d.get(k)] and [d.get(k, dflt)] *)
Definition dict_get (d : pydict) (k : pystr) : pyval := default PNone (d !! k).
Definition dict_get_default (d : pydict) (k : pystr) (dflt : pyval) : pyval :=
  default dflt (d !! k).

(** [k in d] *)
Definition dict_has (d : pydict) (k : pystr) : bool := bool_decide (is_Some (d !! k)).

(** Keys of the model's JSON object and of the records. *)
Definition J_PREGUNTA : pystr := Eval vm_compute in py "Pregunta".
Definition J_CODIGO : pystr := Eval vm_compute in py "Codigo".
Definition J_RESPUESTAS : pystr := Eval vm_compute in py "Respuestas".
Definition J_RESPUESTA_CORRECTA : pystr := Eval vm_compute in py "Respuesta correcta".
Definition J_EXPLICACION : pystr := Eval vm_compute in py "Explicacion".

Definition K_PREGUNTA : pystr := Eval vm_compute in py "pregunta".
Definition K_CODIGO : pystr := Eval vm_compute in py "codigo".
Definition K_RESPUESTAS : pystr := Eval vm_compute in py "respuestas".
Definition K_RESPUESTA_CORRECTA : pystr := Eval vm_compute in py "respuesta_correcta".
Definition K_EXPLICACION : pystr := Eval vm_compute in py "explicacion".

Definition K_ERROR : pystr := Eval vm_compute in py "error".
Definition K_DETALLE : pystr := Eval vm_compute in py "detalle".
Definition K_TEXTO : pystr := Eval vm_compute in py "texto".

(** The keys of a question record and of the error dictionary. *)
Definition QUESTION_KEYS : gset pystr :=
  {[ K_PREGUNTA; K_CODIGO; K_RESPUESTAS; K_RESPUESTA_CORRECTA; K_EXPLICACION ]}.

Definition ERROR_KEYS : gset pystr := {[ K_ERROR; K_DETALLE; K_TEXTO ]}.

(** ** generar_pregunta *)

(** The three fence tests of [generar_pregunta], in the order of the source. *)
Definition sin_fence_json (text : pystr) : pystr :=
  if startswith FENCE_JSON text then slice_from 7 text else text.
Definition sin_fence_inicio (text : pystr) : pystr :=
  if startswith FENCE text then slice_from 3 text else text.
Definition sin_fence_final (text : pystr) : pystr :=
  if endswith FENCE text then slice_to_minus 3 text else text.

Definition limpiar (text : pystr) : pystr :=
  sin_fence_final (sin_fence_inicio (sin_fence_json text)).

(** The coercion of ["Respuestas"]. *)
Definition normalizar_respuestas (respuestas : pyval) : pyval :=
  match respuestas with
  | PStr s => PList (map (fun r => PStr (strip r)) (split COMMA s))
  | PList l => PList l
  | _ => PList []
  end.

(** The record built from the parsed object. *)
Definition armar_pregunta (pregunta_json : pydict) : pydict :=
  let respuestas := normalizar_respuestas (dict_get pregunta_json J_RESPUESTAS) in
  <[K_PREGUNTA := dict_get pregunta_json J_PREGUNTA]>
  (<[K_CODIGO := dict_get pregunta_json J_CODIGO]>
  (<[K_RESPUESTAS := respuestas]>
  (<[K_RESPUESTA_CORRECTA := dict_get pregunta_json J_RESPUESTA_CORRECTA]>
  (<[K_EXPLICACION := dict_get_default pregunta_json J_EXPLICACION (PStr [])]> ∅)))).

Definition opt_str (t : option pystr) : pyval :=
  match t with
  | Some s => PStr s
  | None => PNone
  end.

(** The dictionary of the [except] branch. *)
Definition error_record (e : exc) (response_text : option pystr) : pydict :=
  <[K_ERROR := PStr (py "No se pudo extraer el JSON")]>
  (<[K_DETALLE := PStr (str_exc e)]>
  (<[K_TEXTO := opt_str response_text]> ∅)).

(** Field [k] of the record [q] holds what the object [o] has under [j],
    and [vacio] when [o] has no [j]. *)
Definition maps_field (o : pydict) (j : pystr) (q : pydict) (k : pystr)
  (vacio : pyval) : Prop :=
  (forall v, o !! j = Some v -> q !! k = Some v) /\
  (o !! j = None -> q !! k = Some vacio).

(** A dictionary built by [generar_pregunta] from a parsed object. *)
Definition es_pregunta (d : pydict) : Prop := exists o, d = armar_pregunta o.

Section Generator.

(** [json.loads], of Python's library: the parsed value, or the exception
    it raises. *)
Variable json_loads : pystr -> exc + pyval.

(** The body of the [try]. *)
Definition generar_pregunta_try (response_text : option pystr) : exc + pydict :=
  match response_text with
  | None => inl (attribute_error PNone "strip")
  | Some raw =>
    let text := limpiar (strip raw) in
    match json_loads text with
    | inl e => inl e
    | inr (PDict pregunta_json) => inr (armar_pregunta pregunta_json)
    | inr v => inl (attribute_error v "get")
    end
  end.

(** The client call stands before the [try]: what it raises leaves the
    function. *)
Definition generar_pregunta (o : client_outcome) : result pydict :=
  match o with
  | ClientRaises e => Raise e
  | ClientReturns response_text =>
    match generar_pregunta_try response_text with
    | inr pregunta => Return pregunta
    | inl e => Return (error_record e response_text)
    end
  end.

End Generator.

(** ** The question cache: [queue.Queue(maxsize=CACHE_SIZE)] *)

Definition CACHE_SIZE : nat := 200.
Definition CACHE_MIN : nat := 100.

Module Queue.

Record t : Type := mk { maxsize : nat; items : list pydict }.

Definition create (maxsize : nat) : t := mk maxsize [].

Definition qsize (q : t) : nat := length (items q).

(** [0 < maxsize <= qsize()] *)
Definition full (q : t) : bool :=
  Nat.ltb 0 (maxsize q) && Nat.leb (maxsize q) (qsize q).

(** [put(item)]: [None] when the queue is full; the caller waits and the
    queue is left as it is. *)
Definition put (item : pydict) (q : t) : option t :=
  if full q then None else Some (mk (maxsize q) (items q ++ [item])).

(** [get(timeout=...)]: the oldest item, or [None] for [queue.Empty] once
    the timeout has passed on an empty queue. *)
Definition get (q : t) : option (pydict * t) :=
  match items q with
  | [] => None
  | item :: rest => Some (item, mk (maxsize q) rest)
  end.

End Queue.

Definition pregunta_cache : Queue.t := Queue.create CACHE_SIZE.

(** Any sequence of [put] and [get] calls against the queue, whoever
    makes them. *)
Inductive cache_op : Type :=
| OpPut (item : pydict)
| OpGet.

Definition apply_op (q : Queue.t) (op : cache_op) : Queue.t :=
  match op with
  | OpPut item => default q (Queue.put item q)
  | OpGet => from_option snd q (Queue.get q)
  end.

Definition run_ops (ops : list cache_op) (q : Queue.t) : Queue.t :=
  fold_left apply_op ops q.

(** ** precargar_preguntas *)

(** [isinstance(pregunta, dict) and 'pregunta' in pregunta and 'codigo' in pregunta] *)
Definition es_valida (pregunta : pyval) : bool :=
  match pregunta with
  | PDict d => dict_has d K_PREGUNTA && dict_has d K_CODIGO
  | _ => false
  end.

(** [x in v] for a string [x]: substring of a string, element of a list,
    key of a dictionary; a [TypeError] on the other values. *)
Definition py_in (x : pystr) (v : pyval) : exc + bool :=
  match v with
  | PStr s => inr (str_contains x s)
  | PList l =>
    inr (existsb (fun y => match y with PStr s => bool_decide (s = x) | _ => false end) l)
  | PDict d => inr (dict_has d x)
  | _ => inl (type_error_not_iterable v)
  end.

(** The pause chosen by the [except] branch of the worker. *)
Definition pausa_error (e : exc) : nat :=
  if str_contains RESOURCE_EXHAUSTED (str_exc e) then 35%nat else 5%nat.

(** The refill worker between two atomic actions on the queue. *)
Inductive worker_pc : Type :=
| WCheck
| WGenerar
| WPut (pregunta : pydict)
| WSleep (seconds : nat).

(** The fixed record returned on a quota error. *)
Definition SENTINEL : pydict :=
  <[K_PREGUNTA := PStr (py "¡Límite de uso alcanzado!")]>
  (<[K_CODIGO := PStr []]>
  (<[K_RESPUESTAS := PList []]>
  (<[K_RESPUESTA_CORRECTA := PStr []]>
  (<[K_EXPLICACION := PStr (py "Se ha superado el límite de uso de la API. Por favor, espera un minuto y vuelve a intentarlo.")]> ∅)))).

Section Worker.

Variable json_loads : pystr -> exc + pyval.

(** One pass through the body of [while True], with no other thread in
    between: the pause taken and the queue left. [None]: the pass waits
    in [put] on a full queue. *)
Definition precargar_iteracion (o : client_outcome) (q : Queue.t)
  : option (nat * Queue.t) :=
  if Nat.ltb (Queue.qsize q) CACHE_MIN then
    match generar_pregunta json_loads o with
    | Return pregunta =>
      if es_valida (PDict pregunta) then
        match Queue.put pregunta q with
        | Some q' => Some (1%nat, q')
        | None => None
        end
      else Some (1%nat, q)
    | Raise e => Some (pausa_error e, q)
    end
  else Some (2%nat, q).

(** The first [n] passes of the loop; [cliente i] is what the client does
    if pass [i] calls it. The pauses come out in order. *)
Fixpoint precargar_preguntas (n : nat) (cliente : nat -> client_outcome)
  (q : Queue.t) : option (list nat * Queue.t) :=
  match n with
  | O => Some ([], q)
  | S n' =>
    match precargar_iteracion (cliente O) q with
    | Some (pausa, q') =>
      match precargar_preguntas n' (fun i => cliente (S i)) q' with
      | Some (pausas, q'') => Some (pausa :: pausas, q'')
      | None => None
      end
    | None => None
    end
  end.

(** The same body cut at its actions on the queue, so that the consumers'
    calls can fall in between. *)
Definition worker_step (o : client_outcome) (pc : worker_pc) (q : Queue.t)
  : option (worker_pc * Queue.t) :=
  match pc with
  | WCheck =>
    if Nat.ltb (Queue.qsize q) CACHE_MIN then Some (WGenerar, q)
    else Some (WSleep 2, q)
  | WGenerar =>
    match generar_pregunta json_loads o with
    | Return pregunta =>
      if es_valida (PDict pregunta) then Some (WPut pregunta, q)
      else Some (WSleep 1, q)
    | Raise e => Some (WSleep (pausa_error e), q)
    end
  | WPut pregunta =>
    match Queue.put pregunta q with
    | Some q' => Some (WSleep 1, q')
    | None => None
    end
  | WSleep _ => Some (WCheck, q)
  end.

(** The worker's actions from a point of the body up to its pause, with
    no other thread in between. *)
Fixpoint worker_run (fuel : nat) (o : client_outcome) (pc : worker_pc)
  (q : Queue.t) : option (nat * Queue.t) :=
  match fuel with
  | O => None
  | S fuel' =>
    match worker_step o pc q with
    | Some (WSleep seconds, q') => Some (seconds, q')
    | Some (pc', q') => worker_run fuel' o pc' q'
    | None => None
    end
  end.

(** ** obtener_pregunta_cache *)

Definition obtener_pregunta_cache (o : client_outcome) (q : Queue.t)
  : result pydict * Queue.t :=
  match Queue.get q with
  | Some (pregunta, q') => (Return pregunta, q')
  | None =>
    (match generar_pregunta json_loads o with
     | Raise e => Raise e
     | Return pregunta =>
       if dict_has pregunta K_ERROR then
         match py_in RESOURCE_EXHAUSTED (dict_get_default pregunta K_DETALLE (PStr [])) with
         | inl e => Raise e
         | inr true => Return SENTINEL
         | inr false => Return pregunta
         end
       else Return pregunta
     end, q)
  end.

(** ** The process: one worker thread and the request handlers *)

Record state : Type := State { worker : worker_pc; cache : Queue.t }.

Definition init : state := State WCheck pregunta_cache.

Inductive event : Type :=
| EvWorker
| EvObtener (r : result pydict).

Inductive step : state -> event -> state -> Prop :=
| step_worker o pc q pc' q' :
    worker_step o pc q = Some (pc', q') ->
    step (State pc q) EvWorker (State pc' q')
| step_obtener o pc q r q' :
    obtener_pregunta_cache o q = (r, q') ->
    step (State pc q) (EvObtener r) (State pc q').

Inductive reachable : state -> Prop :=
| reachable_init : reachable init
| reachable_step st ev st' : reachable st -> step st ev st' -> reachable st'.

End Worker.

(** ** A reference [json.loads]

    A loader for the JSON texts made of objects, arrays, strings with the
    one-letter escapes, integers, [true], [false] and [null], with JSON
    white space between tokens and around the document. It stands for
    Python's [json.loads] where the development needs a concrete loader;
    texts with fractions, exponents or [\u] escapes are outside of it
    and are answered with an error. Its messages carry no position. *)

Definition is_json_ws (c : N) : bool :=
  (c =? 32) || (c =? 9) || (c =? 10) || (c =? 13).

Definition is_digit (c : N) : bool := (48 <=? c) && (c <=? 57).

(** The characters a JSON document can begin with and end with, white
    space included ([N], [I], [y] for [NaN] and [Infinity]). *)
Definition json_first (c : N) : bool :=
  is_json_ws c || is_digit c
  || (c =? 123) || (c =? 91) || (c =? 34) || (c =? 45)
  || (c =? 116) || (c =? 102) || (c =? 110) || (c =? 78) || (c =? 73).

Definition json_last (c : N) : bool :=
  is_json_ws c || is_digit c
  || (c =? 125) || (c =? 93) || (c =? 34)
  || (c =? 101) || (c =? 108) || (c =? 78) || (c =? 121).

(** What the development assumes of [json.loads]: white space around a
    document is ignored by it, and a document it accepts begins and ends
    with a character of JSON. *)
Record loader_laws (json_loads : pystr -> exc + pyval) : Prop := LoaderLaws {
  loads_strip : forall s v,
    json_loads s = inr v -> json_loads (strip s) = inr v;
  loads_pad : forall w1 w2 s v,
    Forall (fun c => is_json_ws c = true) w1 ->
    Forall (fun c => is_json_ws c = true) w2 ->
    json_loads s = inr v -> json_loads (w1 ++ s ++ w2) = inr v;
  loads_first : forall s v,
    json_loads s = inr v -> exists c r, s = c :: r /\ json_first c = true;
  loads_last : forall s v,
    json_loads s = inr v -> exists r c, s = r ++ [c] /\ json_last c = true
}.

(** The scanner of [json.loads] builds a [dict] for one first character
    only, the brace that opens an object; white space may come before
    it. *)
Definition loader_object (json_loads : pystr -> exc + pyval) : Prop :=
  forall s d,
    json_loads s = inr (PDict d) ->
    exists w r, s = w ++ 123 :: r /\ Forall (fun c => is_json_ws c = true) w.

Module JsonRef.

Definition unescape (c : N) : option N :=
  if c =? 34 then Some 34
  else if c =? 92 then Some 92
  else if c =? 47 then Some 47
  else if c =? 98 then Some 8
  else if c =? 102 then Some 12
  else if c =? 110 then Some 10
  else if c =? 114 then Some 13
  else if c =? 116 then Some 9
  else None.

(** After the opening quote: the decoded string and what follows the
    closing quote. [esc]: the character before was a backslash. *)
Fixpoint parse_string (esc : bool) (s : pystr) (acc : pystr)
  : option (pystr * pystr) :=
  match s with
  | [] => None
  | c :: r =>
    if esc then
      match unescape c with
      | Some d => parse_string false r (d :: acc)
      | None => None
      end
    else if c =? 34 then Some (rev acc, r)
    else if c =? 92 then parse_string true r acc
    else if c <? 32 then None
    else parse_string false r (c :: acc)
  end.

Fixpoint parse_digits (s : pystr) (acc : Z) : Z * pystr :=
  match s with
  | c :: r =>
    if is_digit c then parse_digits r (acc * 10 + Z.of_N (c - 48))%Z
    else (acc, s)
  | [] => (acc, [])
  end.

(** No fraction or exponent may follow the digits. *)
Definition int_end (z : Z) (r : pystr) : option (Z * pystr) :=
  match r with
  | c :: _ => if (c =? 46) || (c =? 101) || (c =? 69) then None else Some (z, r)
  | [] => Some (z, r)
  end.

Definition parse_nat (s : pystr) : option (Z * pystr) :=
  match s with
  | c :: r =>
    if c =? 48 then int_end 0%Z r
    else if is_digit c then
      let '(z, r') := parse_digits r (Z.of_N (c - 48)) in int_end z r'
    else None
  | [] => None
  end.

Definition parse_int (s : pystr) : option (Z * pystr) :=
  match s with
  | c :: r =>
    if c =? 45 then
      match parse_nat r with
      | Some (z, r') => Some (Z.opp z, r')
      | None => None
      end
    else parse_nat s
  | [] => None
  end.

Definition skip_ws (s : pystr) : pystr := drop_while is_json_ws s.

(** The characters a value begins with and ends with. *)
Definition tok_first (c : N) : bool :=
  is_digit c || (c =? 123) || (c =? 91) || (c =? 34) || (c =? 45)
  || (c =? 116) || (c =? 102) || (c =? 110).

Definition tok_last (c : N) : bool :=
  is_digit c || (c =? 125) || (c =? 93) || (c =? 34) || (c =? 101) || (c =? 108).

Definition L_TRUE : pystr := Eval vm_compute in py "true".
Definition L_FALSE : pystr := Eval vm_compute in py "false".
Definition L_NULL : pystr := Eval vm_compute in py "null".

(** After the first element's position: elements separated by commas up
    to the closing bracket. *)
Fixpoint parse_elems (pv : pystr -> option (pyval * pystr)) (n : nat)
  (s : pystr) (acc : list pyval) : option (list pyval * pystr) :=
  match n with
  | O => None
  | S n' =>
    match pv s with
    | None => None
    | Some (v, r) =>
      match skip_ws r with
      | c :: r' =>
        if c =? 44 then parse_elems pv n' r' (v :: acc)
        else if c =? 93 then Some (rev (v :: acc), r')
        else None
      | [] => None
      end
    end
  end.

(** Members [ "key" : value ] separated by commas up to the closing
    brace; a repeated key keeps its last value. *)
Fixpoint parse_members (pv : pystr -> option (pyval * pystr)) (n : nat)
  (s : pystr) (acc : pydict) : option (pydict * pystr) :=
  match n with
  | O => None
  | S n' =>
    match skip_ws s with
    | c :: r =>
      if c =? 34 then
        match parse_string false r [] with
        | Some (k, r1) =>
          match skip_ws r1 with
          | c1 :: r2 =>
            if c1 =? 58 then
              match pv r2 with
              | Some (v, r3) =>
                match skip_ws r3 with
                | c3 :: r4 =>
                  if c3 =? 44 then parse_members pv n' r4 (<[k := v]> acc)
                  else if c3 =? 125 then Some (<[k := v]> acc, r4)
                  else None
                | [] => None
                end
              | None => None
              end
            else None
          | [] => None
          end
        | None => None
        end
      else None
    | [] => None
    end
  end.

Fixpoint parse_value (fuel : nat) (s : pystr) : option (pyval * pystr) :=
  match fuel with
  | O => None
  | S f =>
    match skip_ws s with
    | [] => None
    | c :: r =>
      if c =? 123 then
        match skip_ws r with
        | c2 :: r2 =>
          if c2 =? 125 then Some (PDict ∅, r2)
          else
            match parse_members (parse_value f) (length r) r ∅ with
            | Some (d, r') => Some (PDict d, r')
            | None => None
            end
        | [] => None
        end
      else if c =? 91 then
        match skip_ws r with
        | c2 :: r2 =>
          if c2 =? 93 then Some (PList [], r2)
          else
            match parse_elems (parse_value f) (length r) r [] with
            | Some (l, r') => Some (PList l, r')
            | None => None
            end
        | [] => None
        end
      else if c =? 34 then
        match parse_string false r [] with
        | Some (k, r') => Some (PStr k, r')
        | None => None
        end
      else if startswith L_TRUE (c :: r) then Some (PBool true, drop 4 (c :: r))
      else if startswith L_FALSE (c :: r) then Some (PBool false, drop 5 (c :: r))
      else if startswith L_NULL (c :: r) then Some (PNone, drop 4 (c :: r))
      else
        match parse_int (c :: r) with
        | Some (z, r') => Some (PInt z, r')
        | None => None
        end
    end
  end.

Definition decode_error : exc := Exc "JSONDecodeError" (py "Expecting value").

Definition loads (s : pystr) : exc + pyval :=
  let t := strip_with is_json_ws s in
  match parse_value (S (length t)) t with
  | Some (v, []) => inr v
  | _ => inl decode_error
  end.

End JsonRef.

Definition json_loads_ref : pystr -> exc + pyval := JsonRef.loads.

(** A parser that returns a suffix of its input. *)
Definition suffix_parser (pv : pystr -> option (pyval * pystr)) : Prop :=
  forall s v r, pv s = Some (v, r) -> exists pre, s = pre ++ r.

(** ** The invariant of the process *)

(** The cache keeps its capacity, holds question records only and stays
    within the watermark; between its test of the size and its [put]
    the worker has seen less than [CACHE_MIN] records. *)
Definition inv (st : state) : Prop :=
  Queue.maxsize (cache st) = CACHE_SIZE /\
  Forall es_pregunta (Queue.items (cache st)) /\
  (Queue.qsize (cache st) <= CACHE_MIN)%nat /\
  match worker st with
  | WGenerar => (Queue.qsize (cache st) < CACHE_MIN)%nat
  | WPut p => es_pregunta p /\ (Queue.qsize (cache st) < CACHE_MIN)%nat
  | _ => True
  end.

(** The pauses of the worker. *)
Definition es_pausa (s : nat) : Prop :=
  s = 1%nat \/ s = 2%nat \/ s = 5%nat \/ s = 35%nat.

(** The [texto] of a returned dictionary. *)
Definition texto_of (r : result pydict) : option pyval :=
  match r with
  | Return d => d !! K_TEXTO
  | Raise _ => None
  end.

(** ** The quiz routes

    The part of [quiz] ([app.py]) and of [quiz_get] and [quiz_post]
    ([main.py]) between the session and the response. The session is
    the one the route finds complete (its five keys present) or [None]
    when a key is missing; it is only ever written by these routes, so
    its fields have the types they write. What the clock gives is
    abstract: [marca] is the type of [session['inicio']], and a request
    that ends the quiz is given [tiempo], the whole seconds since a
    mark. *)

Definition K_RESPUESTA_USUARIO : pystr := Eval vm_compute in py "respuesta_usuario".

(** The keys of an entry of [errores]. *)
Definition ENTRY_KEYS : gset pystr := QUESTION_KEYS ∪ {[ K_RESPUESTA_USUARIO ]}.

(** [KeyError(k)]; its message is the key between apostrophes. *)
Definition key_error (k : pystr) : exc := Exc "KeyError" ([39] ++ k ++ [39]).

(** [d[k]] *)
Definition dict_item (d : pydict) (k : pystr) : exc + pyval :=
  match d !! k with
  | Some v => inr v
  | None => inl (key_error k)
  end.

(** [v.strip()], whatever [v] is *)
Definition py_strip (v : pyval) : exc + pystr :=
  match v with
  | PStr s => inr (strip s)
  | _ => inl (attribute_error v "strip")
  end.

(** The dictionary appended to [errores]; its values are evaluated in
    the order of the source. *)
Definition entrada_error (pregunta : pydict) (correcta explicacion : pyval)
  (seleccion : option pystr) : exc + pydict :=
  match dict_item pregunta K_PREGUNTA with
  | inl e => inl e
  | inr v_pregunta =>
    match dict_item pregunta K_CODIGO with
    | inl e => inl e
    | inr v_codigo =>
      match dict_item pregunta K_RESPUESTAS with
      | inl e => inl e
      | inr v_respuestas =>
        inr (<[K_PREGUNTA := v_pregunta]>
             (<[K_CODIGO := v_codigo]>
             (<[K_RESPUESTAS := v_respuestas]>
             (<[K_RESPUESTA_CORRECTA := correcta]>
             (<[K_EXPLICACION := explicacion]>
             (<[K_RESPUESTA_USUARIO := opt_str seleccion]> ∅))))))
      end
    end
  end.

(** What an entry of [errores] holds. *)
Definition es_entrada (pregunta : pydict) (seleccion : option pystr)
  (entrada : pydict) : Prop :=
  dom entrada = ENTRY_KEYS /\
  entrada !! K_PREGUNTA = pregunta !! K_PREGUNTA /\
  entrada !! K_CODIGO = pregunta !! K_CODIGO /\
  entrada !! K_RESPUESTAS = pregunta !! K_RESPUESTAS /\
  entrada !! K_RESPUESTA_CORRECTA = pregunta !! K_RESPUESTA_CORRECTA /\
  entrada !! K_EXPLICACION = Some (dict_get_default pregunta K_EXPLICACION (PStr [])) /\
  entrada !! K_RESPUESTA_USUARIO = Some (opt_str seleccion).

Inductive metodo : Type :=
| GET
| POST.

Section Quiz.

Variable marca : Type.

Record sesion : Type := Sesion {
  puntaje : Z;
  total : Z;
  inicio : marca;
  pregunta_actual : pydict;
  errores : list pydict
}.

(** The session written when a key is missing. *)
Definition sesion_nueva (ahora : marca) (pregunta : pydict) : sesion :=
  Sesion 0 0 ahora pregunta [].

Definition con_pregunta (s : sesion) (pregunta : pydict) : sesion :=
  Sesion (puntaje s) (total s) (inicio s) pregunta (errores s).

(** The grading of an answer, the same text in [quiz] and in
    [quiz_post]: [seleccion] is the form field, [None] when the form
    has none. The result is the session when the grading is through;
    [quiz_post] works on a dictionary of its own, read from the cookie,
    which is lost when the grading raises. *)
Definition calificar (s : sesion) (seleccion : option pystr) : exc + sesion :=
  match dict_item (pregunta_actual s) K_RESPUESTA_CORRECTA with
  | inl e => inl e
  | inr correcta =>
    let explicacion := dict_get_default (pregunta_actual s) K_EXPLICACION (PStr []) in
    let total' := (total s + 1)%Z in
    let registrar :=
      match entrada_error (pregunta_actual s) correcta explicacion seleccion with
      | inl e => inl e
      | inr entrada =>
        inr (Sesion (puntaje s) total' (inicio s) (pregunta_actual s)
               (errores s ++ [entrada]))
      end in
    match seleccion with
    | None => registrar
    | Some [] => registrar
    | Some (c :: x) =>
      match py_strip correcta with
      | inl e => inl e
      | inr limpia =>
        if bool_decide (strip (c :: x) = limpia)
        then inr (Sesion (puntaje s + 1) total' (inicio s) (pregunta_actual s)
                    (errores s))
        else registrar
      end
    end
  end.

(** The answer counts as right: it is not empty and, white space at the
    ends apart, it is the question's [respuesta_correcta]. *)
Definition acierta (pregunta : pydict) (seleccion : option pystr) : Prop :=
  exists c x,
    seleccion = Some x /\ x <> [] /\
    pregunta !! K_RESPUESTA_CORRECTA = Some (PStr c) /\ strip x = strip c.

(** The outcome of grading, when it returns. *)
Definition calificada (s : sesion) (sel : option pystr) (s' : sesion) : Prop :=
  total s' = (total s + 1)%Z /\ inicio s' = inicio s /\
  pregunta_actual s' = pregunta_actual s /\
  ((acierta (pregunta_actual s) sel /\
    puntaje s' = (puntaje s + 1)%Z /\ errores s' = errores s) \/
   (~ acierta (pregunta_actual s) sel /\ puntaje s' = puntaje s /\
    exists entrada, errores s' = errores s ++ [entrada] /\
                    es_entrada (pregunta_actual s) sel entrada)).

Variable json_loads : pystr -> exc + pyval.

(** *** main.py *)

Record vista_quiz : Type := VistaQuiz {
  vista_pregunta : pydict;
  num_pregunta : Z;
  vista_sesion : sesion
}.

(** [quiz_get]: the template's values and the session put in the
    cookie. *)
Definition quiz_get (ses : option sesion) (ahora : marca)
  (o : client_outcome) (q : Queue.t) : result vista_quiz * Queue.t :=
  match ses with
  | Some s => (Return (VistaQuiz (pregunta_actual s) (total s + 1) s), q)
  | None =>
    match obtener_pregunta_cache json_loads o q with
    | (Return pregunta, q') =>
      let s := sesion_nueva ahora pregunta in
      (Return (VistaQuiz (pregunta_actual s) (total s + 1) s), q')
    | (Raise e, q') => (Raise e, q')
    end
  end.

Inductive respuesta_post : Type :=
| RedirectInicio
| RedirectResultado (correctas tiempo : Z) (quiz_errores : list pydict)
| RedirectQuiz (cookie : sesion).

(** [quiz_post] *)
Definition quiz_post (ses : option sesion) (respuesta : pystr)
  (tiempo : marca -> Z) (o : client_outcome) (q : Queue.t)
  : result respuesta_post * Queue.t :=
  match ses with
  | None => (Return RedirectInicio, q)
  | Some s =>
    match calificar s (Some respuesta) with
    | inl e => (Raise e, q)
    | inr s' =>
      if (10 <=? total s')%Z then
        (Return (RedirectResultado (puntaje s') (tiempo (inicio s')) (errores s')), q)
      else
        match obtener_pregunta_cache json_loads o q with
        | (Return pregunta, q') => (Return (RedirectQuiz (con_pregunta s' pregunta)), q')
        | (Raise e, q') => (Raise e, q')
        end
    end
  end.

(** *** app.py *)

(** The session after [session['total'] += 1]. *)
Definition contar (s : sesion) : sesion :=
  Sesion (puntaje s) (total s + 1) (inicio s) (pregunta_actual s) (errores s).

(** The grading as [quiz] runs it, on the Flask session itself: every
    assignment changes the session in place, so that an exception
    leaves the session as the assignments before it made it. The
    result is the exception with that session, or the session when the
    grading is through. *)
Definition calificar_en_sesion (s : sesion) (seleccion : option pystr)
  : exc * sesion + sesion :=
  match dict_item (pregunta_actual s) K_RESPUESTA_CORRECTA with
  | inl e => inl (e, s)
  | inr correcta =>
    let explicacion := dict_get_default (pregunta_actual s) K_EXPLICACION (PStr []) in
    let s1 := contar s in
    let registrar :=
      match entrada_error (pregunta_actual s1) correcta explicacion seleccion with
      | inl e => inl (e, s1)
      | inr entrada =>
        inr (Sesion (puntaje s1) (total s1) (inicio s1) (pregunta_actual s1)
               (errores s1 ++ [entrada]))
      end in
    match seleccion with
    | None => registrar
    | Some [] => registrar
    | Some (c :: x) =>
      match py_strip correcta with
      | inl e => inl (e, s1)
      | inr limpia =>
        if bool_decide (strip (c :: x) = limpia)
        then inr (Sesion (puntaje s1 + 1) (total s1) (inicio s1) (pregunta_actual s1)
                    (errores s1))
        else registrar
      end
    end
  end.

(** What [quiz] renders. *)
Inductive vista : Type :=
| VistaPregunta (pregunta : pydict) (num : Z)
| VistaResultado (correctas tiempo : Z) (errores_vistos : list pydict).

(** [quiz]; [o1] is what the client does if the first call of the
    accessor reaches it, [o2] the same for the second. With the view,
    or the exception, comes the session that the request leaves: Flask
    keeps the session in a signed cookie and writes it with every
    response, also with the one for an exception that the route let
    through. [None] is a session that lacks one of the five keys, which
    the next request initialises anew: an empty one, the one after
    [session.clear()], and the one in which the first call of the
    accessor raised before [pregunta_actual] and [errores] were set. *)
Definition quiz (m : metodo) (ses : option sesion) (seleccion : option pystr)
  (ahora : marca) (tiempo : marca -> Z) (o1 o2 : client_outcome) (q : Queue.t)
  : result vista * option sesion * Queue.t :=
  let iniciada :=
    match ses with
    | Some s => (Return s, q)
    | None =>
      match obtener_pregunta_cache json_loads o1 q with
      | (Return pregunta, q') => (Return (sesion_nueva ahora pregunta), q')
      | (Raise e, q') => (Raise e, q')
      end
    end in
  match iniciada with
  | (Raise e, q1) => (Raise e, None, q1)
  | (Return s, q1) =>
    match m with
    | GET => (Return (VistaPregunta (pregunta_actual s) (total s + 1)), Some s, q1)
    | POST =>
      match calificar_en_sesion s seleccion with
      | inl (e, s1) => (Raise e, Some s1, q1)
      | inr s' =>
        if (10 <=? total s')%Z then
          (Return (VistaResultado (puntaje s') (tiempo (inicio s')) (errores s')),
           None, q1)
        else
          match obtener_pregunta_cache json_loads o2 q1 with
          | (Return pregunta, q2) =>
            let s'' := con_pregunta s' pregunta in
            (Return (VistaPregunta (pregunta_actual s'') (total s'' + 1)), Some s'', q2)
          | (Raise e, q2) => (Raise e, Some s', q2)
          end
      end
    end
  end.

(** The sessions that [quiz] can leave, from no session on, whatever
    the requests, the cache and the client. *)
Inductive sesion_quiz : option sesion -> Prop :=
| sesion_quiz_ninguna : sesion_quiz None
| sesion_quiz_peticion (ses ses' : option sesion) (m : metodo)
    (seleccion : option pystr) (ahora : marca) (tiempo : marca -> Z)
    (o1 o2 : client_outcome) (q q' : Queue.t) (r : result vista) :
    sesion_quiz ses ->
    quiz m ses seleccion ahora tiempo o1 o2 q = (r, ses', q') ->
    sesion_quiz ses'.

(** What holds of every session of [quiz]: the answers counted as right
    or recorded as errors are no more than the answers counted. *)
Definition sesion_quiz_ok (s : sesion) : Prop :=
  (0 <= puntaje s)%Z /\
  (puntaje s + Z.of_nat (length (errores s)) <= total s)%Z.

(** A session as [main.py] keeps it in its cookie, which it writes on
    the paths that return only: every answer given so far was counted
    as right or recorded as an error, and the tenth is yet to come. *)
Definition sesion_ok (s : sesion) : Prop :=
  (0 <= puntaje s)%Z /\
  (puntaje s + Z.of_nat (length (errores s)) = total s)%Z /\
  (total s <= 9)%Z.

End Quiz.

Arguments Sesion {marca}.
Arguments puntaje {marca}.
Arguments total {marca}.
Arguments inicio {marca}.
Arguments pregunta_actual {marca}.
Arguments errores {marca}.
Arguments sesion_nueva {marca}.
Arguments con_pregunta {marca}.
Arguments calificar {marca}.
Arguments sesion_ok {marca}.
Arguments acierta pregunta seleccion : clear implicits.
Arguments calificada {marca}.
Arguments VistaQuiz {marca}.
Arguments vista_pregunta {marca}.
Arguments num_pregunta {marca}.
Arguments vista_sesion {marca}.
Arguments RedirectInicio {marca}.
Arguments RedirectResultado {marca}.
Arguments RedirectQuiz {marca}.
Arguments quiz_get {marca}.
Arguments quiz_post {marca}.
Arguments contar {marca}.
Arguments calificar_en_sesion {marca}.
Arguments quiz {marca}.
Arguments sesion_quiz {marca}.
Arguments sesion_quiz_ok {marca}.

(** Successive calls of the accessor, one client outcome for each. *)
Fixpoint obtener_varias (json_loads : pystr -> exc + pyval)
  (os : list client_outcome) (q : Queue.t) : list (result pydict) * Queue.t :=
  match os with
  | [] => ([], q)
  | o :: os' =>
    let '(r, q') := obtener_pregunta_cache json_loads o q in
    let '(rs, q'') := obtener_varias json_loads os' q' in
    (r :: rs, q'')
  end.

(** ** Sample responses and records *)

(** A response with the five keys, and the object it parses to. *)
Definition DEMO_OBJECT : pystr :=
  Eval vm_compute in pyq "{'Pregunta': 'p', 'Codigo': 'c', 'Respuestas': ['1', '2', '3', '4'], 'Respuesta correcta': '2', 'Explicacion': 'e'}".

Definition DEMO_PARSED : pydict :=
  <[J_PREGUNTA := PStr (py "p")]>
  (<[J_CODIGO := PStr (py "c")]>
  (<[J_RESPUESTAS := PList [PStr (py "1"); PStr (py "2"); PStr (py "3"); PStr (py "4")]]>
  (<[J_RESPUESTA_CORRECTA := PStr (py "2")]>
  (<[J_EXPLICACION := PStr (py "e")]> ∅)))).

(** The record built from it. *)
Definition DEMO_RECORD : pydict := armar_pregunta DEMO_PARSED.

(** A JSON document that is not an object, bare and fenced. *)
Definition DEMO_ARRAY : pystr := Eval vm_compute in py "[1]".
Definition DEMO_ARRAY_FENCED : pystr :=
  FENCE_JSON ++ [10] ++ DEMO_ARRAY ++ [10] ++ FENCE.

(** A response with the answers in one string. *)
Definition DEMO_JOINED : pystr :=
  Eval vm_compute in pyq "{'Pregunta': 'p', 'Codigo': 'c', 'Respuestas': 'A, B, C, D'}".

Definition DEMO_JOINED_PARSED : pydict :=
  <[J_PREGUNTA := PStr (py "p")]>
  (<[J_CODIGO := PStr (py "c")]>
  (<[J_RESPUESTAS := PStr (py "A, B, C, D")]> ∅)).

(** The empty object. *)
Definition DEMO_EMPTY : pystr := Eval vm_compute in py "{}".

(** A response with [null] as explanation. *)
Definition DEMO_NULL : pystr :=
  Eval vm_compute in pyq "{'Pregunta': 'p', 'Codigo': 'c', 'Respuestas': ['1', '2', '3', '4'], 'Respuesta correcta': '2', 'Explicacion': null}".

Definition DEMO_NULL_PARSED : pydict := <[J_EXPLICACION := PNone]> DEMO_PARSED.

Definition DEMO_NULL_RECORD : pydict := armar_pregunta DEMO_NULL_PARSED.

(** A response that is not JSON. *)
Definition DEMO_APOLOGY : pystr := Eval vm_compute in py "Lo siento, no puedo ayudar con eso.".

(** A record to prime the cache with. *)
Definition DEMO_PRINT_RECORD : pydict :=
  <[K_PREGUNTA := PStr (py "¿Qué imprime print(1+1)?")]>
  (<[K_RESPUESTAS := PList [PStr (py "1"); PStr (py "2"); PStr (py "3"); PStr (py "4")]]>
  (<[K_RESPUESTA_CORRECTA := PStr (py "2")]> ∅)).

(** Two exceptions of the client, with and without the quota marker. *)
Definition QUOTA_ERROR : exc :=
  Exc "ClientError" (py "429 RESOURCE_EXHAUSTED. You exceeded your current quota.").

Definition SERVER_ERROR : exc := Exc "ServerError" (py "503 UNAVAILABLE.").

(** A cache at the watermark. *)
Definition CACHE_AT_MIN : Queue.t := Queue.mk CACHE_SIZE (repeat DEMO_RECORD 100).

(** A blank response and the rest of a response fenced as [python]. *)
Definition DEMO_BLANK : pystr := [32; 10; 9].

Definition DEMO_PYTHON_REST : pystr :=
  Eval vm_compute in py "ython" ++ [10] ++ DEMO_EMPTY ++ [10] ++ FENCE.

(** The same for the tags [javascript] and [text], and what follows
    [```json] in a response fenced as [jsonc]. *)
Definition DEMO_JAVASCRIPT_REST : pystr :=
  Eval vm_compute in py "avascript" ++ [10] ++ DEMO_EMPTY ++ [10] ++ FENCE.

Definition DEMO_TEXT_REST : pystr :=
  Eval vm_compute in py "ext" ++ [10] ++ DEMO_EMPTY ++ [10] ++ FENCE.

Definition DEMO_JSONC_REST : pystr :=
  Eval vm_compute in [10] ++ DEMO_EMPTY ++ [10] ++ FENCE.

(** Sessions with whole seconds as marks: a new one, and one with nine
    right answers; a clock that reads 1060. *)
Definition DEMO_SESION : sesion Z := sesion_nueva 1000%Z DEMO_RECORD.

Definition DEMO_SESION_9 : sesion Z := Sesion 9 9 1000%Z DEMO_RECORD [].

Definition DEMO_RELOJ (inicio : Z) : Z := (1060 - inicio)%Z.

(** A cache with two records. *)
Definition DEMO_CACHE_2 : Queue.t := Queue.mk CACHE_SIZE [DEMO_RECORD; DEMO_NULL_RECORD].

(** A response with a number as right answer, and its record. *)
Definition DEMO_NUMBER : pystr :=
  Eval vm_compute in pyq "{'Pregunta': 'p', 'Codigo': 'c', 'Respuestas': ['1', '2'], 'Respuesta correcta': 2}".

Definition DEMO_NUMBER_PARSED : pydict :=
  <[J_PREGUNTA := PStr (py "p")]>
  (<[J_CODIGO := PStr (py "c")]>
  (<[J_RESPUESTAS := PList [PStr (py "1"); PStr (py "2")]]>
  (<[J_RESPUESTA_CORRECTA := PInt 2]> ∅))).

Definition DEMO_NUMBER_RECORD : pydict := armar_pregunta DEMO_NUMBER_PARSED.

(** A new session on that record. *)
Definition DEMO_SESION_NUMBER : sesion Z := sesion_nueva 1000%Z DEMO_NUMBER_RECORD.

(** * Properties *)

(** ** Examples *)

Example py_demo : py "¡Lí" = [161; 76; 237].
Proof. reflexivity. Qed.

Example split_demo : map strip (split COMMA (py "A, B, C, D")) = [py "A"; py "B"; py "C"; py "D"].
Proof. reflexivity. Qed.

Example loads_ref_demo :
  json_loads_ref (pyq " [1, 'a\n', null] ") = inr (PList [PInt 1; PStr [97; 10]; PNone]).
Proof. reflexivity. Qed.

(** ** Strings *)

Ltac nprop :=
  repeat rewrite ?orb_true_iff, ?andb_true_iff, ?orb_false_iff,
    ?andb_false_iff, ?N.eqb_eq, ?N.eqb_neq, ?N.leb_le, ?N.leb_gt,
    ?N.ltb_lt, ?N.ltb_ge in *.

Lemma startswith_app (p r : pystr) : startswith p (p ++ r) = true.
Proof.
  induction p as [|a p IH]; simpl; [reflexivity|].
  rewrite N.eqb_refl. exact IH.
Qed.

Lemma startswith_inv (p s : pystr) :
  startswith p s = true -> exists r, s = p ++ r.
Proof.
  revert s. induction p as [|a p IH]; intros s H.
  - exists s. reflexivity.
  - destruct s as [|b s]; simpl in H; [discriminate|].
    apply andb_true_iff in H as [Hab Hps].
    apply N.eqb_eq in Hab. subst b.
    destruct (IH _ Hps) as [r ->]. exists r. reflexivity.
Qed.

Lemma startswith_head_ne (a : N) (p : pystr) (c : N) (s : pystr) :
  a <> c -> startswith (a :: p) (c :: s) = false.
Proof.
  intros Hne. simpl. apply N.eqb_neq in Hne. rewrite Hne. reflexivity.
Qed.

(** [str_contains] finds the needle exactly when the text has it as a
    contiguous part. *)
Lemma str_contains_spec (needle hay : pystr) :
  str_contains needle hay = true <-> exists a b, hay = a ++ needle ++ b.
Proof.
  split.
  - induction hay as [|c hay IH]; simpl; intros H.
    + rewrite orb_false_r in H. destruct (startswith_inv _ _ H) as [b Hb].
      exists [], b. exact Hb.
    + apply orb_true_iff in H as [H | H].
      * destruct (startswith_inv _ _ H) as [b Hb]. exists [], b. exact Hb.
      * destruct (IH H) as [a [b ->]]. exists (c :: a), b. reflexivity.
  - intros [a [b ->]]. induction a as [|c a IH].
    + simpl app. destruct (needle ++ b) as [|x y] eqn:E; simpl; rewrite <- E;
        rewrite startswith_app; reflexivity.
    + simpl. rewrite IH. apply orb_true_r.
Qed.

Lemma endswith_app (p r : pystr) : endswith p (r ++ p) = true.
Proof.
  unfold endswith. rewrite rev_app_distr. apply startswith_app.
Qed.

Lemma endswith_last_ne (a : N) (p : pystr) (c : N) (s : pystr) :
  a <> c -> endswith (p ++ [a]) (s ++ [c]) = false.
Proof.
  intros Hne. unfold endswith. rewrite !rev_app_distr. simpl.
  apply N.eqb_neq in Hne. rewrite Hne. reflexivity.
Qed.

Lemma slice_to_minus_app (r p : pystr) :
  slice_to_minus (length p) (r ++ p) = r.
Proof.
  unfold slice_to_minus. rewrite length_app.
  replace (length r + length p - length p)%nat with (length r) by lia.
  apply take_app_length.
Qed.

Lemma drop_while_split (f : N -> bool) (s : pystr) :
  exists w, s = w ++ drop_while f s /\ Forall (fun c => f c = true) w.
Proof.
  induction s as [|c s [w [Hs Hw]]]; simpl.
  - exists []. split; [reflexivity | constructor].
  - destruct (f c) eqn:Hc.
    + exists (c :: w). split; [simpl; congruence | constructor; assumption].
    + exists []. split; [reflexivity | constructor].
Qed.

Lemma drop_while_head (f : N -> bool) (s : pystr) (c : N) (r : pystr) :
  drop_while f s = c :: r -> f c = false.
Proof.
  induction s as [|a s IH]; simpl; [discriminate|].
  destruct (f a) eqn:Ha; [exact IH|].
  intros [= -> _]. exact Ha.
Qed.

Lemma drop_while_app (f : N -> bool) (w s : pystr) :
  Forall (fun c => f c = true) w -> drop_while f (w ++ s) = drop_while f s.
Proof.
  induction 1 as [|c w Hc _ IH]; simpl; [reflexivity|].
  rewrite Hc. exact IH.
Qed.

Lemma drop_while_all (f : N -> bool) (w : pystr) :
  Forall (fun c => f c = true) w -> drop_while f w = [].
Proof.
  intros Hw. rewrite <- (app_nil_r w). apply (drop_while_app f w [] Hw).
Qed.

Lemma drop_while_id (f : N -> bool) (c : N) (r : pystr) :
  f c = false -> drop_while f (c :: r) = c :: r.
Proof. intros Hc. simpl. rewrite Hc. reflexivity. Qed.

Lemma Forall_true_rev (f : N -> bool) (w : pystr) :
  Forall (fun c => f c = true) w -> Forall (fun c => f c = true) (rev w).
Proof.
  intros Hw. apply List.Forall_forall. intros c Hc.
  apply List.in_rev in Hc. revert c Hc. apply List.Forall_forall. exact Hw.
Qed.

(** Padding with characters of the class does not change the result. *)
Lemma strip_with_pad (f : N -> bool) (w1 w2 s : pystr) :
  Forall (fun c => f c = true) w1 -> Forall (fun c => f c = true) w2 ->
  strip_with f (w1 ++ s ++ w2) = strip_with f s.
Proof.
  intros H1 H2. unfold strip_with. rewrite (drop_while_app f w1 _ H1).
  destruct (drop_while_split f s) as [w [Hs Hw]].
  destruct (drop_while f s) as [|c r] eqn:Hd.
  - rewrite app_nil_r in Hs. subst w.
    rewrite (drop_while_all f (s ++ w2)); [reflexivity|].
    apply Forall_app; split; assumption.
  - assert (Hc : f c = false) by (eapply drop_while_head; exact Hd).
    rewrite Hs at 1. rewrite <- app_assoc.
    rewrite (drop_while_app f w _ Hw).
    rewrite <- app_comm_cons. rewrite (drop_while_id f c _ Hc).
    rewrite app_comm_cons. rewrite rev_app_distr.
    rewrite (drop_while_app f (rev w2) _ (Forall_true_rev f w2 H2)).
    reflexivity.
Qed.

(** A text that neither begins nor ends in the class is left as it is. *)
Lemma strip_with_id (f : N -> bool) (c c' : N) (r r' : pystr) :
  c :: r = r' ++ [c'] -> f c = false -> f c' = false ->
  strip_with f (c :: r) = c :: r.
Proof.
  intros Heq Hc Hc'. unfold strip_with. rewrite (drop_while_id f c r Hc).
  rewrite Heq. rewrite rev_app_distr. simpl. rewrite Hc'.
  change (c' :: rev r') with (rev [c'] ++ rev r').
  rewrite <- rev_app_distr. apply rev_involutive.
Qed.

(** What is removed at the two ends is of the class. *)
Lemma strip_with_split (f : N -> bool) (s : pystr) :
  exists w1 w2, s = w1 ++ strip_with f s ++ w2 /\
    Forall (fun c => f c = true) w1 /\ Forall (fun c => f c = true) w2.
Proof.
  unfold strip_with.
  destruct (drop_while_split f s) as [w1 [Hs H1]].
  destruct (drop_while_split f (rev (drop_while f s))) as [w [Hr Hw]].
  exists w1, (rev w). split; [|split; [exact H1 | apply Forall_true_rev; exact Hw]].
  rewrite <- rev_app_distr, <- Hr, rev_involutive. exact Hs.
Qed.

(** What is left begins and ends outside of the class. *)
Lemma strip_with_ends (f : N -> bool) (s : pystr) :
  strip_with f s = [] \/
  exists c r c' r', strip_with f s = c :: r /\ strip_with f s = r' ++ [c'] /\
    f c = false /\ f c' = false.
Proof.
  unfold strip_with.
  destruct (drop_while_split f (rev (drop_while f s))) as [w [Hr Hw]].
  destruct (drop_while f (rev (drop_while f s))) as [|c' x] eqn:Hx.
  - left. reflexivity.
  - right. assert (Hc' : f c' = false) by (eapply drop_while_head; exact Hx).
    assert (Hu : drop_while f s = rev x ++ [c'] ++ rev w).
    { rewrite <- (rev_involutive (drop_while f s)), Hr, rev_app_distr.
      simpl. rewrite <- app_assoc. reflexivity. }
    simpl. destruct (rev x) as [|c r] eqn:Hrx; simpl in *.
    + exists c', [], c', []. repeat split; assumption.
    + exists c, (r ++ [c']), c', (c :: r). repeat split; try assumption.
      eapply drop_while_head. exact Hu.
Qed.

(** ** Fences *)

Ltac list_eq := repeat (progress (rewrite <- ?app_assoc; cbn [app])); reflexivity.

Lemma json_ws_first (c : N) : is_json_ws c = true -> json_first c = true.
Proof. intros H. unfold json_first. rewrite H. reflexivity. Qed.

Lemma json_ws_last (c : N) : is_json_ws c = true -> json_last c = true.
Proof. intros H. unfold json_last. rewrite H. reflexivity. Qed.

Lemma json_ws_space (c : N) : is_json_ws c = true -> is_space c = true.
Proof. unfold is_json_ws, is_space. nprop. lia. Qed.

Lemma json_first_not_fence (c : N) : json_first c = true -> 96 <> c /\ 106 <> c.
Proof. unfold json_first, is_json_ws, is_digit. nprop. lia. Qed.

Lemma json_last_not_fence (c : N) : json_last c = true -> 96 <> c.
Proof. unfold json_last, is_json_ws, is_digit. nprop. lia. Qed.

(** A text that begins and ends like a JSON document carries no fence. *)
Lemma limpiar_plain (c c' : N) (r r' : pystr) :
  c :: r = r' ++ [c'] -> json_first c = true -> json_last c' = true ->
  limpiar (c :: r) = c :: r.
Proof.
  intros Heq Hc Hc'. unfold limpiar.
  destruct (json_first_not_fence c Hc) as [Hf _].
  unfold sin_fence_json, FENCE_JSON. rewrite (startswith_head_ne 96 _ c r Hf).
  unfold sin_fence_inicio, FENCE. rewrite (startswith_head_ne 96 _ c r Hf).
  unfold sin_fence_final. rewrite Heq. change FENCE with ([96; 96] ++ [96]).
  rewrite (endswith_last_ne 96 _ c' r' (json_last_not_fence c' Hc')).
  reflexivity.
Qed.

(** The head of a padded document. *)
Lemma padded_head (w1 w2 s tl : pystr) (c : N) (r : pystr) :
  Forall (fun a => is_json_ws a = true) w1 -> s = c :: r -> json_first c = true ->
  exists h t, w1 ++ s ++ w2 ++ tl = h :: t /\ json_first h = true.
Proof.
  intros Hw -> Hc. destruct Hw as [|a w Ha _]; simpl.
  - exists c, (r ++ w2 ++ tl). split; [reflexivity | exact Hc].
  - exists a, (w ++ (c :: r) ++ w2 ++ tl). split; [reflexivity|].
    apply json_ws_first. exact Ha.
Qed.

Lemma sin_fence_inicio_none (h : N) (t : pystr) :
  json_first h = true -> sin_fence_inicio (h :: t) = h :: t.
Proof.
  intros Hh. destruct (json_first_not_fence h Hh) as [Hf _].
  unfold sin_fence_inicio, FENCE.
  rewrite (startswith_head_ne 96 _ h _ Hf). reflexivity.
Qed.

Lemma sin_fence_final_app (y : pystr) : sin_fence_final (y ++ FENCE) = y.
Proof.
  unfold sin_fence_final. rewrite endswith_app.
  apply (slice_to_minus_app y FENCE).
Qed.

(** The fence markers are all that [limpiar] removes from a fenced,
    padded document. *)
Lemma limpiar_fence_json (w1 w2 s : pystr) (c : N) (r : pystr) :
  Forall (fun a => is_json_ws a = true) w1 -> s = c :: r -> json_first c = true ->
  limpiar (FENCE_JSON ++ w1 ++ s ++ w2 ++ FENCE) = w1 ++ s ++ w2.
Proof.
  intros Hw Hs Hc. unfold limpiar.
  assert (H1 : sin_fence_json (FENCE_JSON ++ w1 ++ s ++ w2 ++ FENCE)
               = w1 ++ s ++ w2 ++ FENCE).
  { unfold sin_fence_json. rewrite startswith_app. reflexivity. }
  rewrite H1.
  destruct (padded_head w1 w2 s FENCE c r Hw Hs Hc) as [h [t [Hy Hh]]].
  rewrite Hy, (sin_fence_inicio_none h t Hh), <- Hy.
  replace (w1 ++ s ++ w2 ++ FENCE) with ((w1 ++ s ++ w2) ++ FENCE)
    by (rewrite <- !app_assoc; reflexivity).
  apply sin_fence_final_app.
Qed.

Lemma limpiar_fence_plain (w1 w2 s : pystr) (c : N) (r : pystr) :
  Forall (fun a => is_json_ws a = true) w1 -> s = c :: r -> json_first c = true ->
  limpiar (FENCE ++ w1 ++ s ++ w2 ++ FENCE) = w1 ++ s ++ w2.
Proof.
  intros Hw Hs Hc. unfold limpiar.
  destruct (padded_head w1 w2 s FENCE c r Hw Hs Hc) as [h [t [Hy Hh]]].
  destruct (json_first_not_fence h Hh) as [_ Hj].
  assert (H1 : sin_fence_json (FENCE ++ w1 ++ s ++ w2 ++ FENCE)
               = FENCE ++ w1 ++ s ++ w2 ++ FENCE).
  { unfold sin_fence_json. rewrite Hy. unfold FENCE_JSON, FENCE.
    cbn [startswith app]. apply N.eqb_neq in Hj.
    rewrite !N.eqb_refl, Hj. reflexivity. }
  rewrite H1.
  assert (H2 : sin_fence_inicio (FENCE ++ w1 ++ s ++ w2 ++ FENCE)
               = w1 ++ s ++ w2 ++ FENCE).
  { unfold sin_fence_inicio. rewrite startswith_app. reflexivity. }
  rewrite H2.
  replace (w1 ++ s ++ w2 ++ FENCE) with ((w1 ++ s ++ w2) ++ FENCE)
    by (rewrite <- !app_assoc; reflexivity).
  apply sin_fence_final_app.
Qed.

(** A fenced text has no white space to strip at its ends. *)
Lemma strip_fenced (opening body : pystr) :
  opening = FENCE_JSON \/ opening = FENCE ->
  strip (opening ++ body ++ FENCE) = opening ++ body ++ FENCE.
Proof.
  unfold strip. intros [-> | ->].
  - apply (strip_with_id is_space 96 96
             ([96; 96; 106; 115; 111; 110] ++ body ++ FENCE)
             (FENCE_JSON ++ body ++ [96; 96]));
      [|reflexivity|reflexivity].
    unfold FENCE_JSON, FENCE. list_eq.
  - apply (strip_with_id is_space 96 96
             ([96; 96] ++ body ++ FENCE) (FENCE ++ body ++ [96; 96]));
      [|reflexivity|reflexivity].
    unfold FENCE. list_eq.
Qed.

(** ** The reference loader *)

Lemma skip_ws_split (s : pystr) :
  exists w, s = w ++ JsonRef.skip_ws s /\ Forall (fun c => is_json_ws c = true) w.
Proof. apply drop_while_split. Qed.

Lemma parse_string_end (esc : bool) (s acc k r : pystr) :
  JsonRef.parse_string esc s acc = Some (k, r) -> exists pre, s = pre ++ 34 :: r.
Proof.
  revert esc acc. induction s as [|c s IH]; intros esc acc H; simpl in H.
  - discriminate.
  - destruct esc.
    + destruct (JsonRef.unescape c); [|discriminate].
      destruct (IH _ _ H) as [pre ->]. exists (c :: pre). reflexivity.
    + destruct (c =? 34) eqn:Eq.
      * apply N.eqb_eq in Eq. subst c. injection H as _ <-.
        exists []. reflexivity.
      * destruct (c =? 92).
        { destruct (IH _ _ H) as [pre ->]. exists (c :: pre). reflexivity. }
        destruct (c <? 32); [discriminate|].
        destruct (IH _ _ H) as [pre ->]. exists (c :: pre). reflexivity.
Qed.

Lemma parse_digits_split (s : pystr) (acc z : Z) (r : pystr) :
  JsonRef.parse_digits s acc = (z, r) ->
  exists pre, s = pre ++ r /\ Forall (fun c => is_digit c = true) pre.
Proof.
  revert acc. induction s as [|c s IH]; intros acc H; simpl in H.
  - injection H as _ <-. exists []. split; [reflexivity | constructor].
  - destruct (is_digit c) eqn:Hd.
    + destruct (IH _ H) as [pre [-> Hpre]].
      exists (c :: pre). split; [reflexivity | constructor; assumption].
    + injection H as _ <-. exists []. split; [reflexivity | constructor].
Qed.

Lemma snoc_of_all (P : N -> Prop) (c : N) (l : pystr) :
  P c -> Forall P l -> exists l' c', c :: l = l' ++ [c'] /\ P c'.
Proof.
  revert c. induction l as [|a l IH]; intros c Hc Hl.
  - exists [], c. split; [reflexivity | exact Hc].
  - inversion Hl as [|? ? Ha Hl']; subst.
    destruct (IH a Ha Hl') as [l' [c' [Heq Hc']]].
    exists (c :: l'), c'. split; [rewrite Heq; reflexivity | exact Hc'].
Qed.

Lemma int_end_inv (z z' : Z) (r r' : pystr) :
  JsonRef.int_end z r = Some (z', r') -> r' = r.
Proof.
  unfold JsonRef.int_end. destruct r as [|c r0]; [congruence|].
  destruct (_ || _); [discriminate | congruence].
Qed.

Lemma parse_nat_end (s : pystr) (z : Z) (r : pystr) :
  JsonRef.parse_nat s = Some (z, r) ->
  (exists pre c, s = pre ++ c :: r /\ is_digit c = true) /\
  (exists c t, s = c :: t /\ is_digit c = true).
Proof.
  unfold JsonRef.parse_nat. destruct s as [|c s]; [discriminate|].
  destruct (c =? 48) eqn:E0.
  - intros H. apply int_end_inv in H. subst r.
    apply N.eqb_eq in E0. subst c.
    split; [exists [], 48 | exists 48, s]; split; reflexivity.
  - destruct (is_digit c) eqn:Hd; [|discriminate].
    destruct (JsonRef.parse_digits s _) as [z0 r0] eqn:Hp.
    intros H. apply int_end_inv in H. subst r.
    destruct (parse_digits_split _ _ _ _ Hp) as [pre [-> Hpre]].
    split; [|exists c, (pre ++ r0); split; [reflexivity | exact Hd]].
    destruct (snoc_of_all (fun c => is_digit c = true) c pre Hd Hpre)
      as [l' [c' [Heq Hc']]].
    exists l', c'. split; [|exact Hc'].
    change (c :: pre ++ r0) with ((c :: pre) ++ r0). rewrite Heq. list_eq.
Qed.

Lemma parse_int_end (s : pystr) (z : Z) (r : pystr) :
  JsonRef.parse_int s = Some (z, r) ->
  (exists pre c, s = pre ++ c :: r /\ is_digit c = true) /\
  (exists c t, s = c :: t /\ (is_digit c = true \/ c = 45)).
Proof.
  unfold JsonRef.parse_int. destruct s as [|c s]; [discriminate|].
  destruct (c =? 45) eqn:E.
  - destruct (JsonRef.parse_nat s) as [[z0 r0]|] eqn:Hn; [|discriminate].
    intros [= _ <-]. apply N.eqb_eq in E. subst c.
    destruct (parse_nat_end _ _ _ Hn) as [[pre [c' [-> Hc']]] _].
    split; [exists (45 :: pre), c' | exists 45, (pre ++ c' :: r0)];
      split; auto.
  - intros Hn. destruct (parse_nat_end _ _ _ Hn) as [He [c0 [t [Hs Hc0]]]].
    split; [exact He|]. exists c0, t. split; [exact Hs | left; exact Hc0].
Qed.

Lemma parse_elems_end pv (n : nat) (s : pystr) acc l r :
  suffix_parser pv ->
  JsonRef.parse_elems pv n s acc = Some (l, r) -> exists pre, s = pre ++ 93 :: r.
Proof.
  intros Hpv. revert s acc. induction n as [|n IH]; intros s acc H; simpl in H.
  - discriminate.
  - destruct (pv s) as [[v r1]|] eqn:Hv; [|discriminate].
    destruct (Hpv _ _ _ Hv) as [p1 ->].
    destruct (skip_ws_split r1) as [w [Hr1 _]].
    destruct (JsonRef.skip_ws r1) as [|c r2]; [discriminate|].
    destruct (c =? 44) eqn:E1.
    + apply N.eqb_eq in E1. subst c.
      destruct (IH _ _ H) as [p2 ->].
      exists (p1 ++ w ++ 44 :: p2). rewrite Hr1. list_eq.
    + destruct (c =? 93) eqn:E2; [|discriminate].
      apply N.eqb_eq in E2. subst c. injection H as _ <-.
      exists (p1 ++ w). rewrite Hr1. list_eq.
Qed.

Lemma parse_members_end pv (n : nat) (s : pystr) acc d r :
  suffix_parser pv ->
  JsonRef.parse_members pv n s acc = Some (d, r) -> exists pre, s = pre ++ 125 :: r.
Proof.
  intros Hpv. revert s acc. induction n as [|n IH]; intros s acc H; simpl in H.
  - discriminate.
  - destruct (skip_ws_split s) as [w0 [Hs _]].
    destruct (JsonRef.skip_ws s) as [|c0 r0]; [discriminate|].
    destruct (c0 =? 34); [|discriminate].
    destruct (JsonRef.parse_string false r0 []) as [[k r1]|] eqn:Hk; [|discriminate].
    destruct (parse_string_end _ _ _ _ _ Hk) as [pk ->].
    destruct (skip_ws_split r1) as [w1 [Hr1 _]].
    destruct (JsonRef.skip_ws r1) as [|c1 r2]; [discriminate|].
    destruct (c1 =? 58); [|discriminate].
    destruct (pv r2) as [[v r3]|] eqn:Hv; [|discriminate].
    destruct (Hpv _ _ _ Hv) as [pv2 ->].
    destruct (skip_ws_split r3) as [w3 [Hr3 _]].
    destruct (JsonRef.skip_ws r3) as [|c3 r4]; [discriminate|].
    destruct (c3 =? 44) eqn:E1.
    + apply N.eqb_eq in E1. subst c3.
      destruct (IH _ _ H) as [p4 ->].
      exists (w0 ++ c0 :: pk ++ 34 :: w1 ++ c1 :: pv2 ++ w3 ++ 44 :: p4).
      rewrite Hs, Hr1, Hr3. list_eq.
    + destruct (c3 =? 125) eqn:E2; [|discriminate].
      apply N.eqb_eq in E2. subst c3. injection H as _ <-.
      exists (w0 ++ c0 :: pk ++ 34 :: w1 ++ c1 :: pv2 ++ w3).
      rewrite Hs, Hr1, Hr3. list_eq.
Qed.

Lemma literal_end (lit : pystr) (s : pystr) (c : N) (pre : pystr) :
  lit = pre ++ [c] -> startswith lit s = true ->
  s = pre ++ c :: drop (length lit) s.
Proof.
  intros Hl H. destruct (startswith_inv _ _ H) as [r ->].
  rewrite drop_app_length. rewrite Hl. list_eq.
Qed.

Lemma parse_value_end (fuel : nat) (s : pystr) (v : pyval) (rest : pystr) :
  JsonRef.parse_value fuel s = Some (v, rest) ->
  exists pre c, s = pre ++ c :: rest /\ JsonRef.tok_last c = true.
Proof.
  revert s v rest. induction fuel as [|f IH]; intros s v rest H;
    cbn [JsonRef.parse_value] in H.
  - discriminate.
  - assert (Hpv : suffix_parser (JsonRef.parse_value f)).
    { intros s0 v0 r0 H0. destruct (IH _ _ _ H0) as [pre [c [-> _]]].
      exists (pre ++ [c]). list_eq. }
    destruct (skip_ws_split s) as [w [Hs _]].
    destruct (JsonRef.skip_ws s) as [|c r]; [discriminate|].
    destruct (c =? 123) eqn:E1.
    { destruct (skip_ws_split r) as [w' [Hr _]].
      destruct (JsonRef.skip_ws r) as [|c2 r2]; [discriminate|].
      destruct (c2 =? 125) eqn:E2.
      - apply N.eqb_eq in E2. subst c2. injection H as _ <-.
        exists (w ++ c :: w'), 125. split; [|reflexivity].
        rewrite Hs, Hr. list_eq.
      - destruct (JsonRef.parse_members _ _ _ _) as [[d r']|] eqn:Hm; [|discriminate].
        injection H as _ <-.
        destruct (parse_members_end _ _ _ _ _ _ Hpv Hm) as [pre Hpre].
        exists (w ++ c :: pre), 125. split; [|reflexivity].
        rewrite Hs, Hpre. list_eq. }
    destruct (c =? 91) eqn:E2.
    { destruct (skip_ws_split r) as [w' [Hr _]].
      destruct (JsonRef.skip_ws r) as [|c2 r2]; [discriminate|].
      destruct (c2 =? 93) eqn:E3.
      - apply N.eqb_eq in E3. subst c2. injection H as _ <-.
        exists (w ++ c :: w'), 93. split; [|reflexivity].
        rewrite Hs, Hr. list_eq.
      - destruct (JsonRef.parse_elems _ _ _ _) as [[l r']|] eqn:Hm; [|discriminate].
        injection H as _ <-.
        destruct (parse_elems_end _ _ _ _ _ _ Hpv Hm) as [pre Hpre].
        exists (w ++ c :: pre), 93. split; [|reflexivity].
        rewrite Hs, Hpre. list_eq. }
    destruct (c =? 34) eqn:E3.
    { destruct (JsonRef.parse_string false r []) as [[k r']|] eqn:Hk; [|discriminate].
      injection H as _ <-.
      destruct (parse_string_end _ _ _ _ _ Hk) as [pre ->].
      exists (w ++ c :: pre), 34. split; [|reflexivity].
      rewrite Hs. list_eq. }
    destruct (startswith JsonRef.L_TRUE (c :: r)) eqn:E4.
    { injection H as _ <-.
      exists (w ++ [116; 114; 117]), 101. split; [|reflexivity].
      rewrite Hs at 1.
      rewrite (literal_end JsonRef.L_TRUE (c :: r) 101 [116; 114; 117] eq_refl E4) at 1.
      list_eq. }
    destruct (startswith JsonRef.L_FALSE (c :: r)) eqn:E5.
    { injection H as _ <-.
      exists (w ++ [102; 97; 108; 115]), 101. split; [|reflexivity].
      rewrite Hs at 1.
      rewrite (literal_end JsonRef.L_FALSE (c :: r) 101 [102; 97; 108; 115] eq_refl E5) at 1.
      list_eq. }
    destruct (startswith JsonRef.L_NULL (c :: r)) eqn:E6.
    { injection H as _ <-.
      exists (w ++ [110; 117; 108]), 108. split; [|reflexivity].
      rewrite Hs at 1.
      rewrite (literal_end JsonRef.L_NULL (c :: r) 108 [110; 117; 108] eq_refl E6) at 1.
      list_eq. }
    destruct (JsonRef.parse_int (c :: r)) as [[z r']|] eqn:Hi; [|discriminate].
    injection H as _ <-.
    destruct (parse_int_end _ _ _ Hi) as [[pre [c' [Heq Hc']]] _].
    exists (w ++ pre), c'. split.
    + rewrite Hs, Heq. list_eq.
    + unfold JsonRef.tok_last. rewrite Hc'. reflexivity.
Qed.

Lemma parse_value_first (fuel : nat) (s : pystr) (v : pyval) (rest : pystr) :
  JsonRef.parse_value fuel s = Some (v, rest) ->
  exists c r, JsonRef.skip_ws s = c :: r /\ JsonRef.tok_first c = true.
Proof.
  destruct fuel as [|f]; intros H; cbn [JsonRef.parse_value] in H; [discriminate|].
  destruct (JsonRef.skip_ws s) as [|c r]; [discriminate|].
  exists c, r. split; [reflexivity|]. unfold JsonRef.tok_first.
  destruct (c =? 123) eqn:E1; [rewrite ?orb_true_r; reflexivity|].
  destruct (c =? 91) eqn:E2; [rewrite ?orb_true_r; reflexivity|].
  destruct (c =? 34) eqn:E3; [rewrite ?orb_true_r; reflexivity|].
  destruct (startswith JsonRef.L_TRUE (c :: r)) eqn:E4.
  { destruct (startswith_inv _ _ E4) as [t Ht]. injection Ht as -> _.
    reflexivity. }
  destruct (startswith JsonRef.L_FALSE (c :: r)) eqn:E5.
  { destruct (startswith_inv _ _ E5) as [t Ht]. injection Ht as -> _.
    reflexivity. }
  destruct (startswith JsonRef.L_NULL (c :: r)) eqn:E6.
  { destruct (startswith_inv _ _ E6) as [t Ht]. injection Ht as -> _.
    reflexivity. }
  destruct (JsonRef.parse_int (c :: r)) as [[z r']|] eqn:Hi; [|discriminate].
  destruct (parse_int_end _ _ _ Hi) as [_ [c0 [t [Heq Hc0]]]].
  injection Heq as <- _.
  destruct Hc0 as [Hd | Hc]; [rewrite Hd | rewrite Hc]; reflexivity.
Qed.

Lemma tok_first_props (c : N) :
  JsonRef.tok_first c = true ->
  json_first c = true /\ is_space c = false /\ is_json_ws c = false.
Proof.
  unfold JsonRef.tok_first, json_first, is_space, is_json_ws, is_digit.
  nprop. lia.
Qed.

Lemma tok_last_props (c : N) :
  JsonRef.tok_last c = true ->
  json_last c = true /\ is_space c = false /\ is_json_ws c = false.
Proof.
  unfold JsonRef.tok_last, json_last, is_space, is_json_ws, is_digit.
  nprop. lia.
Qed.

(** What the reference loader accepts, once the white space around it is
    taken away, begins and ends with a character of a value. *)
Lemma loads_ref_inv (s : pystr) (v : pyval) :
  json_loads_ref s = inr v ->
  exists c r c' r',
    strip_with is_json_ws s = c :: r /\ strip_with is_json_ws s = r' ++ [c'] /\
    JsonRef.tok_first c = true /\ JsonRef.tok_last c' = true /\
    json_loads_ref (strip_with is_json_ws s) = inr v.
Proof.
  unfold json_loads_ref, JsonRef.loads. cbv zeta.
  destruct (JsonRef.parse_value _ (strip_with is_json_ws s)) as [[v0 rest]|] eqn:Hp;
    [|discriminate].
  destruct rest as [|? ?]; [|discriminate]. intros [= ->].
  destruct (parse_value_end _ _ _ _ Hp) as [r' [c' [Hend Hc']]].
  destruct (parse_value_first _ _ _ _ Hp) as [c [r [Hsk Hc]]].
  destruct (strip_with_ends is_json_ws s) as [Hnil | [c0 [r0 [c1 [r1 [H0 [H1 [Hf0 Hf1]]]]]]]].
  { rewrite Hnil in Hend. destruct r'; discriminate. }
  assert (Hhead : c0 :: r0 = c :: r).
  { rewrite <- Hsk, H0. unfold JsonRef.skip_ws. symmetry.
    apply drop_while_id. exact Hf0. }
  injection Hhead as -> ->.
  exists c, r, c', r'. repeat split; try assumption.
  rewrite H0.
  rewrite (strip_with_id is_json_ws c c1 r r1); [| congruence | exact Hf0 | exact Hf1].
  rewrite <- H0, Hp. reflexivity.
Qed.

Lemma Forall_ws_space (w : pystr) :
  Forall (fun c => is_json_ws c = true) w -> Forall (fun c => is_space c = true) w.
Proof. apply List.Forall_impl. exact json_ws_space. Qed.

Lemma json_loads_ref_laws : loader_laws json_loads_ref.
Proof.
  constructor.
  - (* strip *)
    intros s v H.
    destruct (loads_ref_inv s v H) as [c [r [c' [r' [H0 [H1 [Hc [Hc' Hl]]]]]]]].
    destruct (strip_with_split is_json_ws s) as [w1 [w2 [Hs [Hw1 Hw2]]]].
    destruct (tok_first_props c Hc) as [_ [Hsp _]].
    destruct (tok_last_props c' Hc') as [_ [Hsp' _]].
    assert (Hst : strip s = strip_with is_json_ws s).
    { unfold strip. rewrite Hs at 1.
      rewrite (strip_with_pad is_space w1 w2 _ (Forall_ws_space _ Hw1) (Forall_ws_space _ Hw2)).
      rewrite H0. apply (strip_with_id is_space c c' r r'); [congruence | exact Hsp | exact Hsp']. }
    rewrite Hst. exact Hl.
  - (* pad *)
    intros w1 w2 s v Hw1 Hw2 H.
    unfold json_loads_ref, JsonRef.loads in *.
    rewrite (strip_with_pad is_json_ws w1 w2 s Hw1 Hw2). exact H.
  - (* first *)
    intros s v H.
    destruct (loads_ref_inv s v H) as [c [r [c' [r' [H0 [_ [Hc _]]]]]]].
    destruct (strip_with_split is_json_ws s) as [w1 [w2 [Hs [Hw1 _]]]].
    destruct (tok_first_props c Hc) as [Hjf _].
    destruct (padded_head w1 w2 _ [] c r Hw1 H0 Hjf) as [h [t [Hy Hh]]].
    rewrite app_nil_r in Hy. exists h, t. split; [congruence | exact Hh].
  - (* last *)
    intros s v H.
    destruct (loads_ref_inv s v H) as [c [r [c' [r' [_ [H1 [_ [Hc' _]]]]]]]].
    destruct (strip_with_split is_json_ws s) as [w1 [w2 [Hs [_ Hw2]]]].
    destruct (tok_last_props c' Hc') as [Hjl _].
    destruct Hw2 as [|a w Ha Hw].
    + exists (w1 ++ r'), c'. split; [|exact Hjl].
      rewrite Hs, H1. list_eq.
    + destruct (snoc_of_all (fun c => is_json_ws c = true) a w Ha Hw)
        as [l' [a' [Heq Ha']]].
      exists (w1 ++ r' ++ [c'] ++ l'), a'. split; [|apply json_ws_last; exact Ha'].
      rewrite Hs at 1. rewrite H1, Heq. list_eq.
Qed.

Lemma json_loads_ref_object : loader_object json_loads_ref.
Proof.
  intros s d H. unfold json_loads_ref, JsonRef.loads in H.
  destruct (strip_with_split is_json_ws s) as [w1 [w2 [Hs [Hw1 _]]]].
  cbv zeta in H. set (t := strip_with is_json_ws s) in *.
  destruct (drop_while_split is_json_ws t) as [w [Ht Hw]].
  cbn [JsonRef.parse_value] in H. unfold JsonRef.skip_ws at 1 in H.
  destruct (drop_while is_json_ws t) as [|c r] eqn:Hsk; [discriminate H|].
  destruct (c =? 123) eqn:Hc.
  - apply N.eqb_eq in Hc. subst c. exists (w1 ++ w), (r ++ w2). split.
    + rewrite Hs, Ht. list_eq.
    + apply Forall_app. split; assumption.
  - exfalso.
    match type of H with
    | match ?X with _ => _ end = _ => destruct X as [[v [|c' r']]|] eqn:E
    end; try discriminate H.
    injection H as ->.
    repeat match type of E with
           | context [if ?b then _ else _] => destruct b
           | context [match ?x with _ => _ end] => destruct x
           end; discriminate E.
Qed.

(** ** The records *)

Ltac key_ne := let H := fresh in intro H; vm_compute in H; discriminate H.

Ltac dict_lookup :=
  repeat first [ rewrite lookup_insert_eq
               | rewrite lookup_insert_ne by key_ne
               | rewrite lookup_empty ].

Lemma armar_pregunta_lookups (o : pydict) :
  armar_pregunta o !! K_PREGUNTA = Some (dict_get o J_PREGUNTA) /\
  armar_pregunta o !! K_CODIGO = Some (dict_get o J_CODIGO) /\
  armar_pregunta o !! K_RESPUESTAS
    = Some (normalizar_respuestas (dict_get o J_RESPUESTAS)) /\
  armar_pregunta o !! K_RESPUESTA_CORRECTA = Some (dict_get o J_RESPUESTA_CORRECTA) /\
  armar_pregunta o !! K_EXPLICACION = Some (dict_get_default o J_EXPLICACION (PStr [])).
Proof. unfold armar_pregunta. repeat split; dict_lookup; reflexivity. Qed.

Lemma armar_pregunta_dom (o : pydict) : dom (armar_pregunta o) = QUESTION_KEYS.
Proof.
  unfold armar_pregunta, QUESTION_KEYS. rewrite !dom_insert_L, dom_empty_L.
  set_solver.
Qed.

Lemma error_record_lookups (e : exc) (t : option pystr) :
  error_record e t !! K_ERROR = Some (PStr (py "No se pudo extraer el JSON")) /\
  error_record e t !! K_DETALLE = Some (PStr (str_exc e)) /\
  error_record e t !! K_TEXTO = Some (opt_str t).
Proof. unfold error_record. repeat split; dict_lookup; reflexivity. Qed.

Lemma error_record_dom (e : exc) (t : option pystr) :
  dom (error_record e t) = ERROR_KEYS.
Proof.
  unfold error_record, ERROR_KEYS. rewrite !dom_insert_L, dom_empty_L.
  set_solver.
Qed.

Lemma SENTINEL_dom : dom SENTINEL = QUESTION_KEYS.
Proof.
  unfold SENTINEL, QUESTION_KEYS. rewrite !dom_insert_L, dom_empty_L.
  set_solver.
Qed.

Lemma dict_has_dom (d : pydict) (k : pystr) :
  dict_has d k = true <-> k ∈ dom d.
Proof.
  unfold dict_has. rewrite bool_decide_eq_true. symmetry. apply elem_of_dom.
Qed.

Lemma dict_has_dom_false (d : pydict) (k : pystr) :
  dict_has d k = false <-> k ∉ dom d.
Proof.
  rewrite <- dict_has_dom. destruct (dict_has d k); split; congruence.
Qed.

Lemma question_keys_no_error : K_ERROR ∉ QUESTION_KEYS.
Proof.
  unfold QUESTION_KEYS. rewrite !elem_of_union, !elem_of_singleton.
  intros [[[[H|H]|H]|H]|H]; vm_compute in H; discriminate H.
Qed.

Lemma error_keys_no_pregunta : K_PREGUNTA ∉ ERROR_KEYS.
Proof.
  unfold ERROR_KEYS. rewrite !elem_of_union, !elem_of_singleton.
  intros [[H|H]|H]; vm_compute in H; discriminate H.
Qed.

Lemma es_valida_armar (o : pydict) : es_valida (PDict (armar_pregunta o)) = true.
Proof.
  unfold es_valida. apply andb_true_iff.
  destruct (armar_pregunta_lookups o) as [H1 [H2 _]].
  unfold dict_has. rewrite H1, H2. split; apply bool_decide_eq_true; eauto.
Qed.

Lemma es_valida_error (e : exc) (t : option pystr) :
  es_valida (PDict (error_record e t)) = false.
Proof.
  unfold es_valida. apply andb_false_iff. left.
  apply dict_has_dom_false. rewrite error_record_dom.
  exact error_keys_no_pregunta.
Qed.

(** ** generar_pregunta *)

Section GeneratorProps.

Variable json_loads : pystr -> exc + pyval.

(** Whatever the response, the function returns the record built from the
    parsed object or the dictionary of the [except] branch. *)
Lemma generar_pregunta_cases (response_text : option pystr) :
  generar_pregunta json_loads (ClientReturns response_text) =
  match generar_pregunta_try json_loads response_text with
  | inr pregunta => Return pregunta
  | inl e => Return (error_record e response_text)
  end.
Proof. reflexivity. Qed.

Lemma try_cases (raw : pystr) :
  generar_pregunta_try json_loads (Some raw) =
  match json_loads (limpiar (strip raw)) with
  | inl e => inl e
  | inr (PDict o) => inr (armar_pregunta o)
  | inr v => inl (attribute_error v "get")
  end.
Proof. reflexivity. Qed.

(** What the [try] returns is a question record. *)
Lemma try_returns_pregunta (response_text : option pystr) (p : pydict) :
  generar_pregunta_try json_loads response_text = inr p ->
  exists o, p = armar_pregunta o.
Proof.
  destruct response_text as [raw|]; [|discriminate].
  rewrite try_cases. destruct (json_loads _) as [e|[]]; try discriminate.
  intros [= <-]. eauto.
Qed.

(** C5. For a response whose cleaned text [json.loads] rejects, and more
    generally whenever the body of the [try] fails with an exception [e],
    [generar_pregunta] returns the dictionary of the [except] branch,
    whose [detalle] is [str(e)] and whose [texto] is the raw response
    text; once the client has returned a response the function never
    raises. *)
Theorem generar_pregunta_error_record (response_text : option pystr) :
  (forall e, generar_pregunta json_loads (ClientReturns response_text) <> Raise e) /\
  (forall e, generar_pregunta_try json_loads response_text = inl e ->
     generar_pregunta json_loads (ClientReturns response_text)
       = Return (error_record e response_text) /\
     error_record e response_text !! K_DETALLE = Some (PStr (str_exc e)) /\
     error_record e response_text !! K_TEXTO = Some (opt_str response_text) /\
     dom (error_record e response_text) = ERROR_KEYS) /\
  (forall raw e, response_text = Some raw ->
     json_loads (limpiar (strip raw)) = inl e ->
     generar_pregunta_try json_loads response_text = inl e).
Proof.
  split; [|split].
  - intros e. rewrite generar_pregunta_cases.
    destruct (generar_pregunta_try _ _); discriminate.
  - intros e He. rewrite generar_pregunta_cases, He.
    destruct (error_record_lookups e response_text) as [_ [Hd Ht]].
    split; [reflexivity|]. split; [exact Hd|]. split; [exact Ht|].
    apply error_record_dom.
  - intros raw e -> He. rewrite try_cases, He. reflexivity.
Qed.

End GeneratorProps.

(** On the text ["Lo siento"] the reference loader fails and the
    generator answers with the error dictionary. *)
Lemma generar_pregunta_error_record_witness :
  json_loads_ref (limpiar (strip (py "Lo siento"))) = inl JsonRef.decode_error /\
  generar_pregunta json_loads_ref (ClientReturns (Some (py "Lo siento")))
    = Return (error_record JsonRef.decode_error (Some (py "Lo siento"))).
Proof.
  assert (H : json_loads_ref (limpiar (strip (py "Lo siento"))) = inl JsonRef.decode_error)
    by (vm_compute; reflexivity).
  split; [exact H|].
  destruct (generar_pregunta_error_record json_loads_ref (Some (py "Lo siento")))
    as [_ [Hgen Htry]].
  apply (Hgen JsonRef.decode_error).
  apply (Htry (py "Lo siento") JsonRef.decode_error eq_refl H).
Defined.

Section GeneratorLaws.

Variable json_loads : pystr -> exc + pyval.
Hypothesis laws : loader_laws json_loads.

(** A document that [json.loads] accepts is parsed by [generar_pregunta]
    as it stands: [strip] and the fence tests leave nothing else. *)
Lemma loads_limpiar (raw : pystr) (v : pyval) :
  json_loads raw = inr v -> json_loads (limpiar (strip raw)) = inr v.
Proof.
  intros H. pose proof (loads_strip _ laws _ _ H) as Hs.
  destruct (loads_first _ laws _ _ Hs) as [c [r [Hc Hjf]]].
  destruct (loads_last _ laws _ _ Hs) as [r' [c' [Hc' Hjl]]].
  rewrite Hc. rewrite (limpiar_plain c c' r r'); [|congruence|exact Hjf|exact Hjl].
  rewrite <- Hc. exact Hs.
Qed.

(** From a fenced document the cleaning removes the two markers and
    nothing else. *)
Lemma limpiar_strip_fenced (opening w1 w2 s : pystr) (v : pyval) :
  opening = FENCE_JSON \/ opening = FENCE ->
  Forall (fun c => is_json_ws c = true) w1 ->
  json_loads s = inr v ->
  limpiar (strip (opening ++ w1 ++ s ++ w2 ++ FENCE)) = w1 ++ s ++ w2.
Proof.
  intros Ho Hw1 H.
  destruct (loads_first _ laws _ _ H) as [c [r [Hc Hjf]]].
  replace (opening ++ w1 ++ s ++ w2 ++ FENCE)
    with (opening ++ (w1 ++ s ++ w2) ++ FENCE) by list_eq.
  rewrite (strip_fenced opening _ Ho).
  replace (opening ++ (w1 ++ s ++ w2) ++ FENCE)
    with (opening ++ w1 ++ s ++ w2 ++ FENCE) by list_eq.
  destruct Ho as [-> | ->].
  - apply (limpiar_fence_json w1 w2 s c r Hw1 Hc Hjf).
  - apply (limpiar_fence_plain w1 w2 s c r Hw1 Hc Hjf).
Qed.

Lemma loads_limpiar_fenced (opening w1 w2 s : pystr) (v : pyval) :
  opening = FENCE_JSON \/ opening = FENCE ->
  Forall (fun c => is_json_ws c = true) w1 ->
  Forall (fun c => is_json_ws c = true) w2 ->
  json_loads s = inr v ->
  json_loads (limpiar (strip (opening ++ w1 ++ s ++ w2 ++ FENCE))) = inr v.
Proof.
  intros Ho Hw1 Hw2 H.
  rewrite (limpiar_strip_fenced opening w1 w2 s v Ho Hw1 H).
  apply (loads_pad _ laws); assumption.
Qed.

Lemma maps_field_get (o : pydict) (j : pystr) (q : pydict) (k : pystr) (vacio : pyval) :
  q !! k = Some (default vacio (o !! j)) -> maps_field o j q k vacio.
Proof.
  intros H. split.
  - intros v Hv. rewrite H, Hv. reflexivity.
  - intros Hv. rewrite H, Hv. reflexivity.
Qed.

(** C6. For every response that [json.loads] accepts as an object, the
    generator returns a record with exactly the five keys, each holding
    the value of its key of the object unchanged; a key the object lacks
    gives [None] for [pregunta], [codigo] and [respuesta_correcta], the
    empty string for [explicacion] and the empty list for [respuestas];
    an array under ["Respuestas"] is kept as it is. *)
Theorem generar_pregunta_valid_response (raw : pystr) (o : pydict) :
  json_loads raw = inr (PDict o) ->
  exists q,
    generar_pregunta json_loads (ClientReturns (Some raw)) = Return q /\
    dom q = QUESTION_KEYS /\
    maps_field o J_PREGUNTA q K_PREGUNTA PNone /\
    maps_field o J_CODIGO q K_CODIGO PNone /\
    maps_field o J_RESPUESTA_CORRECTA q K_RESPUESTA_CORRECTA PNone /\
    maps_field o J_EXPLICACION q K_EXPLICACION (PStr []) /\
    (forall l, o !! J_RESPUESTAS = Some (PList l) ->
       q !! K_RESPUESTAS = Some (PList l)) /\
    (o !! J_RESPUESTAS = None -> q !! K_RESPUESTAS = Some (PList [])).
Proof.
  intros H. exists (armar_pregunta o).
  destruct (armar_pregunta_lookups o) as [H1 [H2 [H3 [H4 H5]]]].
  split.
  { rewrite generar_pregunta_cases, try_cases, (loads_limpiar raw _ H).
    reflexivity. }
  split; [apply armar_pregunta_dom|].
  repeat (split; [apply maps_field_get; assumption|]).
  split.
  - intros l Hl. rewrite H3. unfold dict_get. rewrite Hl. reflexivity.
  - intros Hl. rewrite H3. unfold dict_get. rewrite Hl. reflexivity.
Qed.

(** C8, as amended. For every document [s] that [json.loads] accepts,
    wrapped between an opening fence (with or without [json]) and a
    closing fence, with JSON white space allowed between the fences and
    [s]: the cleaning leaves [s] with that white space, which parses as
    [s] does; when [s] is an object the generator returns the same record
    for the fenced and for the bare text; when [s] is another JSON value
    both texts give the error dictionary of the same exception, each
    carrying its own raw text. *)
Theorem generar_pregunta_fenced (opening w1 w2 s : pystr) (v : pyval) :
  opening = FENCE_JSON \/ opening = FENCE ->
  Forall (fun c => is_json_ws c = true) w1 ->
  Forall (fun c => is_json_ws c = true) w2 ->
  json_loads s = inr v ->
  let fenced := opening ++ w1 ++ s ++ w2 ++ FENCE in
  limpiar (strip fenced) = w1 ++ s ++ w2 /\
  json_loads (limpiar (strip fenced)) = inr v /\
  json_loads (limpiar (strip s)) = inr v /\
  (forall o, v = PDict o ->
     generar_pregunta json_loads (ClientReturns (Some fenced))
       = Return (armar_pregunta o) /\
     generar_pregunta json_loads (ClientReturns (Some s))
       = Return (armar_pregunta o)) /\
  ((forall o, v <> PDict o) ->
     generar_pregunta json_loads (ClientReturns (Some fenced))
       = Return (error_record (attribute_error v "get") (Some fenced)) /\
     generar_pregunta json_loads (ClientReturns (Some s))
       = Return (error_record (attribute_error v "get") (Some s))).
Proof.
  intros Ho Hw1 Hw2 H fenced.
  pose proof (loads_limpiar_fenced opening w1 w2 s v Ho Hw1 Hw2 H) as Hf.
  pose proof (loads_limpiar s v H) as Hb.
  fold fenced in Hf.
  split; [apply (limpiar_strip_fenced opening w1 w2 s v Ho Hw1 H)|].
  split; [exact Hf|]. split; [exact Hb|]. split.
  - intros o ->.
    rewrite !generar_pregunta_cases, !try_cases, Hf, Hb. split; reflexivity.
  - intros Hv.
    rewrite !generar_pregunta_cases, !try_cases, Hf, Hb.
    destruct v; try (split; reflexivity).
    exfalso. eapply Hv. reflexivity.
Qed.

End GeneratorLaws.

Lemma demo_object_loads : json_loads_ref DEMO_OBJECT = inr (PDict DEMO_PARSED).
Proof. vm_compute. reflexivity. Qed.

Lemma ws_line_feed : Forall (fun c => is_json_ws c = true) [10].
Proof. repeat constructor. Qed.

(** The five-key object above gives a record with its five values. *)
Lemma generar_pregunta_valid_response_witness :
  exists q,
    generar_pregunta json_loads_ref (ClientReturns (Some DEMO_OBJECT)) = Return q /\
    q !! K_PREGUNTA = Some (PStr (py "p")) /\
    q !! K_RESPUESTAS
      = Some (PList [PStr (py "1"); PStr (py "2"); PStr (py "3"); PStr (py "4")]).
Proof.
  destruct (generar_pregunta_valid_response json_loads_ref json_loads_ref_laws
              DEMO_OBJECT DEMO_PARSED demo_object_loads)
    as [q [Hq [_ [[Hp _] [_ [_ [_ [Hr _]]]]]]]].
  exists q. split; [exact Hq|]. split.
  - apply Hp. reflexivity.
  - apply Hr. reflexivity.
Defined.

(** The same object between [```json] and [```], one line feed on each
    side, gives the record of the bare object. *)
Lemma generar_pregunta_fenced_witness :
  generar_pregunta json_loads_ref
    (ClientReturns (Some (FENCE_JSON ++ [10] ++ DEMO_OBJECT ++ [10] ++ FENCE)))
  = generar_pregunta json_loads_ref (ClientReturns (Some DEMO_OBJECT)).
Proof.
  destruct (generar_pregunta_fenced json_loads_ref json_loads_ref_laws
              FENCE_JSON [10] [10] DEMO_OBJECT (PDict DEMO_PARSED)
              (or_introl eq_refl)
              ws_line_feed ws_line_feed
              demo_object_loads) as [_ [_ [_ [Hobj _]]]].
  destruct (Hobj DEMO_PARSED eq_refl) as [Hf Hb].
  rewrite Hf, Hb. reflexivity.
Defined.

(** C8, as the claim has it, fails on the document [[1]]: it is valid
    JSON, the fenced and the bare response both end in the [except]
    branch, and the two dictionaries differ in [texto]. *)
Lemma generar_pregunta_fenced_counterexample :
  json_loads_ref DEMO_ARRAY = inr (PList [PInt 1]) /\
  generar_pregunta json_loads_ref (ClientReturns (Some DEMO_ARRAY_FENCED))
  <> generar_pregunta json_loads_ref (ClientReturns (Some DEMO_ARRAY)).
Proof.
  split; [vm_compute; reflexivity|].
  intros H.
  assert (Hf : generar_pregunta json_loads_ref (ClientReturns (Some DEMO_ARRAY_FENCED))
           = Return (error_record (attribute_error (PList [PInt 1]) "get")
                       (Some DEMO_ARRAY_FENCED)))
    by (vm_compute; reflexivity).
  assert (Hb : generar_pregunta json_loads_ref (ClientReturns (Some DEMO_ARRAY))
           = Return (error_record (attribute_error (PList [PInt 1]) "get")
                       (Some DEMO_ARRAY)))
    by (vm_compute; reflexivity).
  rewrite Hf, Hb in H.
  apply (f_equal texto_of) in H. unfold texto_of in H.
  destruct (error_record_lookups (attribute_error (PList [PInt 1]) "get")
              (Some DEMO_ARRAY_FENCED)) as [_ [_ H1]].
  destruct (error_record_lookups (attribute_error (PList [PInt 1]) "get")
              (Some DEMO_ARRAY)) as [_ [_ H2]].
  rewrite H1, H2 in H. vm_compute in H. discriminate H.
Qed.

(** ** The coercion of the answers *)

Lemma split_aux_cons (sep : N) (cur s : pystr) :
  exists x l, split_aux sep cur s = x :: l.
Proof.
  revert cur. induction s as [|c s IH]; intros cur; simpl.
  - eauto.
  - destruct (c =? sep); [eauto | apply IH].
Qed.

Lemma split_aux_join (sep : N) (cur s : pystr) :
  join sep (split_aux sep cur s) = rev cur ++ s.
Proof.
  revert cur. induction s as [|c s IH]; intros cur; cbn [split_aux].
  - cbn [join]. rewrite app_nil_r. reflexivity.
  - destruct (c =? sep) eqn:E.
    + apply N.eqb_eq in E. subst c.
      destruct (split_aux_cons sep [] s) as [x [l Hx]].
      pose proof (IH []) as IH0. rewrite Hx in *.
      change (join sep (rev cur :: x :: l)) with (rev cur ++ sep :: join sep (x :: l)).
      rewrite IH0. reflexivity.
    + rewrite IH. cbn [rev]. rewrite <- app_assoc. reflexivity.
Qed.

(** The pieces of [split], joined by the separator, give the text back. *)
Lemma split_join (sep : N) (s : pystr) : join sep (split sep s) = s.
Proof. apply (split_aux_join sep [] s). Qed.

Lemma split_aux_no_sep (sep : N) (cur s : pystr) :
  ~ In sep cur -> Forall (fun p => ~ In sep p) (split_aux sep cur s).
Proof.
  revert cur. induction s as [|c s IH]; intros cur Hcur; simpl.
  - constructor; [|constructor]. intros Hin. apply Hcur, in_rev, Hin.
  - destruct (c =? sep) eqn:E.
    + constructor; [intros Hin; apply Hcur, in_rev, Hin|].
      apply IH. intros [].
    + apply IH. apply N.eqb_neq in E. intros [Hc | Hin]; [congruence | auto].
Qed.

(** No piece of [split] holds the separator. *)
Lemma split_no_sep (sep : N) (s : pystr) :
  Forall (fun p => ~ In sep p) (split sep s).
Proof. apply split_aux_no_sep. intros []. Qed.

Section GeneratorAnswers.

Variable json_loads : pystr -> exc + pyval.

(** C9. Whatever the parsed object has under ["Respuestas"], the
    generator returns a question record: a string is split at its commas
    and every piece stripped (so ["A, B, C, D"] gives the four letters),
    an array is kept, and anything else, or no such key, gives the empty
    list. *)
Theorem generar_pregunta_normaliza_respuestas (raw : pystr) (o : pydict) :
  json_loads (limpiar (strip raw)) = inr (PDict o) ->
  exists q,
    generar_pregunta json_loads (ClientReturns (Some raw)) = Return q /\
    dom q = QUESTION_KEYS /\
    (forall s, o !! J_RESPUESTAS = Some (PStr s) ->
       q !! K_RESPUESTAS
         = Some (PList (map (fun r => PStr (strip r)) (split COMMA s)))) /\
    (o !! J_RESPUESTAS = Some (PStr (py "A, B, C, D")) ->
       q !! K_RESPUESTAS
         = Some (PList [PStr (py "A"); PStr (py "B"); PStr (py "C"); PStr (py "D")])) /\
    (forall l, o !! J_RESPUESTAS = Some (PList l) ->
       q !! K_RESPUESTAS = Some (PList l)) /\
    (forall v, o !! J_RESPUESTAS = Some v ->
       (forall s, v <> PStr s) -> (forall l, v <> PList l) ->
       q !! K_RESPUESTAS = Some (PList [])) /\
    (o !! J_RESPUESTAS = None -> q !! K_RESPUESTAS = Some (PList [])).
Proof.
  intros H. exists (armar_pregunta o).
  destruct (armar_pregunta_lookups o) as [_ [_ [H3 _]]].
  split; [rewrite generar_pregunta_cases, try_cases, H; reflexivity|].
  split; [apply armar_pregunta_dom|].
  rewrite H3. unfold dict_get.
  split; [intros s ->; reflexivity|].
  split; [intros ->; reflexivity|].
  split; [intros l ->; reflexivity|].
  split; [|intros ->; reflexivity].
  intros v -> Hs Hl. destruct v; try reflexivity.
  - exfalso. eapply Hs. reflexivity.
  - exfalso. eapply Hl. reflexivity.
Qed.

End GeneratorAnswers.

(** A response with the answers joined in one string. *)
Lemma generar_pregunta_normaliza_respuestas_witness :
  exists q,
    generar_pregunta json_loads_ref (ClientReturns (Some DEMO_JOINED)) = Return q /\
    q !! K_RESPUESTAS
      = Some (PList [PStr (py "A"); PStr (py "B"); PStr (py "C"); PStr (py "D")]).
Proof.
  assert (H : json_loads_ref (limpiar (strip DEMO_JOINED)) = inr (PDict DEMO_JOINED_PARSED))
    by (vm_compute; reflexivity).
  destruct (generar_pregunta_normaliza_respuestas json_loads_ref
              DEMO_JOINED DEMO_JOINED_PARSED H)
    as [q [Hq [_ [_ [Habcd _]]]]].
  exists q. split; [exact Hq|]. apply Habcd. reflexivity.
Defined.

(** ** The queue *)

Lemma put_spec (item : pydict) (q : Queue.t) :
  Queue.put item q =
  if Queue.full q then None
  else Some (Queue.mk (Queue.maxsize q) (Queue.items q ++ [item])).
Proof. reflexivity. Qed.

Lemma full_iff (q : Queue.t) :
  Queue.full q = true <->
  (0 < Queue.maxsize q /\ Queue.maxsize q <= Queue.qsize q)%nat.
Proof.
  unfold Queue.full. rewrite andb_true_iff, Nat.ltb_lt, Nat.leb_le. reflexivity.
Qed.

Lemma put_room (item : pydict) (q : Queue.t) :
  (Queue.qsize q < Queue.maxsize q)%nat ->
  Queue.put item q = Some (Queue.mk (Queue.maxsize q) (Queue.items q ++ [item])).
Proof.
  intros H. rewrite put_spec.
  destruct (Queue.full q) eqn:Hf; [|reflexivity].
  apply full_iff in Hf. lia.
Qed.

Lemma put_full (item : pydict) (q : Queue.t) :
  (0 < Queue.maxsize q)%nat -> Queue.qsize q = Queue.maxsize q ->
  Queue.put item q = None.
Proof.
  intros H0 H. rewrite put_spec.
  destruct (Queue.full q) eqn:Hf; [reflexivity|].
  assert (Queue.full q = true) by (apply full_iff; lia). congruence.
Qed.

Lemma apply_op_inv (q : Queue.t) (op : cache_op) :
  (0 < Queue.maxsize q)%nat -> (Queue.qsize q <= Queue.maxsize q)%nat ->
  Queue.maxsize (apply_op q op) = Queue.maxsize q /\
  (Queue.qsize (apply_op q op) <= Queue.maxsize q)%nat.
Proof.
  intros H0 Hle. destruct op as [item|]; unfold apply_op.
  - rewrite put_spec. destruct (Queue.full q) eqn:Hf; simpl; [auto|].
    split; [reflexivity|]. unfold Queue.qsize in *. simpl.
    rewrite length_app. simpl.
    assert (Hn : ~ (0 < Queue.maxsize q /\ Queue.maxsize q <= Queue.qsize q)%nat).
    { rewrite <- full_iff. congruence. }
    unfold Queue.qsize in Hn. lia.
  - unfold Queue.get. destruct (Queue.items q) as [|x r] eqn:Hi; simpl; [auto|].
    split; [reflexivity|]. unfold Queue.qsize in *. rewrite Hi in Hle. simpl in *. lia.
Qed.

Lemma run_ops_inv (ops : list cache_op) (q : Queue.t) :
  (0 < Queue.maxsize q)%nat -> (Queue.qsize q <= Queue.maxsize q)%nat ->
  Queue.maxsize (run_ops ops q) = Queue.maxsize q /\
  (Queue.qsize (run_ops ops q) <= Queue.maxsize q)%nat.
Proof.
  revert q. induction ops as [|op ops IH]; intros q H0 Hle; simpl; [auto|].
  destruct (apply_op_inv q op H0 Hle) as [Hm Hs].
  destruct (IH (apply_op q op)) as [Hm' Hs']; [lia | lia |].
  split; [congruence | lia].
Qed.

Lemma run_ops_app (ops1 ops2 : list cache_op) (q : Queue.t) :
  run_ops (ops1 ++ ops2) q = run_ops ops2 (run_ops ops1 q).
Proof. apply fold_left_app. Qed.

Lemma run_ops_pregunta_cache (ops : list cache_op) :
  Queue.maxsize (run_ops ops pregunta_cache) = CACHE_SIZE /\
  (Queue.qsize (run_ops ops pregunta_cache) <= CACHE_SIZE)%nat.
Proof.
  apply (run_ops_inv ops pregunta_cache);
    unfold pregunta_cache, Queue.create, Queue.qsize, CACHE_SIZE; simpl; lia.
Qed.

(** ** The process *)

Lemma get_spec (q : Queue.t) :
  Queue.get q =
  match Queue.items q with
  | [] => None
  | item :: rest => Some (item, Queue.mk (Queue.maxsize q) rest)
  end.
Proof. reflexivity. Qed.

Lemma get_some (q q' : Queue.t) (d : pydict) :
  Queue.get q = Some (d, q') ->
  Queue.items q = d :: Queue.items q' /\ Queue.maxsize q' = Queue.maxsize q.
Proof.
  rewrite get_spec. destruct (Queue.items q) as [|x r]; [discriminate|].
  intros [= -> <-]. split; reflexivity.
Qed.

Lemma es_pregunta_props (d : pydict) :
  es_pregunta d ->
  dom d = QUESTION_KEYS /\ (K_ERROR ∉ dom d) /\
  (exists l, d !! K_RESPUESTAS = Some (PList l)) /\
  is_Some (d !! K_EXPLICACION).
Proof.
  intros [o ->]. destruct (armar_pregunta_lookups o) as [_ [_ [H3 [_ H5]]]].
  split; [apply armar_pregunta_dom|].
  split; [rewrite armar_pregunta_dom; exact question_keys_no_error|].
  split; [|rewrite H5; eauto].
  rewrite H3. unfold normalizar_respuestas.
  destruct (dict_get o J_RESPUESTAS); eauto.
Qed.

Section ProcessProps.

Variable json_loads : pystr -> exc + pyval.

(** What the generator returns is a question record or the error
    dictionary, and the worker's test tells them apart. *)
Lemma generar_returns (o : client_outcome) (p : pydict) :
  generar_pregunta json_loads o = Return p ->
  (es_pregunta p /\ es_valida (PDict p) = true) \/
  ((exists e t, p = error_record e t) /\ es_valida (PDict p) = false).
Proof.
  destruct o as [e|t]; [discriminate|].
  rewrite generar_pregunta_cases.
  destruct (generar_pregunta_try json_loads t) as [e|q] eqn:Ht; intros [= <-].
  - right. split; [eauto | apply es_valida_error].
  - left. destruct (try_returns_pregunta _ _ _ Ht) as [ob ->].
    split; [exists ob; reflexivity | apply es_valida_armar].
Qed.

Lemma generar_raises (o : client_outcome) (e : exc) :
  generar_pregunta json_loads o = Raise e <-> o = ClientRaises e.
Proof.
  split.
  - destruct o as [e'|t]; [intros [= ->]; reflexivity|].
    rewrite generar_pregunta_cases.
    destruct (generar_pregunta_try json_loads t); discriminate.
  - intros ->. reflexivity.
Qed.

(** On the queue, a call of the accessor is a [get]. *)
Lemma obtener_cache (o : client_outcome) (q : Queue.t) :
  snd (obtener_pregunta_cache json_loads o q) = apply_op q OpGet.
Proof.
  unfold obtener_pregunta_cache, apply_op.
  destruct (Queue.get q) as [[d q']|]; reflexivity.
Qed.

Lemma inv_init : inv init.
Proof.
  unfold inv, init. simpl.
  split; [reflexivity|]. split; [constructor|].
  split; [unfold Queue.qsize, CACHE_MIN; simpl; lia | exact I].
Qed.

Lemma inv_step (st st' : state) (ev : event) :
  inv st -> step json_loads st ev st' -> inv st'.
Proof.
  intros Hinv Hstep.
  destruct Hstep as [o pc q pc' q' Hw | o pc q r q' Ho];
    unfold inv in *; cbn [worker cache] in *;
    destruct Hinv as [Hm [Hall [Hle Hpc]]].
  - destruct pc as [| |p|n]; cbn [worker_step] in Hw.
    + destruct (Nat.ltb _ _) eqn:Hlt; injection Hw as <- <-;
        repeat split; auto. apply Nat.ltb_lt. exact Hlt.
    + destruct (generar_pregunta json_loads o) as [p|e] eqn:Hg.
      * destruct (generar_returns o p Hg) as [[Hp Hv] | [_ Hv]];
          rewrite Hv in Hw; injection Hw as <- <-; repeat split; auto.
      * injection Hw as <- <-. repeat split; auto.
    + destruct Hpc as [Hp Hlt].
      rewrite put_room in Hw by (rewrite Hm; unfold CACHE_SIZE, CACHE_MIN in *; lia).
      injection Hw as <- <-.
      unfold Queue.qsize in *. cbn [Queue.items Queue.maxsize].
      split; [exact Hm|]. split; [|split; [|exact I]].
      * apply Forall_app. split; [exact Hall | constructor; [exact Hp | constructor]].
      * rewrite length_app. simpl. lia.
    + injection Hw as <- <-. repeat split; auto.
  - assert (Hq' : q' = apply_op q OpGet).
    { rewrite <- (obtener_cache o q), Ho. reflexivity. }
    unfold apply_op in Hq'.
    destruct (Queue.get q) as [[d q0]|] eqn:Hget; simpl in Hq'; subst q'.
    + destruct (get_some _ _ _ Hget) as [Hi Hmq].
      assert (Hlen : S (Queue.qsize q0) = Queue.qsize q).
      { unfold Queue.qsize. rewrite Hi. reflexivity. }
      rewrite Hi in Hall. inversion Hall as [|? ? _ Hall']; subst.
      split; [congruence|]. split; [exact Hall'|]. split; [lia|].
      destruct pc; auto; [lia | destruct Hpc; split; [assumption | lia]].
    + repeat split; auto.
Qed.

Lemma reachable_inv (st : state) : reachable json_loads st -> inv st.
Proof.
  induction 1 as [|st ev st' _ IH Hstep]; [exact inv_init|].
  exact (inv_step st st' ev IH Hstep).
Qed.

(** In the process the cache goes through [put] and [get] calls only. *)
Lemma reachable_ops (st : state) :
  reachable json_loads st -> exists ops, cache st = run_ops ops pregunta_cache.
Proof.
  induction 1 as [|st ev st' Hr [ops IH] Hstep].
  - exists []. reflexivity.
  - pose proof (reachable_inv st Hr) as [Hm [_ [Hle Hpc]]].
    destruct Hstep as [o pc q pc' q' Hw | o pc q r q' Ho]; cbn [worker cache] in *.
    + destruct pc as [| |p|n]; cbn [worker_step] in Hw.
      * exists ops. destruct (Nat.ltb _ _); injection Hw as _ <-; exact IH.
      * exists ops. destruct (generar_pregunta json_loads o) as [p|e].
        { destruct (es_valida _); injection Hw as _ <-; exact IH. }
        injection Hw as _ <-. exact IH.
      * exists (ops ++ [OpPut p]). rewrite run_ops_app, <- IH. simpl.
        destruct (Queue.put p q); [|discriminate].
        injection Hw as _ <-. reflexivity.
      * exists ops. injection Hw as _ <-. exact IH.
    + exists (ops ++ [OpGet]). rewrite run_ops_app, <- IH.
      change (run_ops [OpGet] q) with (apply_op q OpGet).
      rewrite <- (obtener_cache o q), Ho. reflexivity.
Qed.

(** X7. In the process the cache never goes beyond the watermark of
    [CACHE_MIN] = 100 records, half of its capacity: the worker is the
    one producer and puts a record only after it has seen less than
    [CACHE_MIN]. *)
Lemma reachable_below_watermark (st : state) :
  reachable json_loads st -> (Queue.qsize (cache st) <= CACHE_MIN)%nat.
Proof. intros Hr. apply (reachable_inv st Hr). Qed.

(** The body of the loop and its cut into actions agree. *)
Lemma worker_run_iteracion (o : client_outcome) (q : Queue.t) :
  worker_run json_loads 3 o WCheck q = precargar_iteracion json_loads o q.
Proof.
  unfold precargar_iteracion. cbn [worker_run worker_step].
  destruct (Nat.ltb _ _); [|reflexivity]. cbn [worker_step].
  destruct (generar_pregunta json_loads o) as [p|e]; [|reflexivity].
  destruct (es_valida (PDict p)); [|reflexivity]. cbn [worker_step].
  destruct (Queue.put p q); reflexivity.
Qed.

(** The worker is never kept waiting in [put], and has a next action
    whatever the client does. *)
Lemma worker_progress (st : state) (o : client_outcome) :
  reachable json_loads st ->
  exists pc' q', worker_step json_loads o (worker st) (cache st) = Some (pc', q').
Proof.
  intros Hr. destruct (reachable_inv st Hr) as [Hm [_ [_ Hpc]]].
  destruct st as [pc q]; cbn [worker cache] in *. destruct pc as [| |p|n]; cbn [worker_step].
  - destruct (Nat.ltb _ _); eauto.
  - destruct (generar_pregunta json_loads o) as [p|e]; [|eauto].
    destruct (es_valida _); eauto.
  - destruct Hpc as [_ Hlt].
    rewrite put_room by (rewrite Hm; unfold CACHE_SIZE, CACHE_MIN in *; lia).
    eauto.
  - eauto.
Qed.

End ProcessProps.

(** ** The cache bound *)

(** C1. Whatever [put] and [get] calls are made on it, in whatever
    order, [pregunta_cache] never holds more than [CACHE_SIZE] = 200
    records; on the full cache [put] adds nothing (its caller waits);
    and so every state of the process, the worker's enqueues and the
    handlers' dequeues interleaved, has at most 200 records cached. *)
Theorem pregunta_cache_bounded (json_loads : pystr -> exc + pyval) :
  CACHE_SIZE = 200%nat /\
  (forall ops, (Queue.qsize (run_ops ops pregunta_cache) <= CACHE_SIZE)%nat) /\
  (forall ops item,
     Queue.qsize (run_ops ops pregunta_cache) = CACHE_SIZE ->
     Queue.put item (run_ops ops pregunta_cache) = None /\
     apply_op (run_ops ops pregunta_cache) (OpPut item)
       = run_ops ops pregunta_cache) /\
  (forall st, reachable json_loads st ->
     (Queue.qsize (cache st) <= CACHE_SIZE)%nat).
Proof.
  split; [reflexivity|]. split; [|split].
  - intros ops. apply run_ops_pregunta_cache.
  - intros ops item Hfull.
    destruct (run_ops_pregunta_cache ops) as [Hm _].
    assert (Hput : Queue.put item (run_ops ops pregunta_cache) = None).
    { apply put_full; [rewrite Hm; unfold CACHE_SIZE; lia | congruence]. }
    split; [exact Hput|]. unfold apply_op. rewrite Hput. reflexivity.
  - intros st Hr. destruct (reachable_ops json_loads st Hr) as [ops ->].
    apply run_ops_pregunta_cache.
Qed.

(** Two hundred [put]s fill the cache; one more is kept waiting. *)
Lemma pregunta_cache_bounded_witness :
  Queue.qsize (run_ops (repeat (OpPut ∅) 200) pregunta_cache) = CACHE_SIZE /\
  Queue.put ∅ (run_ops (repeat (OpPut ∅) 200) pregunta_cache) = None /\
  (Queue.qsize (cache init) <= CACHE_SIZE)%nat.
Proof.
  assert (Hfull : Queue.qsize (run_ops (repeat (OpPut ∅) 200) pregunta_cache) = CACHE_SIZE)
    by (vm_compute; reflexivity).
  destruct (pregunta_cache_bounded json_loads_ref) as [_ [_ [Hput Hreach]]].
  split; [exact Hfull|]. split.
  - exact (proj1 (Hput (repeat (OpPut ∅) 200) ∅ Hfull)).
  - apply Hreach. apply reachable_init.
Defined.

(** ** The refill worker *)

Section WorkerProps.

Variable json_loads : pystr -> exc + pyval.

Lemma iteracion_return (o : client_outcome) (q : Queue.t) (p : pydict) :
  Queue.maxsize q = CACHE_SIZE -> (Queue.qsize q < CACHE_MIN)%nat ->
  generar_pregunta json_loads o = Return p ->
  precargar_iteracion json_loads o q =
  Some (1%nat, if es_valida (PDict p)
               then Queue.mk (Queue.maxsize q) (Queue.items q ++ [p]) else q).
Proof.
  intros Hm Hlt Hg. unfold precargar_iteracion.
  apply Nat.ltb_lt in Hlt as Hb. rewrite Hb, Hg.
  destruct (es_valida (PDict p)); [|reflexivity].
  rewrite put_room by (rewrite Hm; unfold CACHE_SIZE, CACHE_MIN in *; lia).
  reflexivity.
Qed.

Lemma iteracion_raise (o : client_outcome) (q : Queue.t) (e : exc) :
  (Queue.qsize q < CACHE_MIN)%nat ->
  generar_pregunta json_loads o = Raise e ->
  precargar_iteracion json_loads o q = Some (pausa_error e, q).
Proof.
  intros Hlt Hg. unfold precargar_iteracion.
  apply Nat.ltb_lt in Hlt. rewrite Hlt, Hg. reflexivity.
Qed.

Lemma iteracion_idle (o : client_outcome) (q : Queue.t) :
  (CACHE_MIN <= Queue.qsize q)%nat ->
  precargar_iteracion json_loads o q = Some (2%nat, q).
Proof.
  intros Hge. unfold precargar_iteracion.
  apply Nat.ltb_ge in Hge. rewrite Hge. reflexivity.
Qed.

Lemma queue_grown_ne (q : Queue.t) (p : pydict) :
  Queue.mk (Queue.maxsize q) (Queue.items q ++ [p]) <> q.
Proof.
  intros H. apply (f_equal Queue.qsize) in H. unfold Queue.qsize in H.
  simpl in H. rewrite length_app in H. simpl in H. lia.
Qed.

Lemma es_valida_keys (p : pydict) :
  es_valida (PDict p) = true <-> K_PREGUNTA ∈ dom p /\ K_CODIGO ∈ dom p.
Proof.
  unfold es_valida. rewrite andb_true_iff, !dict_has_dom. reflexivity.
Qed.

Lemma encolada_iff (o : client_outcome) (q : Queue.t) (p : pydict) :
  Queue.maxsize q = CACHE_SIZE -> (Queue.qsize q < CACHE_MIN)%nat ->
  generar_pregunta json_loads o = Return p ->
  precargar_iteracion json_loads o q
    = Some (1%nat, Queue.mk (Queue.maxsize q) (Queue.items q ++ [p]))
  <-> es_valida (PDict p) = true.
Proof.
  intros Hm Hlt Hg. rewrite (iteracion_return o q p Hm Hlt Hg).
  destruct (es_valida (PDict p)); split; try reflexivity; try discriminate.
  intros [= H]. symmetry in H. exfalso. exact (queue_grown_ne q p H).
Qed.

(** C4, as amended. In a pass of the worker that generates, the result
    is put in the cache if and only if it is a dictionary with the keys
    [pregunta] and [codigo], whatever their values; that is so for every
    question record and for no error dictionary. Hence every record of
    every reachable cache is a question record, without the key
    [error]. *)
Theorem precargar_enqueues_question_records :
  (forall o q p,
     Queue.maxsize q = CACHE_SIZE -> (Queue.qsize q < CACHE_MIN)%nat ->
     generar_pregunta json_loads o = Return p ->
     let encolada :=
       precargar_iteracion json_loads o q
       = Some (1%nat, Queue.mk (Queue.maxsize q) (Queue.items q ++ [p])) in
     (encolada <-> K_PREGUNTA ∈ dom p /\ K_CODIGO ∈ dom p) /\
     (encolada <-> es_pregunta p) /\
     (~ encolada <-> exists e t, p = error_record e t) /\
     (~ encolada -> precargar_iteracion json_loads o q = Some (1%nat, q))) /\
  (forall st, reachable json_loads st ->
     Forall (fun d => es_pregunta d /\ K_ERROR ∉ dom d) (Queue.items (cache st))).
Proof.
  split.
  - intros o q p Hm Hlt Hg encolada.
    pose proof (encolada_iff o q p Hm Hlt Hg) as Hen. fold encolada in Hen.
    pose proof (iteracion_return o q p Hm Hlt Hg) as Hit.
    split; [rewrite Hen; apply es_valida_keys|].
    destruct (generar_returns json_loads o p Hg) as [[Hp Hv] | [[e [t ->]] Hv]].
    + split; [rewrite Hen; split; auto|]. split.
      * split; [intros Hn; exfalso; apply Hn, Hen, Hv|].
        intros [e [t ->]]. rewrite es_valida_error in Hv. discriminate.
      * intros Hn. exfalso. apply Hn, Hen, Hv.
    + assert (Hn : ~ encolada) by (rewrite Hen, Hv; discriminate).
      split; [|split].
      * split; [intros He; exfalso; exact (Hn He)|].
        intros [ob Hob]. rewrite Hob, es_valida_armar in Hv. discriminate.
      * split; eauto.
      * intros _. rewrite Hit, Hv. reflexivity.
  - intros st Hr. destruct (reachable_inv json_loads st Hr) as [_ [Hall _]].
    eapply List.Forall_impl; [|exact Hall].
    intros d Hd. split; [exact Hd|]. apply (es_pregunta_props d Hd).
Qed.

Lemma pausa_error_cases (e : exc) :
  (str_contains RESOURCE_EXHAUSTED (str_exc e) = true -> pausa_error e = 35%nat) /\
  (str_contains RESOURCE_EXHAUSTED (str_exc e) = false -> pausa_error e = 5%nat).
Proof. unfold pausa_error. split; intros ->; reflexivity. Qed.

(** A pass of the worker alone ends, in one of the four pauses. *)
Lemma iteracion_total (o : client_outcome) (q : Queue.t) :
  Queue.maxsize q = CACHE_SIZE ->
  exists pausa q',
    precargar_iteracion json_loads o q = Some (pausa, q') /\
    Queue.maxsize q' = CACHE_SIZE /\ es_pausa pausa.
Proof.
  intros Hm. unfold es_pausa.
  destruct (Nat.lt_ge_cases (Queue.qsize q) CACHE_MIN) as [Hlt | Hge].
  - destruct (generar_pregunta json_loads o) as [p|e] eqn:Hg.
    + rewrite (iteracion_return o q p Hm Hlt Hg).
      eexists _, _. split; [reflexivity|]. split; [|auto].
      destruct (es_valida (PDict p)); exact Hm.
    + rewrite (iteracion_raise o q e Hlt Hg).
      eexists _, _. split; [reflexivity|]. split; [exact Hm|].
      unfold pausa_error. destruct (str_contains _ _); auto.
  - rewrite (iteracion_idle o q Hge). eexists _, _. split; [reflexivity|]. auto.
Qed.

Lemma precargar_preguntas_total (n : nat) (cliente : nat -> client_outcome)
  (q : Queue.t) :
  Queue.maxsize q = CACHE_SIZE ->
  exists pausas q',
    precargar_preguntas json_loads n cliente q = Some (pausas, q') /\
    length pausas = n /\ Forall es_pausa pausas.
Proof.
  revert cliente q. induction n as [|n IH]; intros cliente q Hm; cbn [precargar_preguntas].
  - exists [], q. repeat split. constructor.
  - destruct (iteracion_total (cliente O) q Hm) as [pausa [q' [Hit [Hm' Hp]]]].
    rewrite Hit.
    destruct (IH (fun i => cliente (S i)) q' Hm') as [pausas [q'' [Hrun [Hlen Hall]]]].
    rewrite Hrun. exists (pausa :: pausas), q''.
    split; [reflexivity|]. split; [simpl; congruence | constructor; assumption].
Qed.

(** C7. A pass of the worker pauses 2 seconds when it finds
    [CACHE_MIN] = 100 records or more; below that, 1 second when
    [generar_pregunta] returns, be the result put in the cache or not,
    35 seconds when it raises with the quota marker in the message and
    5 seconds when it raises without it. The loop goes on whatever
    happens: any number of passes is completed, and in the process the
    worker always has a next action. *)
Theorem precargar_pausas :
  (forall o q, Queue.maxsize q = CACHE_SIZE ->
     ((CACHE_MIN <= Queue.qsize q)%nat ->
        precargar_iteracion json_loads o q = Some (2%nat, q)) /\
     ((Queue.qsize q < CACHE_MIN)%nat ->
        (forall p, generar_pregunta json_loads o = Return p ->
           exists q', precargar_iteracion json_loads o q = Some (1%nat, q')) /\
        (forall e, generar_pregunta json_loads o = Raise e ->
           str_contains RESOURCE_EXHAUSTED (str_exc e) = true ->
           precargar_iteracion json_loads o q = Some (35%nat, q)) /\
        (forall e, generar_pregunta json_loads o = Raise e ->
           str_contains RESOURCE_EXHAUSTED (str_exc e) = false ->
           precargar_iteracion json_loads o q = Some (5%nat, q)))) /\
  (forall n cliente, exists pausas q',
     precargar_preguntas json_loads n cliente pregunta_cache = Some (pausas, q') /\
     length pausas = n /\ Forall es_pausa pausas) /\
  (forall st o, reachable json_loads st ->
     exists pc' q', worker_step json_loads o (worker st) (cache st) = Some (pc', q')).
Proof.
  split; [|split].
  - intros o q Hm. split; [apply iteracion_idle|].
    intros Hlt. split; [|split].
    + intros p Hg. rewrite (iteracion_return o q p Hm Hlt Hg). eauto.
    + intros e Hg He. rewrite (iteracion_raise o q e Hlt Hg).
      rewrite (proj1 (pausa_error_cases e) He). reflexivity.
    + intros e Hg He. rewrite (iteracion_raise o q e Hlt Hg).
      rewrite (proj2 (pausa_error_cases e) He). reflexivity.
  - intros n cliente. apply precargar_preguntas_total. reflexivity.
  - intros st o Hr. apply worker_progress. exact Hr.
Qed.

End WorkerProps.

Lemma demo_object_generated :
  generar_pregunta json_loads_ref (ClientReturns (Some DEMO_OBJECT)) = Return DEMO_RECORD.
Proof. vm_compute. reflexivity. Qed.

(** The five-key object, generated on the empty cache, is put in it. *)
Lemma precargar_enqueues_question_records_witness :
  precargar_iteracion json_loads_ref (ClientReturns (Some DEMO_OBJECT)) pregunta_cache
  = Some (1%nat, Queue.mk CACHE_SIZE [DEMO_RECORD]).
Proof.
  destruct (precargar_enqueues_question_records json_loads_ref) as [Hit _].
  destruct (Hit (ClientReturns (Some DEMO_OBJECT)) pregunta_cache DEMO_RECORD)
    as [_ [Hen _]].
  - reflexivity.
  - unfold Queue.qsize, CACHE_MIN. simpl. lia.
  - exact demo_object_generated.
  - apply Hen. exists DEMO_PARSED. reflexivity.
Defined.

(** C4, as the claim has it, fails on the response [{}]: the record
    built from it has [None] for the question and for the code, and the
    worker puts it in the cache. *)
Lemma precargar_enqueues_question_records_counterexample :
  generar_pregunta json_loads_ref (ClientReturns (Some DEMO_EMPTY))
    = Return (armar_pregunta ∅) /\
  armar_pregunta ∅ !! K_PREGUNTA = Some PNone /\
  armar_pregunta ∅ !! K_CODIGO = Some PNone /\
  precargar_iteracion json_loads_ref (ClientReturns (Some DEMO_EMPTY)) pregunta_cache
    = Some (1%nat, Queue.mk CACHE_SIZE [armar_pregunta ∅]).
Proof.
  split; [vm_compute; reflexivity|].
  destruct (armar_pregunta_lookups ∅) as [H1 [H2 _]].
  split; [rewrite H1; reflexivity|].
  split; [rewrite H2; reflexivity|].
  vm_compute. reflexivity.
Qed.

(** The four pauses, each on an input of its case. *)
Lemma precargar_pausas_witness :
  precargar_iteracion json_loads_ref (ClientReturns (Some DEMO_OBJECT)) CACHE_AT_MIN
    = Some (2%nat, CACHE_AT_MIN) /\
  (exists q', precargar_iteracion json_loads_ref
                (ClientReturns (Some DEMO_OBJECT)) pregunta_cache = Some (1%nat, q')) /\
  precargar_iteracion json_loads_ref (ClientRaises QUOTA_ERROR) pregunta_cache
    = Some (35%nat, pregunta_cache) /\
  precargar_iteracion json_loads_ref (ClientRaises SERVER_ERROR) pregunta_cache
    = Some (5%nat, pregunta_cache).
Proof.
  destruct (precargar_pausas json_loads_ref) as [Hit _].
  assert (Hlt : (Queue.qsize pregunta_cache < CACHE_MIN)%nat)
    by (unfold Queue.qsize, CACHE_MIN; simpl; lia).
  split; [|split; [|split]].
  - apply (Hit _ CACHE_AT_MIN eq_refl).
    unfold Queue.qsize, CACHE_AT_MIN, CACHE_MIN. cbn [Queue.items].
    rewrite repeat_length. lia.
  - destruct (Hit (ClientReturns (Some DEMO_OBJECT)) pregunta_cache eq_refl) as [_ H].
    destruct (H Hlt) as [Hret _]. apply (Hret DEMO_RECORD demo_object_generated).
  - destruct (Hit (ClientRaises QUOTA_ERROR) pregunta_cache eq_refl) as [_ H].
    destruct (H Hlt) as [_ [Hq _]]. apply (Hq QUOTA_ERROR eq_refl).
    vm_compute. reflexivity.
  - destruct (Hit (ClientRaises SERVER_ERROR) pregunta_cache eq_refl) as [_ H].
    destruct (H Hlt) as [_ [_ Hs]]. apply (Hs SERVER_ERROR eq_refl).
    vm_compute. reflexivity.
Defined.

(** With 99 records cached, a pass that generates a record brings the
    cache to 100 and pauses 1 second; the next pass pauses 2 seconds. *)
Example precargar_at_watermark :
  exists q',
    precargar_preguntas json_loads_ref 2 (fun _ => ClientReturns (Some DEMO_OBJECT))
      (Queue.mk CACHE_SIZE (repeat DEMO_RECORD 99)) = Some ([1%nat; 2%nat], q') /\
    Queue.qsize q' = 100%nat.
Proof. eexists. split; vm_compute; reflexivity. Qed.

(** ** The cached records *)

Section CacheProps.

Variable json_loads : pystr -> exc + pyval.

Lemma obtener_hit (o : client_outcome) (q q' : Queue.t) (d : pydict) :
  Queue.get q = Some (d, q') ->
  obtener_pregunta_cache json_loads o q = (Return d, q').
Proof. intros H. unfold obtener_pregunta_cache. rewrite H. reflexivity. Qed.

(** C10, as amended. Every record of every reachable cache, and so
    every record a handler takes from it, was built from a parsed
    object: it has exactly the five keys, a list under [respuestas] and
    a value under [explicacion]. That value is the empty string when the
    object has no ["Explicacion"] and the object's own value otherwise,
    [None] included; [pregunta], [codigo] and [respuesta_correcta] are
    [None] when the object lacks their keys. *)
Theorem cache_record_shape :
  (forall st d, reachable json_loads st -> In d (Queue.items (cache st)) ->
     es_pregunta d /\ dom d = QUESTION_KEYS /\
     (exists l, d !! K_RESPUESTAS = Some (PList l)) /\
     is_Some (d !! K_EXPLICACION)) /\
  (forall st d q' o, reachable json_loads st ->
     Queue.get (cache st) = Some (d, q') ->
     obtener_pregunta_cache json_loads o (cache st) = (Return d, q') /\
     In d (Queue.items (cache st))) /\
  (forall ob,
     maps_field ob J_EXPLICACION (armar_pregunta ob) K_EXPLICACION (PStr []) /\
     maps_field ob J_PREGUNTA (armar_pregunta ob) K_PREGUNTA PNone /\
     maps_field ob J_CODIGO (armar_pregunta ob) K_CODIGO PNone /\
     maps_field ob J_RESPUESTA_CORRECTA (armar_pregunta ob) K_RESPUESTA_CORRECTA PNone).
Proof.
  split; [|split].
  - intros st d Hr Hin.
    destruct (reachable_inv json_loads st Hr) as [_ [Hall _]].
    rewrite List.Forall_forall in Hall. pose proof (Hall d Hin) as Hd.
    destruct (es_pregunta_props d Hd) as [H1 [_ [H3 H4]]].
    repeat split; assumption.
  - intros st d q' o Hr Hget. split; [apply obtener_hit; exact Hget|].
    destruct (get_some _ _ _ Hget) as [Hi _]. rewrite Hi. left. reflexivity.
  - intros ob. destruct (armar_pregunta_lookups ob) as [H1 [H2 [_ [H4 H5]]]].
    repeat (split; [apply maps_field_get; assumption|]).
    apply maps_field_get; assumption.
Qed.

End CacheProps.

(** The worker's first pass on a given response, action by action. *)
Lemma reachable_first_put (json_loads : pystr -> exc + pyval)
  (o : client_outcome) (p : pydict) :
  generar_pregunta json_loads o = Return p -> es_valida (PDict p) = true ->
  reachable json_loads (State (WSleep 1) (Queue.mk CACHE_SIZE [p])).
Proof.
  intros Hg Hv.
  apply (reachable_step json_loads (State (WPut p) pregunta_cache) EvWorker).
  - apply (reachable_step json_loads (State WGenerar pregunta_cache) EvWorker).
    + apply (reachable_step json_loads init EvWorker); [apply reachable_init|].
      apply (step_worker json_loads o). reflexivity.
    + apply (step_worker json_loads o). cbn [worker_step]. rewrite Hg, Hv. reflexivity.
  - apply (step_worker json_loads o). reflexivity.
Qed.

Lemma demo_null_generated :
  generar_pregunta json_loads_ref (ClientReturns (Some DEMO_NULL)) = Return DEMO_NULL_RECORD.
Proof. vm_compute. reflexivity. Qed.

(** The record of the cache after one pass on the five-key object. *)
Lemma cache_record_shape_witness :
  dom DEMO_RECORD = QUESTION_KEYS /\
  (exists l, DEMO_RECORD !! K_RESPUESTAS = Some (PList l)) /\
  obtener_pregunta_cache json_loads_ref (ClientRaises SERVER_ERROR)
    (Queue.mk CACHE_SIZE [DEMO_RECORD]) = (Return DEMO_RECORD, pregunta_cache).
Proof.
  destruct (cache_record_shape json_loads_ref) as [Hshape [Hget _]].
  assert (Hr : reachable json_loads_ref (State (WSleep 1) (Queue.mk CACHE_SIZE [DEMO_RECORD]))).
  { apply (reachable_first_put json_loads_ref (ClientReturns (Some DEMO_OBJECT))).
    - exact demo_object_generated.
    - apply es_valida_armar. }
  destruct (Hshape _ DEMO_RECORD Hr (or_introl eq_refl)) as [_ [Hdom [Hl _]]].
  split; [exact Hdom|]. split; [exact Hl|].
  exact (proj1 (Hget _ DEMO_RECORD pregunta_cache (ClientRaises SERVER_ERROR) Hr eq_refl)).
Defined.

(** C10, as the claim has it, fails on a response with
    ["Explicacion": null]: the record passes the worker's test, is
    cached, is handed to the next handler, and its [explicacion] is
    [None]. *)
Lemma cache_record_shape_counterexample :
  json_loads_ref DEMO_NULL = inr (PDict DEMO_NULL_PARSED) /\
  reachable json_loads_ref (State (WSleep 1) (Queue.mk CACHE_SIZE [DEMO_NULL_RECORD])) /\
  obtener_pregunta_cache json_loads_ref (ClientRaises SERVER_ERROR)
    (Queue.mk CACHE_SIZE [DEMO_NULL_RECORD]) = (Return DEMO_NULL_RECORD, pregunta_cache) /\
  DEMO_NULL_RECORD !! K_EXPLICACION = Some PNone.
Proof.
  split; [vm_compute; reflexivity|]. split; [|split].
  - apply (reachable_first_put json_loads_ref (ClientReturns (Some DEMO_NULL))).
    + exact demo_null_generated.
    + apply es_valida_armar.
  - reflexivity.
  - destruct (armar_pregunta_lookups DEMO_NULL_PARSED) as [_ [_ [_ [_ H5]]]].
    unfold DEMO_NULL_RECORD. rewrite H5. reflexivity.
Qed.

(** ** obtener_pregunta_cache *)

Lemma SENTINEL_lookups :
  SENTINEL !! K_PREGUNTA = Some (PStr (py "¡Límite de uso alcanzado!")) /\
  SENTINEL !! K_CODIGO = Some (PStr []) /\
  SENTINEL !! K_RESPUESTAS = Some (PList []) /\
  SENTINEL !! K_RESPUESTA_CORRECTA = Some (PStr []) /\
  SENTINEL !! K_EXPLICACION
    = Some (PStr (py "Se ha superado el límite de uso de la API. Por favor, espera un minuto y vuelve a intentarlo.")).
Proof. unfold SENTINEL. repeat split; dict_lookup; reflexivity. Qed.

Section AccessorProps.

Variable json_loads : pystr -> exc + pyval.

(** After a timeout, what the accessor makes of an error dictionary. *)
Lemma obtener_miss_error (o : client_outcome) (q : Queue.t) (e : exc)
  (t : option pystr) :
  Queue.get q = None ->
  generar_pregunta json_loads o = Return (error_record e t) ->
  obtener_pregunta_cache json_loads o q =
  (Return (if str_contains RESOURCE_EXHAUSTED (str_exc e)
           then SENTINEL else error_record e t), q).
Proof.
  intros Hget Hg. unfold obtener_pregunta_cache. rewrite Hget, Hg.
  destruct (error_record_lookups e t) as [He [Hd _]].
  unfold dict_has, dict_get_default. rewrite He, Hd.
  rewrite bool_decide_eq_true_2 by eauto.
  change (default (PStr []) (Some (PStr (str_exc e)))) with (PStr (str_exc e)).
  cbn [py_in]. destruct (str_contains _ _); reflexivity.
Qed.

(** After a timeout, a question record is returned as it is. *)
Lemma obtener_miss_pregunta (o : client_outcome) (q : Queue.t) (p : pydict) :
  Queue.get q = None ->
  generar_pregunta json_loads o = Return p -> es_pregunta p ->
  obtener_pregunta_cache json_loads o q = (Return p, q).
Proof.
  intros Hget Hg Hp. unfold obtener_pregunta_cache. rewrite Hget, Hg.
  destruct (es_pregunta_props p Hp) as [_ [Hne _]].
  apply dict_has_dom_false in Hne. rewrite Hne. reflexivity.
Qed.

(** After a timeout, what the client raises leaves the accessor. *)
Lemma obtener_miss_raises (q : Queue.t) (e : exc) :
  Queue.get q = None ->
  obtener_pregunta_cache json_loads (ClientRaises e) q = (Raise e, q).
Proof.
  intros Hget. unfold obtener_pregunta_cache. rewrite Hget. reflexivity.
Qed.


(** C2, as amended. When the cache has a record the accessor returns
    the oldest one and takes it out. When the [get] times out and the
    client returns a response, the accessor returns normally: the
    question record if the [try] built one, else the fixed record if
    the message of the exception holds the quota marker, else the error
    dictionary itself. *)
Theorem obtener_returns (q : Queue.t) (text : option pystr) :
  (forall o item q', Queue.get q = Some (item, q') ->
     obtener_pregunta_cache json_loads o q = (Return item, q')) /\
  (Queue.get q = None ->
     obtener_pregunta_cache json_loads (ClientReturns text) q =
     (match generar_pregunta_try json_loads text with
      | inr p => Return p
      | inl e => Return (if str_contains RESOURCE_EXHAUSTED (str_exc e)
                         then SENTINEL else error_record e text)
      end, q)).
Proof.
  split.
  - intros o item q' Hget. apply obtener_hit. exact Hget.
  - intros Hget.
    pose proof (generar_pregunta_cases json_loads text) as Hg.
    destruct (generar_pregunta_try json_loads text) as [e|p] eqn:Ht.
    + apply (obtener_miss_error _ q e text Hget Hg).
    + apply (obtener_miss_pregunta _ q p Hget Hg).
      apply (try_returns_pregunta json_loads text p Ht).
Qed.

End AccessorProps.

(** The exceptions that the [try] of the generator can catch with the
    reference loader: none has the quota marker in its message. *)
Lemma try_ref_sin_marca (text : option pystr) (e : exc) :
  generar_pregunta_try json_loads_ref text = inl e ->
  str_contains RESOURCE_EXHAUSTED (str_exc e) = false.
Proof.
  unfold generar_pregunta_try. destruct text as [raw|].
  - unfold json_loads_ref at 1, JsonRef.loads.
    destruct (JsonRef.parse_value _ _) as [[v [|c r]]|].
    + destruct v; intros [= <-]; vm_compute; reflexivity.
    + intros [= <-]. vm_compute. reflexivity.
    + intros [= <-]. vm_compute. reflexivity.
  - intros [= <-]. vm_compute. reflexivity.
Qed.

(** So, with the reference loader, no response of the client makes the
    accessor take the branch of the fixed record: after a timeout it
    returns what the generator returned. *)
Lemma obtener_ref_sin_rama_fija (q : Queue.t) (text : option pystr) :
  Queue.get q = None ->
  obtener_pregunta_cache json_loads_ref (ClientReturns text) q
  = (generar_pregunta json_loads_ref (ClientReturns text), q).
Proof.
  intros Hget.
  rewrite (proj2 (obtener_returns json_loads_ref q text) Hget).
  rewrite generar_pregunta_cases.
  destruct (generar_pregunta_try json_loads_ref text) as [e|p] eqn:Ht; [|reflexivity].
  rewrite (try_ref_sin_marca text e Ht). reflexivity.
Qed.


(** A cache primed with one record gives that record and is left
    empty; the empty cache and a parsed response give its record. *)
Lemma obtener_returns_witness :
  obtener_pregunta_cache json_loads_ref (ClientRaises SERVER_ERROR)
    (Queue.mk CACHE_SIZE [DEMO_PRINT_RECORD])
  = (Return DEMO_PRINT_RECORD, pregunta_cache) /\
  obtener_pregunta_cache json_loads_ref (ClientReturns (Some DEMO_OBJECT)) pregunta_cache
  = (Return DEMO_RECORD, pregunta_cache).
Proof.
  split.
  - apply (proj1 (obtener_returns json_loads_ref
                    (Queue.mk CACHE_SIZE [DEMO_PRINT_RECORD]) None)).
    reflexivity.
  - pose proof (proj2 (obtener_returns json_loads_ref pregunta_cache
                         (Some DEMO_OBJECT)) eq_refl) as H.
    rewrite H. vm_compute. reflexivity.
Defined.

(** C2, as the claim has it, fails on a response that is not JSON: after
    the timeout the accessor returns the error dictionary, keys [error],
    [detalle] and [texto], to its caller. *)
Lemma obtener_returns_counterexample :
  obtener_pregunta_cache json_loads_ref (ClientReturns (Some DEMO_APOLOGY)) pregunta_cache
  = (Return (error_record JsonRef.decode_error (Some DEMO_APOLOGY)), pregunta_cache) /\
  dom (error_record JsonRef.decode_error (Some DEMO_APOLOGY)) = ERROR_KEYS /\
  K_ERROR ∈ dom (error_record JsonRef.decode_error (Some DEMO_APOLOGY)) /\
  K_PREGUNTA ∉ dom (error_record JsonRef.decode_error (Some DEMO_APOLOGY)).
Proof.
  split.
  - rewrite (obtener_miss_error json_loads_ref _ pregunta_cache
               JsonRef.decode_error (Some DEMO_APOLOGY) eq_refl).
    + reflexivity.
    + vm_compute. reflexivity.
  - rewrite error_record_dom. split; [reflexivity|].
    split; [|exact error_keys_no_pregunta].
    unfold ERROR_KEYS. set_solver.
Qed.

(** With the cache empty and the client raising, as it does on a quota
    error, the exception reaches the caller of the accessor. *)
Example obtener_quota_raises :
  obtener_pregunta_cache json_loads_ref (ClientRaises QUOTA_ERROR) pregunta_cache
  = (Raise QUOTA_ERROR, pregunta_cache).
Proof. apply obtener_miss_raises. reflexivity. Qed.

(** ** More on the generator *)

(** X1. What [limpiar] returns is a contiguous part of the text: at
    most ten characters are left out before it and at most three after
    it. *)
Theorem limpiar_substring (text : pystr) :
  exists a b, text = a ++ limpiar text ++ b /\
    (length a <= 10)%nat /\ (length b <= 3)%nat.
Proof.
  assert (Hdrop : forall n (t : pystr), exists a, t = a ++ slice_from n t /\ (length a <= n)%nat).
  { intros n t. exists (take n t). split.
    - unfold slice_from. symmetry. apply take_drop.
    - rewrite length_take. lia. }
  assert (H1 : exists a, text = a ++ sin_fence_json text /\ (length a <= 7)%nat).
  { unfold sin_fence_json. destruct (startswith FENCE_JSON text).
    - apply Hdrop.
    - exists []. split; [reflexivity | simpl; lia]. }
  destruct H1 as [a1 [E1 L1]].
  assert (H2 : exists a, sin_fence_json text = a ++ sin_fence_inicio (sin_fence_json text)
                         /\ (length a <= 3)%nat).
  { unfold sin_fence_inicio. destruct (startswith FENCE (sin_fence_json text)).
    - apply Hdrop.
    - exists []. split; [reflexivity | simpl; lia]. }
  destruct H2 as [a2 [E2 L2]].
  set (t2 := sin_fence_inicio (sin_fence_json text)) in *.
  assert (H3 : exists b, t2 = sin_fence_final t2 ++ b /\ (length b <= 3)%nat).
  { unfold sin_fence_final. destruct (endswith FENCE t2).
    - exists (drop (length t2 - 3) t2). split.
      + unfold slice_to_minus. symmetry. apply take_drop.
      + rewrite length_drop. lia.
    - exists []. split; [rewrite app_nil_r; reflexivity | simpl; lia]. }
  destruct H3 as [b [E3 L3]].
  exists (a1 ++ a2), b. split; [|split; [rewrite length_app; lia | exact L3]].
  unfold limpiar. fold t2. rewrite <- app_assoc, <- E3, <- E2. exact E1.
Qed.

Lemma drop_while_keep (f : N -> bool) (u : pystr) (c : N) (v : pystr) :
  f c = false -> drop_while f (u ++ c :: v) = drop_while f u ++ c :: v.
Proof.
  intros Hc. induction u as [|a u IH]; simpl.
  - rewrite Hc. reflexivity.
  - destruct (f a); [exact IH | reflexivity].
Qed.

(** With a character outside of the class at its head and another one
    further on, a text keeps everything up to the second. *)
Lemma strip_with_keep (f : N -> bool) (a : N) (p : pystr) (c : N) (rest : pystr) :
  f a = false -> f c = false ->
  strip_with f ((a :: p) ++ c :: rest)
  = (a :: p) ++ c :: rev (drop_while f (rev rest)).
Proof.
  intros Ha Hc. unfold strip_with.
  change ((a :: p) ++ c :: rest) with (a :: (p ++ c :: rest)).
  rewrite (drop_while_id f a _ Ha).
  change (a :: (p ++ c :: rest)) with ((a :: p) ++ c :: rest).
  rewrite rev_app_distr. cbn [rev]. rewrite <- app_assoc. cbn [app].
  rewrite (drop_while_keep f (rev rest) c _ Hc).
  rewrite rev_app_distr. cbn [rev]. rewrite rev_app_distr, rev_involutive.
  cbn [rev app]. rewrite <- !app_assoc. reflexivity.
Qed.

Lemma sin_fence_final_head (c : N) (r : pystr) :
  sin_fence_final (c :: r) = [] \/ exists r', sin_fence_final (c :: r) = c :: r'.
Proof.
  unfold sin_fence_final. destruct (endswith FENCE (c :: r)); [|eauto].
  unfold slice_to_minus. destruct (length (c :: r) - 3)%nat; [left | right; eexists];
    reflexivity.
Qed.

Lemma sin_fence_final_none (r : pystr) (c : N) :
  json_last c = true -> sin_fence_final (r ++ [c]) = r ++ [c].
Proof.
  intros Hc. unfold sin_fence_final. change FENCE with ([96; 96] ++ [96]).
  rewrite (endswith_last_ne 96 _ c r (json_last_not_fence c Hc)). reflexivity.
Qed.

Lemma sin_fence_json_none (h : N) (t : pystr) :
  96 <> h -> sin_fence_json (h :: t) = h :: t.
Proof.
  intros Hh. unfold sin_fence_json, FENCE_JSON.
  rewrite (startswith_head_ne 96 _ h t Hh). reflexivity.
Qed.

Lemma sin_fence_json_plain (h : N) (t : pystr) :
  106 <> h -> sin_fence_json (FENCE ++ h :: t) = FENCE ++ h :: t.
Proof.
  intros Hh. unfold sin_fence_json, FENCE_JSON, FENCE. cbn [startswith app].
  apply N.eqb_neq in Hh. rewrite !N.eqb_refl, Hh. reflexivity.
Qed.

Lemma sin_fence_open (opening y : pystr) (h : N) (t : pystr) :
  opening = FENCE_JSON \/ opening = FENCE -> y = h :: t -> json_first h = true ->
  sin_fence_inicio (sin_fence_json (opening ++ y)) = y.
Proof.
  intros Ho -> Hh. destruct (json_first_not_fence h Hh) as [H96 H106].
  destruct Ho as [-> | ->].
  - assert (H1 : sin_fence_json (FENCE_JSON ++ h :: t) = h :: t).
    { unfold sin_fence_json. rewrite startswith_app. reflexivity. }
    rewrite H1. apply sin_fence_inicio_none. exact Hh.
  - rewrite (sin_fence_json_plain h t H106).
    unfold sin_fence_inicio. rewrite startswith_app. reflexivity.
Qed.

Section GeneratorEdges.

Variable json_loads : pystr -> exc + pyval.
Hypothesis laws : loader_laws json_loads.

Lemma loads_rejects_empty : exists e, json_loads [] = inl e.
Proof.
  destruct (json_loads []) as [e|v] eqn:H; [eauto|].
  destruct (loads_first _ laws _ _ H) as [c [r [Hc _]]]. discriminate.
Qed.

(** X2. A response that is empty or all white space gives the error
    dictionary, with the text as it came. *)
Theorem generar_pregunta_blank (raw : pystr) :
  Forall (fun c => is_space c = true) raw ->
  exists e,
    generar_pregunta json_loads (ClientReturns (Some raw))
    = Return (error_record e (Some raw)).
Proof.
  intros Hraw. destruct loads_rejects_empty as [e He]. exists e.
  assert (Hs : strip raw = []).
  { unfold strip, strip_with. rewrite (drop_while_all is_space raw Hraw). reflexivity. }
  rewrite generar_pregunta_cases, try_cases, Hs.
  change (limpiar []) with (@nil N). rewrite He. reflexivity.
Qed.

(** X4. A fence that is only opened, or only closed, around a document
    that is an object and has no white space at its ends is undone as
    well: both responses give the record of the bare document. *)
Theorem generar_pregunta_half_fence (opening w1 w2 s : pystr) (o : pydict) :
  opening = FENCE_JSON \/ opening = FENCE ->
  Forall (fun c => is_json_ws c = true) w1 ->
  Forall (fun c => is_json_ws c = true) w2 ->
  json_loads s = inr (PDict o) -> strip s = s ->
  generar_pregunta json_loads (ClientReturns (Some (opening ++ w1 ++ s)))
    = Return (armar_pregunta o) /\
  generar_pregunta json_loads (ClientReturns (Some (s ++ w2 ++ FENCE)))
    = Return (armar_pregunta o).
Proof.
  intros Ho Hw1 Hw2 H Hst.
  destruct (loads_first _ laws _ _ H) as [c [r [Hc Hjf]]].
  destruct (loads_last _ laws _ _ H) as [r' [c' [Hc' Hjl]]].
  assert (Hends : is_space c = false /\ is_space c' = false).
  { destruct (strip_with_ends is_space s) as [Hnil | [a [x [a' [x' [H0 [H1 [Ha Ha']]]]]]]];
      fold (strip s) in *; rewrite Hst in *.
    - rewrite Hnil in Hc. discriminate.
    - split.
      + rewrite Hc in H0. injection H0 as -> _. exact Ha.
      + rewrite Hc' in H1. apply app_inj_tail in H1 as [_ ->]. exact Ha'. }
  destruct Hends as [Hsc Hsc'].
  destruct (json_first_not_fence c Hjf) as [H96 _].
  split.
  - assert (Hs : strip (opening ++ w1 ++ s) = opening ++ w1 ++ s).
    { assert (Ho' : exists p, opening = 96 :: p)
        by (destruct Ho as [-> | ->]; eexists; reflexivity).
      destruct Ho' as [p ->]. unfold strip.
      apply (strip_with_id is_space 96 c' _ ((96 :: p) ++ w1 ++ r'));
        [|reflexivity|exact Hsc'].
      rewrite Hc'. list_eq. }
    destruct (padded_head w1 [] s [] c r Hw1 Hc Hjf) as [h [t [Hy Hh]]].
    rewrite !app_nil_r in Hy.
    assert (Hl : limpiar (opening ++ w1 ++ s) = w1 ++ s).
    { unfold limpiar. rewrite (sin_fence_open opening (w1 ++ s) h t Ho Hy Hh).
      rewrite Hc', app_assoc. apply sin_fence_final_none. exact Hjl. }
    rewrite generar_pregunta_cases, try_cases, Hs, Hl.
    pose proof (loads_pad _ laws w1 [] s _ Hw1 (List.Forall_nil _) H) as Hp.
    rewrite app_nil_r in Hp. rewrite Hp. reflexivity.
  - assert (Hs : strip (s ++ w2 ++ FENCE) = s ++ w2 ++ FENCE).
    { rewrite Hc. unfold strip.
      apply (strip_with_id is_space c 96 _ ((c :: r) ++ w2 ++ [96; 96]));
        [|exact Hsc|reflexivity].
      unfold FENCE. list_eq. }
    assert (Hl : limpiar (s ++ w2 ++ FENCE) = s ++ w2).
    { unfold limpiar. rewrite Hc. cbn [app].
      rewrite (sin_fence_json_none c _ H96), (sin_fence_inicio_none c _ Hjf).
      change (c :: r ++ w2 ++ FENCE) with ((c :: r) ++ w2 ++ FENCE).
      rewrite app_assoc. apply sin_fence_final_app. }
    rewrite generar_pregunta_cases, try_cases, Hs, Hl.
    pose proof (loads_pad _ laws [] w2 s _ (List.Forall_nil _) Hw2 H) as Hp.
    cbn [app] in Hp. rewrite Hp. reflexivity.
Qed.

End GeneratorEdges.

Lemma startswith_prefix_false (p a b : pystr) :
  startswith p (a ++ b) = false -> startswith p a = false.
Proof.
  intros H. destruct (startswith p a) eqn:E; [|reflexivity].
  destruct (startswith_inv p a E) as [r ->].
  rewrite <- app_assoc, startswith_app in H. discriminate H.
Qed.

(** What [strip] leaves of a text is the text without its ends. *)
Lemma strip_with_keep_prefix (f : N -> bool) (a : N) (p : pystr) (c : N)
  (rest : pystr) :
  f a = false -> f c = false ->
  exists r' w,
    strip_with f ((a :: p) ++ c :: rest) = (a :: p) ++ c :: r' /\ rest = r' ++ w.
Proof.
  intros Ha Hc. exists (rev (drop_while f (rev rest))).
  destruct (drop_while_split f (rev rest)) as [w [Hr _]].
  exists (rev w). split; [apply strip_with_keep; assumption|].
  rewrite <- rev_app_distr, <- Hr, rev_involutive. reflexivity.
Qed.

Section GeneratorTags.

Variable json_loads : pystr -> exc + pyval.
Hypothesis objeto : loader_object json_loads.

(** No object comes of the empty text, nor of a text that begins with a
    character other than white space and the brace. *)
Lemma loads_no_object (text : pystr) (d : pydict) :
  text = [] \/ (exists c r, text = c :: r /\ is_space c = false /\ c <> 123) ->
  json_loads text <> inr (PDict d).
Proof.
  intros Ht H. destruct (objeto text d H) as [w [r [Heq Hw]]].
  destruct Ht as [-> | [c [r0 [-> [Hsp Hc]]]]].
  - destruct w; discriminate Heq.
  - destruct Hw as [|a w Ha Hw].
    + injection Heq as -> _. apply Hc. reflexivity.
    + injection Heq as -> _. apply json_ws_space in Ha. congruence.
Qed.

(** Without an object the generator returns the error dictionary. *)
Lemma generar_pregunta_no_object (raw : pystr) :
  (forall d, json_loads (limpiar (strip raw)) <> inr (PDict d)) ->
  exists e,
    generar_pregunta json_loads (ClientReturns (Some raw))
    = Return (error_record e (Some raw)).
Proof.
  intros Hn. rewrite generar_pregunta_cases, try_cases.
  destruct (json_loads (limpiar (strip raw))) as [e|v] eqn:H; [eauto|].
  destruct v; try (eexists; reflexivity).
  exfalso. eapply Hn. reflexivity.
Qed.

(** X3. A language tag on the fence. When the three backquotes are
    followed at once by a character that is neither white space nor the
    brace of an object, and the response does not begin with the fence
    of [json], the fence is not undone and the response gives the error
    dictionary: so for [```python], [```javascript], [```js] and
    [```text]. The same when the fence of [json] is followed at once by
    such a character other than a backquote, as in [```jsonc]: the
    seven characters go, the rest of the tag stays before the
    document. *)
Theorem generar_pregunta_other_tag (c : N) (rest : pystr) :
  is_space c = false -> c <> 123 ->
  (startswith FENCE_JSON (FENCE ++ c :: rest) = false ->
   exists e,
     generar_pregunta json_loads (ClientReturns (Some (FENCE ++ c :: rest)))
     = Return (error_record e (Some (FENCE ++ c :: rest)))) /\
  (c <> 96 ->
   exists e,
     generar_pregunta json_loads (ClientReturns (Some (FENCE_JSON ++ c :: rest)))
     = Return (error_record e (Some (FENCE_JSON ++ c :: rest)))).
Proof.
  intros Hsp Hc.
  assert (Hfinal : forall r' d, json_loads (sin_fence_final (c :: r')) <> inr (PDict d)).
  { intros r' d. apply loads_no_object.
    destruct (sin_fence_final_head c r') as [-> | [r'' ->]]; [left; reflexivity|].
    right. exists c, r''. auto. }
  split.
  - intros Hj. apply generar_pregunta_no_object. intros d.
    destruct (strip_with_keep_prefix is_space 96 [96; 96] c rest eq_refl Hsp)
      as [r' [w [Hs Hrest]]].
    change ((96 :: [96; 96]) ++ c :: rest) with (FENCE ++ c :: rest) in Hs.
    change ((96 :: [96; 96]) ++ c :: r') with (FENCE ++ c :: r') in Hs.
    unfold strip. rewrite Hs.
    assert (Hj' : startswith FENCE_JSON (FENCE ++ c :: r') = false).
    { apply (startswith_prefix_false _ _ w).
      rewrite <- app_assoc. cbn [app]. rewrite <- Hrest. exact Hj. }
    unfold limpiar, sin_fence_json. rewrite Hj'.
    unfold sin_fence_inicio. rewrite startswith_app.
    change (slice_from 3 (FENCE ++ c :: r')) with (c :: r').
    apply Hfinal.
  - intros H96. apply generar_pregunta_no_object. intros d.
    destruct (strip_with_keep_prefix is_space 96 [96; 96; 106; 115; 111; 110] c rest
                eq_refl Hsp) as [r' [w [Hs _]]].
    change ((96 :: [96; 96; 106; 115; 111; 110]) ++ c :: rest)
      with (FENCE_JSON ++ c :: rest) in Hs.
    change ((96 :: [96; 96; 106; 115; 111; 110]) ++ c :: r')
      with (FENCE_JSON ++ c :: r') in Hs.
    unfold strip. rewrite Hs.
    unfold limpiar, sin_fence_json. rewrite startswith_app.
    change (slice_from 7 (FENCE_JSON ++ c :: r')) with (c :: r').
    unfold sin_fence_inicio.
    replace (startswith FENCE (c :: r')) with false
      by (symmetry; apply (startswith_head_ne 96 [96; 96]); congruence).
    apply Hfinal.
Qed.

End GeneratorTags.

Lemma split_aux_length (sep : N) (cur s : pystr) :
  length (split_aux sep cur s) = S (length (List.filter (N.eqb sep) s)).
Proof.
  revert cur. induction s as [|c s IH]; intros cur; cbn [split_aux List.filter].
  - reflexivity.
  - rewrite (N.eqb_sym sep c). destruct (c =? sep); cbn [length]; rewrite IH; reflexivity.
Qed.

Lemma strip_in (s : pystr) (x : N) : In x (strip s) -> In x s.
Proof.
  intros Hin. destruct (strip_with_split is_space s) as [w1 [w2 [Hs _]]].
  rewrite Hs. apply in_or_app. right. apply in_or_app. left. exact Hin.
Qed.

Lemma strip_idempotent (s : pystr) : strip (strip s) = strip s.
Proof.
  destruct (strip_with_ends is_space s) as [Hnil | [c [r [c' [r' [H0 [H1 [Hc Hc']]]]]]]];
    fold (strip s) in *.
  - rewrite Hnil. reflexivity.
  - rewrite H0. unfold strip.
    apply (strip_with_id is_space c c' r r'); [congruence | exact Hc | exact Hc'].
Qed.

(** X5. A string under ["Respuestas"] always gives at least one answer:
    one more than it has commas, so that an answer with a comma in it
    comes out in two; no answer holds a comma or has white space at its
    ends. *)
Theorem normalizar_respuestas_str (s : pystr) :
  exists l,
    normalizar_respuestas (PStr s) = PList (map PStr l) /\
    length l = S (length (List.filter (N.eqb COMMA) s)) /\
    Forall (fun p => ~ In COMMA p /\ strip p = p) l.
Proof.
  exists (map strip (split COMMA s)). split; [|split].
  - unfold normalizar_respuestas. rewrite map_map. reflexivity.
  - rewrite length_map. apply split_aux_length.
  - apply List.Forall_forall. intros p Hp.
    apply in_map_iff in Hp as [x [<- Hx]].
    pose proof (split_no_sep COMMA s) as Hall.
    rewrite List.Forall_forall in Hall. split.
    + intros Hin. apply (Hall x Hx). apply strip_in. exact Hin.
    + apply strip_idempotent.
Qed.

(** ** More on the cache and the accessor *)

Section AccessorOrder.

Variable json_loads : pystr -> exc + pyval.

(** As many calls as the cache has records return these, in order. *)
Lemma obtener_varias_hits (os : list client_outcome) (q : Queue.t) :
  length os = Queue.qsize q ->
  obtener_varias json_loads os q
  = (map Return (Queue.items q), Queue.mk (Queue.maxsize q) []).
Proof.
  revert q. induction os as [|o os IH]; intros [m items]; unfold Queue.qsize;
    cbn [Queue.items Queue.maxsize obtener_varias]; intros Hlen.
  - destruct items; [reflexivity | discriminate].
  - destruct items as [|d rest]; [discriminate|].
    rewrite (obtener_hit json_loads o (Queue.mk m (d :: rest)) (Queue.mk m rest) d eq_refl).
    rewrite (IH (Queue.mk m rest)) by (injection Hlen as Hlen; exact Hlen).
    reflexivity.
Qed.

(** X6. Calls of the accessor, one after the other, return the cached
    records from the oldest on, without a word to the client; once the
    cache is empty each call returns what the generation in the request
    gives, and nothing of it is put in the cache. *)
Theorem obtener_varias_fifo (os : list client_outcome) (q : Queue.t) :
  obtener_varias json_loads os q =
  (map Return (take (length os) (Queue.items q))
   ++ map (fun o => fst (obtener_pregunta_cache json_loads o
                           (Queue.mk (Queue.maxsize q) [])))
          (drop (Queue.qsize q) os),
   Queue.mk (Queue.maxsize q) (drop (length os) (Queue.items q))).
Proof.
  revert q. induction os as [|o os IH]; intros [m items]; cbn [obtener_varias].
  - unfold Queue.qsize. cbn [Queue.items Queue.maxsize length take drop map app].
    rewrite drop_nil. reflexivity.
  - destruct items as [|d rest].
    + assert (Hmiss : obtener_pregunta_cache json_loads o (Queue.mk m [])
                      = (fst (obtener_pregunta_cache json_loads o (Queue.mk m [])),
                         Queue.mk m [])).
      { unfold obtener_pregunta_cache. reflexivity. }
      rewrite Hmiss, (IH (Queue.mk m [])).
      unfold Queue.qsize. cbn [Queue.items Queue.maxsize length].
      rewrite !take_nil, !drop_nil. reflexivity.
    + rewrite (obtener_hit json_loads o (Queue.mk m (d :: rest)) (Queue.mk m rest) d eq_refl).
      rewrite (IH (Queue.mk m rest)).
      unfold Queue.qsize. cbn [Queue.items Queue.maxsize length]. reflexivity.
Qed.

(** X8. A record that a pass of the worker generates and accepts is
    handed out unchanged, after the records that were cached before it:
    as many calls of the accessor as the cache then has records return
    those, in order, and leave the cache empty. *)
Theorem precargar_then_obtener (o : client_outcome) (q : Queue.t) (p : pydict)
  (os : list client_outcome) :
  Queue.maxsize q = CACHE_SIZE -> (Queue.qsize q < CACHE_MIN)%nat ->
  generar_pregunta json_loads o = Return p -> es_valida (PDict p) = true ->
  length os = S (Queue.qsize q) ->
  exists q1,
    precargar_iteracion json_loads o q = Some (1%nat, q1) /\
    obtener_varias json_loads os q1
    = (map Return (Queue.items q ++ [p]), Queue.mk CACHE_SIZE []).
Proof.
  intros Hm Hlt Hg Hv Hlen.
  exists (Queue.mk (Queue.maxsize q) (Queue.items q ++ [p])).
  split; [rewrite (iteracion_return json_loads o q p Hm Hlt Hg), Hv; reflexivity|].
  rewrite obtener_varias_hits.
  - cbn [Queue.items Queue.maxsize]. rewrite Hm. reflexivity.
  - unfold Queue.qsize in *. cbn [Queue.items]. rewrite length_app. simpl. lia.
Qed.

End AccessorOrder.

(** ** The quiz routes *)

Lemma dict_item_inr (d : pydict) (k : pystr) (v : pyval) :
  dict_item d k = inr v <-> d !! k = Some v.
Proof.
  unfold dict_item. destruct (d !! k); split; congruence.
Qed.

Lemma dict_item_inl (d : pydict) (k : pystr) (e : exc) :
  dict_item d k = inl e <-> d !! k = None /\ e = key_error k.
Proof.
  unfold dict_item. destruct (d !! k); split.
  - discriminate.
  - intros [H _]. discriminate.
  - intros [= <-]. auto.
  - intros [_ ->]. reflexivity.
Qed.

Lemma entry_keys_dom (v1 v2 v3 v4 v5 v6 : pyval) :
  dom (<[K_PREGUNTA := v1]> (<[K_CODIGO := v2]> (<[K_RESPUESTAS := v3]>
      (<[K_RESPUESTA_CORRECTA := v4]> (<[K_EXPLICACION := v5]>
      (<[K_RESPUESTA_USUARIO := v6]> (∅ : pydict))))))) = ENTRY_KEYS.
Proof.
  unfold ENTRY_KEYS, QUESTION_KEYS. rewrite !dom_insert_L, dom_empty_L.
  set_solver.
Qed.

Lemma entrada_error_inv (p : pydict) (correcta : pyval) (sel : option pystr)
  (entrada : pydict) :
  p !! K_RESPUESTA_CORRECTA = Some correcta ->
  entrada_error p correcta (dict_get_default p K_EXPLICACION (PStr [])) sel
    = inr entrada ->
  es_entrada p sel entrada.
Proof.
  intros Hc. unfold entrada_error.
  destruct (dict_item p K_PREGUNTA) as [e|v1] eqn:H1; [discriminate|].
  destruct (dict_item p K_CODIGO) as [e|v2] eqn:H2; [discriminate|].
  destruct (dict_item p K_RESPUESTAS) as [e|v3] eqn:H3; [discriminate|].
  apply dict_item_inr in H1, H2, H3. intros [= <-].
  unfold es_entrada. rewrite H1, H2, H3, Hc.
  split; [apply entry_keys_dom|].
  repeat split; dict_lookup; reflexivity.
Qed.

Lemma entrada_error_some (p : pydict) (correcta explicacion : pyval)
  (sel : option pystr) :
  is_Some (p !! K_PREGUNTA) -> is_Some (p !! K_CODIGO) ->
  is_Some (p !! K_RESPUESTAS) ->
  exists entrada, entrada_error p correcta explicacion sel = inr entrada.
Proof.
  intros [v1 H1] [v2 H2] [v3 H3]. unfold entrada_error.
  apply dict_item_inr in H1, H2, H3. rewrite H1, H2, H3. eauto.
Qed.

Section QuizProps.

Variable marca : Type.
Variable json_loads : pystr -> exc + pyval.
Implicit Types s : sesion marca.

Lemma registrar_inv s (correcta : pyval) (sel : option pystr) (s' : sesion marca) :
  pregunta_actual s !! K_RESPUESTA_CORRECTA = Some correcta ->
  ~ acierta (pregunta_actual s) sel ->
  match entrada_error (pregunta_actual s) correcta
          (dict_get_default (pregunta_actual s) K_EXPLICACION (PStr [])) sel with
  | inl e => inl e
  | inr entrada =>
    inr (Sesion (puntaje s) (total s + 1)%Z (inicio s) (pregunta_actual s)
           (errores s ++ [entrada]))
  end = inr s' ->
  calificada s sel s'.
Proof.
  intros Hc Hn.
  destruct (entrada_error _ _ _ _) as [e|entrada] eqn:He; [discriminate|].
  intros [= <-]. unfold calificada. cbn [total inicio pregunta_actual puntaje errores].
  repeat (split; [reflexivity|]). right.
  split; [exact Hn|]. split; [reflexivity|]. exists entrada.
  split; [reflexivity|]. exact (entrada_error_inv _ _ _ _ Hc He).
Qed.

Lemma calificar_inv s (sel : option pystr) (s' : sesion marca) :
  calificar s sel = inr s' -> calificada s sel s'.
Proof.
  unfold calificar.
  destruct (dict_item (pregunta_actual s) K_RESPUESTA_CORRECTA) as [e|correcta] eqn:Hd;
    [discriminate|].
  apply dict_item_inr in Hd. cbv zeta.
  destruct sel as [[|c x]|].
  - apply registrar_inv; [exact Hd|]. intros [c0 [x0 [[= <-] [Hx _]]]]. congruence.
  - destruct (py_strip correcta) as [e|limpia] eqn:Hs; [discriminate|].
    destruct correcta; try discriminate. injection Hs as <-.
    destruct (bool_decide (strip (c :: x) = strip s0)) eqn:Hb.
    + apply bool_decide_eq_true in Hb. intros [= <-].
      unfold calificada. cbn [total inicio pregunta_actual puntaje errores].
      repeat (split; [reflexivity|]). left.
      split; [|split; reflexivity].
      exists s0, (c :: x). repeat split; [discriminate | exact Hd | exact Hb].
    + apply bool_decide_eq_false in Hb.
      apply registrar_inv; [exact Hd|].
      intros [c0 [x0 [[= <-] [_ [Hc0 Heq]]]]].
      rewrite Hd in Hc0. injection Hc0 as <-. exact (Hb Heq).
  - apply registrar_inv; [exact Hd|]. intros [c0 [x0 [Hsel _]]]. discriminate.
Qed.

(** X9. When the grading of an answer returns, one more answer is
    counted in [total]; either the answer is right, the score grows by
    one and [errores] is as it was, or it is not, the score is as it was
    and [errores] has one more entry, with the question's fields, its
    explanation and the user's answer under six keys; so score and
    errors together grow by one. The question and the start mark are
    not touched. *)
Theorem calificar_cuenta s (sel : option pystr) (s' : sesion marca) :
  calificar s sel = inr s' ->
  total s' = (total s + 1)%Z /\ inicio s' = inicio s /\
  pregunta_actual s' = pregunta_actual s /\
  ((acierta (pregunta_actual s) sel /\
    puntaje s' = (puntaje s + 1)%Z /\ errores s' = errores s) \/
   (~ acierta (pregunta_actual s) sel /\ puntaje s' = puntaje s /\
    exists entrada, errores s' = errores s ++ [entrada] /\
                    es_entrada (pregunta_actual s) sel entrada)) /\
  (puntaje s' + Z.of_nat (length (errores s'))
   = puntaje s + Z.of_nat (length (errores s)) + 1)%Z.
Proof.
  intros Hc. destruct (calificar_inv s sel s' Hc) as [Ht [Hi [Hp Hcase]]].
  repeat (split; [assumption|]).
  destruct Hcase as [[_ [Hpt He]] | [_ [Hpt [entrada [He _]]]]]; rewrite Hpt, He.
  - lia.
  - rewrite length_app. simpl. lia.
Qed.

(** X10. On a question that has its four keys and a string as
    [respuesta_correcta] the grading always returns, and the score grows
    exactly when the answer is not empty and equals the right one up to
    the white space at the ends. *)
Theorem calificar_criterio s (sel : option pystr) (c : pystr) :
  pregunta_actual s !! K_RESPUESTA_CORRECTA = Some (PStr c) ->
  is_Some (pregunta_actual s !! K_PREGUNTA) ->
  is_Some (pregunta_actual s !! K_CODIGO) ->
  is_Some (pregunta_actual s !! K_RESPUESTAS) ->
  exists s',
    calificar s sel = inr s' /\
    (puntaje s' = (puntaje s + 1)%Z <->
     exists x, sel = Some x /\ x <> [] /\ strip x = strip c).
Proof.
  intros Hc H1 H2 H3.
  assert (Hex : exists s', calificar s sel = inr s').
  { unfold calificar. rewrite (proj2 (dict_item_inr _ _ _) Hc). cbv zeta.
    destruct (entrada_error_some (pregunta_actual s) (PStr c)
                (dict_get_default (pregunta_actual s) K_EXPLICACION (PStr []))
                sel H1 H2 H3) as [entrada He].
    rewrite He. cbn [py_strip].
    destruct sel as [[|a x]|]; eauto.
    destruct (bool_decide _); eauto. }
  destruct Hex as [s' Hs']. exists s'. split; [exact Hs'|].
  destruct (calificar_inv s sel s' Hs') as [_ [_ [_ Hcase]]].
  split.
  - intros Hp. destruct Hcase as [[[c0 [x [Hsel [Hx [Hc0 Heq]]]]] _] | [_ [Hp' _]]]; [|lia].
    rewrite Hc in Hc0. injection Hc0 as <-. eauto.
  - intros [x [Hsel [Hx Heq]]].
    destruct Hcase as [[_ [Hp _]] | [Hn _]]; [exact Hp|].
    exfalso. apply Hn. exists c, x. auto.
Qed.

End QuizProps.

Section QuizFlows.

Variable marca : Type.
Variable json_loads : pystr -> exc + pyval.
Implicit Types s : sesion marca.

Lemma calificar_key_error s (sel : option pystr) :
  pregunta_actual s !! K_RESPUESTA_CORRECTA = None ->
  calificar s sel = inl (key_error K_RESPUESTA_CORRECTA).
Proof.
  intros H. unfold calificar.
  rewrite (proj2 (dict_item_inl _ _ _) (conj H eq_refl)). reflexivity.
Qed.

Lemma error_record_sin_correcta (e : exc) (t : option pystr) :
  error_record e t !! K_RESPUESTA_CORRECTA = None.
Proof.
  apply not_elem_of_dom. rewrite error_record_dom. unfold ERROR_KEYS.
  rewrite !elem_of_union, !elem_of_singleton.
  intros [[H|H]|H]; vm_compute in H; discriminate H.
Qed.

(** The grading on the session itself and the grading on a copy of it
    come to the same result; when it raises, the session is as it was if
    the question has no [respuesta_correcta], and has one more answer
    counted, and nothing else new, if it has. *)
Lemma calificar_en_sesion_spec s (sel : option pystr) :
  match calificar_en_sesion s sel with
  | inl (e, s1) =>
    calificar s sel = inl e /\
    ((pregunta_actual s !! K_RESPUESTA_CORRECTA = None /\ s1 = s) \/
     (is_Some (pregunta_actual s !! K_RESPUESTA_CORRECTA) /\ s1 = contar s))
  | inr s' => calificar s sel = inr s'
  end.
Proof.
  unfold calificar_en_sesion, calificar.
  destruct (dict_item (pregunta_actual s) K_RESPUESTA_CORRECTA) as [e|correcta] eqn:Hd.
  - apply dict_item_inl in Hd as [Hn _]. split; [reflexivity | left; auto].
  - apply dict_item_inr in Hd.
    assert (Hs : is_Some (pregunta_actual s !! K_RESPUESTA_CORRECTA))
      by (rewrite Hd; eauto).
    cbv zeta. cbn [contar pregunta_actual puntaje total inicio errores].
    destruct (entrada_error _ _ _ _) as [e|entrada];
      destruct sel as [[|c x]|]; try destruct (py_strip correcta) as [e'|limpia];
      try destruct (bool_decide _);
      first [reflexivity | split; [reflexivity | right; split; [exact Hs | reflexivity]]].
Qed.

Lemma calificar_en_sesion_inr s (sel : option pystr) (s' : sesion marca) :
  calificar_en_sesion s sel = inr s' <-> calificar s sel = inr s'.
Proof.
  pose proof (calificar_en_sesion_spec s sel) as H.
  destruct (calificar_en_sesion s sel) as [[e s1]|s2].
  - destruct H as [H _]. rewrite H. split; discriminate.
  - rewrite H. split; intros [= <-]; reflexivity.
Qed.

Lemma calificar_en_sesion_key_error s (sel : option pystr) :
  pregunta_actual s !! K_RESPUESTA_CORRECTA = None ->
  calificar_en_sesion s sel = inl (key_error K_RESPUESTA_CORRECTA, s).
Proof.
  intros H. unfold calificar_en_sesion.
  rewrite (proj2 (dict_item_inl _ _ _) (conj H eq_refl)). reflexivity.
Qed.

(** After the lookup of [respuesta_correcta] every exception of the
    grading finds the answer counted already. *)
Lemma calificar_en_sesion_raises s (sel : option pystr) (e : exc) :
  is_Some (pregunta_actual s !! K_RESPUESTA_CORRECTA) ->
  calificar s sel = inl e ->
  calificar_en_sesion s sel = inl (e, contar s).
Proof.
  intros [v Hv] Hc. pose proof (calificar_en_sesion_spec s sel) as H.
  destruct (calificar_en_sesion s sel) as [[e1 s1]|s2].
  - destruct H as [He [[Hn _] | [_ ->]]].
    + rewrite Hv in Hn. discriminate Hn.
    + rewrite Hc in He. injection He as ->. reflexivity.
  - rewrite Hc in H. discriminate H.
Qed.

(** X11. When the cache is empty and the response in the request does
    not parse (without the quota marker), [quiz_get] shows the error
    dictionary as the question and keeps it in the session; from then on
    every answer posted, in [quiz_post] as in [quiz], raises
    [KeyError('respuesta_correcta')] and leaves the cache alone. *)
Theorem quiz_post_error_record (ahora : marca) (text : option pystr)
  (q : Queue.t) (e : exc) :
  Queue.get q = None ->
  generar_pregunta_try json_loads text = inl e ->
  str_contains RESOURCE_EXHAUSTED (str_exc e) = false ->
  exists v,
    quiz_get json_loads None ahora (ClientReturns text) q = (Return v, q) /\
    vista_pregunta v = error_record e text /\
    pregunta_actual (vista_sesion v) = error_record e text /\
    (forall respuesta tiempo o q',
       quiz_post json_loads (Some (vista_sesion v)) respuesta tiempo o q'
       = (Raise (key_error K_RESPUESTA_CORRECTA), q')) /\
    (forall sel ahora' tiempo o1 o2 q',
       quiz json_loads POST (Some (vista_sesion v)) sel ahora' tiempo o1 o2 q'
       = (Raise (key_error K_RESPUESTA_CORRECTA), Some (vista_sesion v), q')).
Proof.
  intros Hget Ht He.
  assert (Hg : generar_pregunta json_loads (ClientReturns text)
               = Return (error_record e text)).
  { rewrite generar_pregunta_cases, Ht. reflexivity. }
  pose proof (obtener_miss_error json_loads _ q e text Hget Hg) as Ho.
  rewrite He in Ho.
  exists (VistaQuiz (error_record e text) 1 (sesion_nueva ahora (error_record e text))).
  split; [unfold quiz_get; rewrite Ho; reflexivity|].
  split; [reflexivity|]. split; [reflexivity|].
  cbn [vista_sesion]. split.
  - intros respuesta tiempo o q'. unfold quiz_post.
    rewrite calificar_key_error; [reflexivity|]. apply error_record_sin_correcta.
  - intros sel ahora' tiempo o1 o2 q'. unfold quiz.
    rewrite calificar_en_sesion_key_error; [reflexivity|].
    apply error_record_sin_correcta.
Qed.

(** X12. On a record built from an object whose ["Respuesta correcta"]
    is missing or is not a string, every answer that is not empty makes
    the grading raise [AttributeError], for [strip] is asked of a value
    that is no string; an empty answer, or none, is recorded as an
    error. *)
Theorem calificar_correcta_no_str s (ob : pydict) :
  pregunta_actual s = armar_pregunta ob ->
  (forall t, dict_get ob J_RESPUESTA_CORRECTA <> PStr t) ->
  (forall c x,
     calificar s (Some (c :: x))
     = inl (attribute_error (dict_get ob J_RESPUESTA_CORRECTA) "strip")) /\
  (exists s', calificar s (Some []) = inr s' /\
              length (errores s') = S (length (errores s))) /\
  (exists s', calificar s None = inr s' /\
              length (errores s') = S (length (errores s))).
Proof.
  intros Hp Hv.
  destruct (armar_pregunta_lookups ob) as [H1 [H2 [H3 [H4 _]]]].
  assert (Hd : dict_item (pregunta_actual s) K_RESPUESTA_CORRECTA
               = inr (dict_get ob J_RESPUESTA_CORRECTA)).
  { apply dict_item_inr. rewrite Hp. exact H4. }
  assert (Hent : forall sel, exists entrada,
             entrada_error (pregunta_actual s) (dict_get ob J_RESPUESTA_CORRECTA)
               (dict_get_default (pregunta_actual s) K_EXPLICACION (PStr [])) sel
             = inr entrada).
  { intros sel. apply entrada_error_some; rewrite Hp.
    - rewrite H1. eauto.
    - rewrite H2. eauto.
    - rewrite H3. eauto. }
  split; [|split].
  - intros c x. unfold calificar. rewrite Hd. cbv zeta.
    destruct (dict_get ob J_RESPUESTA_CORRECTA) eqn:E; try reflexivity.
    exfalso. eapply Hv. reflexivity.
  - destruct (Hent (Some [])) as [entrada He].
    eexists. unfold calificar. rewrite Hd. cbv zeta. rewrite He.
    split; [reflexivity|]. cbn [errores]. rewrite length_app. simpl. lia.
  - destruct (Hent None) as [entrada He].
    eexists. unfold calificar. rewrite Hd. cbv zeta. rewrite He.
    split; [reflexivity|]. cbn [errores]. rewrite length_app. simpl. lia.
Qed.

Lemma sesion_nueva_ok (ahora : marca) (p : pydict) : sesion_ok (sesion_nueva ahora p).
Proof. unfold sesion_ok, sesion_nueva. simpl. lia. Qed.

Lemma con_pregunta_ok s (p : pydict) : sesion_ok s -> sesion_ok (con_pregunta s p).
Proof. unfold sesion_ok, con_pregunta. simpl. auto. Qed.

(** The counters after a grading. *)
Lemma calificar_counters s (sel : option pystr) (s' : sesion marca) :
  sesion_ok s -> calificar s sel = inr s' ->
  total s' = (total s + 1)%Z /\ inicio s' = inicio s /\ (0 <= puntaje s')%Z /\
  (puntaje s' + Z.of_nat (length (errores s')) = total s')%Z.
Proof.
  intros [H0 [Hsum Hle]] Hc.
  destruct (calificar_inv marca s sel s' Hc) as [Ht [Hi [_ Hcase]]].
  split; [exact Ht|]. split; [exact Hi|].
  destruct Hcase as [[_ [Hp He]] | [_ [Hp [entrada [He _]]]]]; rewrite Hp, He, Ht.
  - lia.
  - rewrite length_app. simpl. lia.
Qed.

(** X13. In [main.py] a session that the routes have written always
    has counted every answer once, as right or as an error, and has at
    most nine answers. From such a session [quiz_post], when it
    returns, either ends the quiz, which it does exactly on the tenth
    answer, with ten answers accounted for and no record taken from the
    cache, or stores such a session again, with one more answer and the
    question that the accessor returned. *)
Theorem quiz_post_sesion_ok s (respuesta : pystr) (tiempo : marca -> Z)
  (o : client_outcome) (q q' : Queue.t) (r : respuesta_post marca) :
  sesion_ok s ->
  quiz_post json_loads (Some s) respuesta tiempo o q = (Return r, q') ->
  match r with
  | RedirectInicio => False
  | RedirectResultado correctas t quiz_errores =>
    total s = 9%Z /\ (0 <= correctas)%Z /\
    (correctas + Z.of_nat (length quiz_errores) = 10)%Z /\
    t = tiempo (inicio s) /\ q' = q
  | RedirectQuiz s' =>
    (total s < 9)%Z /\ sesion_ok s' /\ total s' = (total s + 1)%Z /\
    obtener_pregunta_cache json_loads o q = (Return (pregunta_actual s'), q')
  end.
Proof.
  intros Hok. pose proof Hok as [H0 [Hsum Hle]]. unfold quiz_post.
  destruct (calificar s (Some respuesta)) as [e|s1] eqn:Hc; [discriminate|].
  destruct (calificar_counters s _ s1 Hok Hc) as [Ht [Hi [Hp Hs]]].
  destruct (10 <=? total s1)%Z eqn:H10.
  - apply Z.leb_le in H10. intros [= <- <-].
    repeat split; try lia. congruence.
  - apply Z.leb_gt in H10.
    destruct (obtener_pregunta_cache json_loads o q) as [[p|e] q1] eqn:Ho;
      [|discriminate].
    intros [= <- <-]. split; [lia|]. split; [|split; [exact Ht | reflexivity]].
    apply con_pregunta_ok. unfold sesion_ok. repeat split; lia.
Qed.

(** What one request makes of a session of [quiz]. *)
Lemma quiz_paso (m : metodo) (ses ses' : option (sesion marca))
  (sel : option pystr) (ahora : marca) (tiempo : marca -> Z)
  (o1 o2 : client_outcome) (q q' : Queue.t) (r : result vista) :
  (forall s, ses = Some s -> sesion_quiz_ok s) ->
  quiz json_loads m ses sel ahora tiempo o1 o2 q = (r, ses', q') ->
  (forall s', ses' = Some s' -> sesion_quiz_ok s') /\
  match r with
  | Return (VistaPregunta p num) =>
    exists s', ses' = Some s' /\ p = pregunta_actual s' /\
               num = (total s' + 1)%Z /\ (1 <= num)%Z
  | Return (VistaResultado correctas t errores_vistos) =>
    m = POST /\ ses' = None /\
    exists s, ses = Some s /\ (9 <= total s)%Z /\ t = tiempo (inicio s) /\
              (0 <= correctas)%Z /\
              (correctas + Z.of_nat (length errores_vistos) <= total s + 1)%Z
  | Raise e => True
  end.
Proof.
  intros Hses. unfold quiz.
  set (iniciada := match ses with Some s => _ | None => _ end).
  assert (Hini : forall s q1, iniciada = (Return s, q1) ->
            sesion_quiz_ok s /\ (ses = None -> total s = 0%Z) /\
            (forall s0, ses = Some s0 -> s = s0)).
  { subst iniciada. intros s q1. destruct ses as [s0|].
    - intros [= <- <-]. split; [auto|]. split; [discriminate|].
      intros ? [= <-]. reflexivity.
    - destruct (obtener_pregunta_cache json_loads o1 q) as [[p|e] q0]; [|discriminate].
      intros [= <- <-]. split; [|split; [reflexivity | discriminate]].
      unfold sesion_quiz_ok, sesion_nueva. simpl. lia. }
  destruct iniciada as [[s|e] q1].
  2:{ intros [= <- <- <-]. split; [discriminate | exact I]. }
  destruct (Hini s q1 eq_refl) as [Hok [Hnone Hsome]].
  pose proof Hok as [H0 Hsum].
  destruct m.
  - intros [= <- <- <-]. split; [intros ? [= <-]; exact Hok|].
    exists s. repeat split; lia.
  - pose proof (calificar_en_sesion_spec s sel) as Hspec.
    destruct (calificar_en_sesion s sel) as [[e s1]|s1].
    + intros [= <- <- <-]. split; [|exact I].
      intros ? [= <-]. destruct Hspec as [_ [[_ ->] | [_ ->]]]; [exact Hok|].
      unfold sesion_quiz_ok, contar. cbn [puntaje total errores]. lia.
    + destruct (calificar_inv marca s sel s1 Hspec) as [Ht [Hi [_ Hcase]]].
      assert (Hok1 : (0 <= puntaje s1)%Z /\
                     (puntaje s1 + Z.of_nat (length (errores s1)) <= total s1)%Z).
      { destruct Hcase as [[_ [Hp He]] | [_ [Hp [entrada [He _]]]]]; rewrite Hp, He, Ht.
        - lia.
        - rewrite length_app. simpl. lia. }
      destruct (10 <=? total s1)%Z eqn:H10.
      * apply Z.leb_le in H10. intros [= <- <- <-].
        split; [discriminate|]. split; [reflexivity|]. split; [reflexivity|].
        destruct ses as [s0|].
        -- exists s0. rewrite <- (Hsome s0 eq_refl).
           split; [reflexivity|]. split; [lia|]. split; [congruence|]. lia.
        -- pose proof (Hnone eq_refl). lia.
      * destruct (obtener_pregunta_cache json_loads o2 q1) as [[p|e] q2].
        -- intros [= <- <- <-]. cbn [con_pregunta pregunta_actual total].
           split; [intros ? [= <-]; exact Hok1|].
           eexists. split; [reflexivity|].
           cbn [pregunta_actual total]. repeat split; lia.
        -- intros [= <- <- <-]. split; [|exact I]. intros ? [= <-]. exact Hok1.
Qed.

Lemma sesion_quiz_inv (ses : option (sesion marca)) :
  sesion_quiz json_loads ses -> forall s, ses = Some s -> sesion_quiz_ok s.
Proof.
  induction 1 as [|ses ses' m sel ahora tiempo o1 o2 q q' r _ IH Hq].
  - discriminate.
  - exact (proj1 (quiz_paso m ses ses' sel ahora tiempo o1 o2 q q' r IH Hq)).
Qed.

(** X14. The sessions of [app.py]. Along any sequence of requests to
    [quiz], from no session on and whatever the cache and the client
    do, a session that is left has a score that is not negative and no
    more right answers and recorded errors, taken together, than
    answers counted. It can have less: a POST whose grading raises
    after [respuesta_correcta] was found leaves, with the exception, the
    session with one more answer counted and score and errors as they
    were, for [total] is increased before the comparison. When [quiz]
    renders a question it is the one of the session left, under a
    number that is one more than the answers counted; when it renders
    the result it is on a POST with a session that had counted nine
    answers or more, no session is left, and the score and the errors
    shown are together no more than the answers counted. *)
Theorem quiz_sesion_inv (ses : option (sesion marca)) :
  sesion_quiz json_loads ses ->
  (forall s, ses = Some s ->
     (0 <= puntaje s)%Z /\
     (puntaje s + Z.of_nat (length (errores s)) <= total s)%Z) /\
  (forall s sel e ahora tiempo o1 o2 q,
     ses = Some s ->
     is_Some (pregunta_actual s !! K_RESPUESTA_CORRECTA) ->
     calificar s sel = inl e ->
     quiz json_loads POST ses sel ahora tiempo o1 o2 q
     = (Raise e,
        Some (Sesion (puntaje s) (total s + 1) (inicio s) (pregunta_actual s)
                (errores s)),
        q)) /\
  (forall m sel ahora tiempo o1 o2 q r ses' q',
     quiz json_loads m ses sel ahora tiempo o1 o2 q = (r, ses', q') ->
     match r with
     | Return (VistaPregunta p num) =>
       exists s', ses' = Some s' /\ p = pregunta_actual s' /\
                  num = (total s' + 1)%Z /\ (1 <= num)%Z
     | Return (VistaResultado correctas t errores_vistos) =>
       m = POST /\ ses' = None /\
       exists s, ses = Some s /\ (9 <= total s)%Z /\ t = tiempo (inicio s) /\
                 (0 <= correctas)%Z /\
                 (correctas + Z.of_nat (length errores_vistos) <= total s + 1)%Z
     | Raise e => True
     end).
Proof.
  intros Hses. pose proof (sesion_quiz_inv ses Hses) as Hok.
  split; [exact Hok|]. split.
  - intros s sel e ahora tiempo o1 o2 q -> Hs Hc. unfold quiz.
    rewrite (calificar_en_sesion_raises s sel e Hs Hc). reflexivity.
  - intros m sel ahora tiempo o1 o2 q r ses' q' Hq.
    exact (proj2 (quiz_paso m ses ses' sel ahora tiempo o1 o2 q q' r Hok Hq)).
Qed.

(** X15. An answer posted without a session: [quiz_post] sends the
    user to the start and takes nothing from the cache, while [quiz]
    takes two records: it grades the answer against the first, which the
    user never saw, and shows the second as question number 2. *)
Theorem quiz_post_sin_sesion (sel : option pystr) (respuesta : pystr)
  (ahora : marca) (tiempo : marca -> Z) (o o1 o2 : client_outcome)
  (q q1 q2 : Queue.t) (a b : pydict) (s' : sesion marca) :
  Queue.get q = Some (a, q1) -> Queue.get q1 = Some (b, q2) ->
  calificar (sesion_nueva ahora a) sel = inr s' ->
  quiz_post json_loads None respuesta tiempo o q = (Return RedirectInicio, q) /\
  quiz json_loads POST None sel ahora tiempo o1 o2 q
    = (Return (VistaPregunta b 2), Some (con_pregunta s' b), q2) /\
  total s' = 1%Z /\ pregunta_actual s' = a.
Proof.
  intros Ha Hb Hc. split; [reflexivity|].
  destruct (calificar_inv marca _ sel s' Hc) as [Ht [_ [Hp _]]].
  cbn [sesion_nueva total pregunta_actual] in Ht, Hp.
  split; [|split; [lia | exact Hp]].
  unfold quiz.
  rewrite (obtener_hit json_loads o1 q q1 a Ha).
  rewrite (proj2 (calificar_en_sesion_inr _ sel s') Hc).
  assert (H10 : (10 <=? total s')%Z = false) by (apply Z.leb_gt; lia).
  rewrite H10, (obtener_hit json_loads o2 q1 q2 b Hb).
  cbn [con_pregunta pregunta_actual total]. rewrite Ht. reflexivity.
Qed.

End QuizFlows.

(** ** The extras on sample inputs *)

Lemma generar_pregunta_blank_witness :
  exists e,
    generar_pregunta json_loads_ref (ClientReturns (Some DEMO_BLANK))
    = Return (error_record e (Some DEMO_BLANK)).
Proof.
  apply (generar_pregunta_blank json_loads_ref json_loads_ref_laws DEMO_BLANK).
  repeat constructor.
Defined.

Lemma generar_pregunta_other_tag_witness :
  (exists e,
     generar_pregunta json_loads_ref
       (ClientReturns (Some (FENCE ++ 112 :: DEMO_PYTHON_REST)))
     = Return (error_record e (Some (FENCE ++ 112 :: DEMO_PYTHON_REST)))) /\
  (exists e,
     generar_pregunta json_loads_ref
       (ClientReturns (Some (FENCE ++ 106 :: DEMO_JAVASCRIPT_REST)))
     = Return (error_record e (Some (FENCE ++ 106 :: DEMO_JAVASCRIPT_REST)))) /\
  (exists e,
     generar_pregunta json_loads_ref
       (ClientReturns (Some (FENCE ++ 116 :: DEMO_TEXT_REST)))
     = Return (error_record e (Some (FENCE ++ 116 :: DEMO_TEXT_REST)))) /\
  (exists e,
     generar_pregunta json_loads_ref
       (ClientReturns (Some (FENCE_JSON ++ 99 :: DEMO_JSONC_REST)))
     = Return (error_record e (Some (FENCE_JSON ++ 99 :: DEMO_JSONC_REST)))).
Proof.
  split; [|split; [|split]].
  - apply (proj1 (generar_pregunta_other_tag json_loads_ref json_loads_ref_object
                    112 DEMO_PYTHON_REST eq_refl ltac:(discriminate))).
    reflexivity.
  - apply (proj1 (generar_pregunta_other_tag json_loads_ref json_loads_ref_object
                    106 DEMO_JAVASCRIPT_REST eq_refl ltac:(discriminate))).
    reflexivity.
  - apply (proj1 (generar_pregunta_other_tag json_loads_ref json_loads_ref_object
                    116 DEMO_TEXT_REST eq_refl ltac:(discriminate))).
    reflexivity.
  - apply (proj2 (generar_pregunta_other_tag json_loads_ref json_loads_ref_object
                    99 DEMO_JSONC_REST eq_refl ltac:(discriminate))).
    discriminate.
Defined.

Lemma demo_object_stripped : strip DEMO_OBJECT = DEMO_OBJECT.
Proof. vm_compute. reflexivity. Qed.

Lemma generar_pregunta_half_fence_witness :
  generar_pregunta json_loads_ref
    (ClientReturns (Some (FENCE_JSON ++ [10] ++ DEMO_OBJECT))) = Return DEMO_RECORD /\
  generar_pregunta json_loads_ref
    (ClientReturns (Some (DEMO_OBJECT ++ [10] ++ FENCE))) = Return DEMO_RECORD.
Proof.
  apply (generar_pregunta_half_fence json_loads_ref json_loads_ref_laws
           FENCE_JSON [10] [10] DEMO_OBJECT DEMO_PARSED
           (or_introl eq_refl) ws_line_feed ws_line_feed
           demo_object_loads demo_object_stripped).
Defined.

Lemma demo_reachable :
  reachable json_loads_ref (State (WSleep 1) (Queue.mk CACHE_SIZE [DEMO_RECORD])).
Proof.
  apply (reachable_first_put json_loads_ref (ClientReturns (Some DEMO_OBJECT))).
  - exact demo_object_generated.
  - apply es_valida_armar.
Qed.

Lemma reachable_below_watermark_witness :
  (Queue.qsize (Queue.mk CACHE_SIZE [DEMO_RECORD]) <= CACHE_MIN)%nat.
Proof.
  apply (reachable_below_watermark json_loads_ref
           (State (WSleep 1) (Queue.mk CACHE_SIZE [DEMO_RECORD])) demo_reachable).
Defined.

Lemma precargar_then_obtener_witness :
  exists q1,
    precargar_iteracion json_loads_ref (ClientReturns (Some DEMO_OBJECT)) pregunta_cache
    = Some (1%nat, q1) /\
    obtener_varias json_loads_ref [ClientRaises SERVER_ERROR] q1
    = ([Return DEMO_RECORD], pregunta_cache).
Proof.
  apply (precargar_then_obtener json_loads_ref (ClientReturns (Some DEMO_OBJECT))
           pregunta_cache DEMO_RECORD [ClientRaises SERVER_ERROR]).
  - reflexivity.
  - unfold Queue.qsize, CACHE_MIN. simpl. lia.
  - exact demo_object_generated.
  - apply es_valida_armar.
  - reflexivity.
Defined.

Lemma demo_lookups :
  DEMO_RECORD !! K_RESPUESTA_CORRECTA = Some (PStr (py "2")) /\
  is_Some (DEMO_RECORD !! K_PREGUNTA) /\ is_Some (DEMO_RECORD !! K_CODIGO) /\
  is_Some (DEMO_RECORD !! K_RESPUESTAS).
Proof.
  destruct (armar_pregunta_lookups DEMO_PARSED) as [H1 [H2 [H3 [H4 _]]]].
  unfold DEMO_RECORD. rewrite H1, H2, H3, H4. repeat split; eauto.
Qed.

Lemma demo_calificar_right :
  calificar DEMO_SESION (Some (py "2")) = inr (Sesion 1 1 1000%Z DEMO_RECORD []).
Proof. vm_compute. reflexivity. Qed.

Lemma demo_calificar_wrong :
  exists s', calificar DEMO_SESION (Some (py "3")) = inr s'.
Proof. eexists. vm_compute. reflexivity. Qed.

(** The answer [" 2 "] to the sample question is right. *)
Lemma calificar_criterio_witness :
  exists s',
    calificar DEMO_SESION (Some (py " 2 ")) = inr s' /\ puntaje s' = 1%Z.
Proof.
  destruct demo_lookups as [Hc [H1 [H2 H3]]].
  destruct (calificar_criterio Z DEMO_SESION (Some (py " 2 ")) (py "2") Hc H1 H2 H3)
    as [s' [Hs' Hiff]].
  exists s'. split; [exact Hs'|]. apply Hiff.
  exists (py " 2 "). split; [reflexivity|]. split; [discriminate|].
  vm_compute. reflexivity.
Defined.

(** The answer ["3"] is recorded as an error. *)
Lemma calificar_cuenta_witness :
  exists s',
    calificar DEMO_SESION (Some (py "3")) = inr s' /\
    total s' = 1%Z /\ pregunta_actual s' = DEMO_RECORD.
Proof.
  destruct demo_calificar_wrong as [s' Hs'].
  exists s'. split; [exact Hs'|].
  destruct (calificar_cuenta Z DEMO_SESION (Some (py "3")) s' Hs') as [Ht [_ [Hp _]]].
  split; [exact Ht | exact Hp].
Defined.

Lemma quiz_post_error_record_witness :
  exists v,
    quiz_get json_loads_ref None 1000%Z (ClientReturns (Some DEMO_APOLOGY)) pregunta_cache
    = (Return v, pregunta_cache) /\
    quiz_post json_loads_ref (Some (vista_sesion v)) (py "2") DEMO_RELOJ
      (ClientReturns (Some DEMO_OBJECT)) pregunta_cache
    = (Raise (key_error K_RESPUESTA_CORRECTA), pregunta_cache).
Proof.
  destruct (quiz_post_error_record Z json_loads_ref 1000%Z (Some DEMO_APOLOGY)
              pregunta_cache JsonRef.decode_error)
    as [v [Hget [_ [_ [Hpost _]]]]].
  - reflexivity.
  - vm_compute. reflexivity.
  - vm_compute. reflexivity.
  - exists v. split; [exact Hget | apply Hpost].
Defined.

Lemma calificar_correcta_no_str_witness :
  calificar (sesion_nueva 1000%Z (armar_pregunta ∅)) (Some (py "2"))
  = inl (attribute_error PNone "strip").
Proof.
  destruct (calificar_correcta_no_str Z (sesion_nueva 1000%Z (armar_pregunta ∅)) ∅)
    as [Hraise _].
  - reflexivity.
  - intros t. discriminate.
  - apply (Hraise 50 []).
Defined.

Lemma quiz_post_sesion_ok_witness :
  quiz_post json_loads_ref (Some DEMO_SESION_9) (py "2") DEMO_RELOJ
    (ClientRaises SERVER_ERROR) pregunta_cache
  = (Return (RedirectResultado 10 60 []), pregunta_cache) /\
  total DEMO_SESION_9 = 9%Z.
Proof.
  assert (H : quiz_post json_loads_ref (Some DEMO_SESION_9) (py "2") DEMO_RELOJ
                (ClientRaises SERVER_ERROR) pregunta_cache
              = (Return (RedirectResultado 10 60 []), pregunta_cache))
    by (vm_compute; reflexivity).
  split; [exact H|].
  refine (proj1 (quiz_post_sesion_ok Z json_loads_ref DEMO_SESION_9 (py "2") DEMO_RELOJ
                   (ClientRaises SERVER_ERROR) pregunta_cache pregunta_cache
                   (RedirectResultado 10 60 []) _ H)).
  unfold sesion_ok, DEMO_SESION_9. simpl. lia.
Defined.

(** A question whose right answer is a number, shown to a user without
    a session; the answer ["2"] fails in the grading, and the session is
    left with one answer counted, none right and none recorded. *)
Lemma quiz_sesion_inv_witness :
  quiz json_loads_ref POST (Some DEMO_SESION_NUMBER) (Some (py "2")) 1030%Z DEMO_RELOJ
    (ClientRaises SERVER_ERROR) (ClientRaises SERVER_ERROR) pregunta_cache
  = (Raise (attribute_error (PInt 2) "strip"),
     Some (Sesion 0 1 1000%Z DEMO_NUMBER_RECORD []), pregunta_cache) /\
  (0 <= 0)%Z /\ (0 + Z.of_nat (length (@nil pydict)) <= 1)%Z.
Proof.
  assert (H0 : sesion_quiz json_loads_ref (Some DEMO_SESION_NUMBER)).
  { apply (sesion_quiz_peticion Z json_loads_ref None (Some DEMO_SESION_NUMBER)
             GET None 1000%Z DEMO_RELOJ
             (ClientRaises SERVER_ERROR) (ClientRaises SERVER_ERROR)
             (Queue.mk CACHE_SIZE [DEMO_NUMBER_RECORD]) pregunta_cache
             (Return (VistaPregunta DEMO_NUMBER_RECORD 1))).
    - apply sesion_quiz_ninguna.
    - reflexivity. }
  assert (H1 : quiz json_loads_ref POST (Some DEMO_SESION_NUMBER) (Some (py "2"))
                 1030%Z DEMO_RELOJ
                 (ClientRaises SERVER_ERROR) (ClientRaises SERVER_ERROR) pregunta_cache
               = (Raise (attribute_error (PInt 2) "strip"),
                  Some (Sesion 0 1 1000%Z DEMO_NUMBER_RECORD []), pregunta_cache))
    by (vm_compute; reflexivity).
  split; [exact H1|].
  exact (proj1 (quiz_sesion_inv Z json_loads_ref
                  (Some (Sesion 0 1 1000%Z DEMO_NUMBER_RECORD []))
                  (sesion_quiz_peticion Z json_loads_ref _ _ _ _ _ _ _ _ _ _ _ H0 H1))
           _ eq_refl).
Defined.

Lemma quiz_post_sin_sesion_witness :
  quiz json_loads_ref POST None (Some (py "2")) 1000%Z DEMO_RELOJ
    (ClientRaises SERVER_ERROR) (ClientRaises SERVER_ERROR) DEMO_CACHE_2
  = (Return (VistaPregunta DEMO_NULL_RECORD 2),
     Some (con_pregunta (Sesion 1 1 1000%Z DEMO_RECORD []) DEMO_NULL_RECORD),
     pregunta_cache).
Proof.
  apply (quiz_post_sin_sesion Z json_loads_ref (Some (py "2")) (py "2") 1000%Z
           DEMO_RELOJ (ClientRaises SERVER_ERROR) (ClientRaises SERVER_ERROR)
           (ClientRaises SERVER_ERROR) DEMO_CACHE_2
           (Queue.mk CACHE_SIZE [DEMO_NULL_RECORD]) pregunta_cache
           DEMO_RECORD DEMO_NULL_RECORD (Sesion 1 1 1000%Z DEMO_RECORD [])
           eq_refl eq_refl demo_calificar_right).
Defined.

Section QuizCache.

Variable marca : Type.
Variable json_loads : pystr -> exc + pyval.

Lemma calificar_pregunta (s : sesion marca) (ob : pydict) (sel : option pystr)
  (e : exc) :
  pregunta_actual s = armar_pregunta ob ->
  calificar s sel = inl e ->
  exists v c x,
    pregunta_actual s !! K_RESPUESTA_CORRECTA = Some v /\ (forall t, v <> PStr t) /\
    sel = Some (c :: x) /\ e = attribute_error v "strip".
Proof.
  intros Hp. destruct (armar_pregunta_lookups ob) as [H1 [H2 [H3 [H4 _]]]].
  rewrite <- Hp in H1, H2, H3, H4.
  unfold calificar. rewrite (proj2 (dict_item_inr _ _ _) H4). cbv zeta.
  destruct (entrada_error_some (pregunta_actual s) (dict_get ob J_RESPUESTA_CORRECTA)
              (dict_get_default (pregunta_actual s) K_EXPLICACION (PStr []))
              sel (ltac:(rewrite H1; eauto)) (ltac:(rewrite H2; eauto))
              (ltac:(rewrite H3; eauto))) as [entrada He].
  rewrite He. destruct sel as [[|c x]|]; try discriminate.
  destruct (dict_get ob J_RESPUESTA_CORRECTA) as [| | | |t| |] eqn:Ev;
    cbn [py_strip]; try (intros [= <-]; eexists _, c, x;
      split; [exact H4|]; split; [intros t; discriminate | split; reflexivity]).
  destruct (bool_decide _); discriminate.
Qed.

(** X16. A record that comes from the cache, in any state of the
    process, has every key the grading reads: of such a question no
    answer raises [KeyError]; the grading fails only when the record's
    [respuesta_correcta] is not a string and the answer is not empty,
    with [AttributeError]. *)
Theorem calificar_cached_record (st : state) (s : sesion marca)
  (sel : option pystr) (e : exc) :
  reachable json_loads st ->
  In (pregunta_actual s) (Queue.items (cache st)) ->
  calificar s sel = inl e ->
  exists v c x,
    pregunta_actual s !! K_RESPUESTA_CORRECTA = Some v /\ (forall t, v <> PStr t) /\
    sel = Some (c :: x) /\ e = attribute_error v "strip".
Proof.
  intros Hr Hin Hc.
  destruct (reachable_inv json_loads st Hr) as [_ [Hall _]].
  rewrite List.Forall_forall in Hall. destruct (Hall _ Hin) as [ob Hob].
  exact (calificar_pregunta s ob sel e Hob Hc).
Qed.

End QuizCache.

(** A cached record with a number as right answer, and an answer to
    it. *)
Lemma calificar_cached_record_witness :
  exists v c x,
    DEMO_NUMBER_RECORD !! K_RESPUESTA_CORRECTA = Some v /\ (forall t, v <> PStr t) /\
    Some (py "2") = Some (c :: x) /\
    attribute_error (PInt 2) "strip" = attribute_error v "strip".
Proof.
  apply (calificar_cached_record Z json_loads_ref
           (State (WSleep 1) (Queue.mk CACHE_SIZE [DEMO_NUMBER_RECORD]))
           (sesion_nueva 1000%Z DEMO_NUMBER_RECORD) (Some (py "2"))
           (attribute_error (PInt 2) "strip")).
  - apply (reachable_first_put json_loads_ref (ClientReturns (Some DEMO_NUMBER))).
    + vm_compute. reflexivity.
    + apply es_valida_armar.
  - left. reflexivity.
  - vm_compute. reflexivity.
Defined.

Section QuizGet.

Variable marca : Type.
Variable json_loads : pystr -> exc + pyval.

(** X17. [quiz_get], when it returns, stores a session that has
    counted every answer once and has at most nine, and shows its
    question with a number from 1 to 10. A session that is there is
    stored as it is, with no call of the accessor; without one, the new
    session has the record that the accessor returned and no answer
    yet. *)
Theorem quiz_get_sesion_ok (ses : option (sesion marca)) (ahora : marca)
  (o : client_outcome) (q q' : Queue.t) (v : vista_quiz marca) :
  (forall s, ses = Some s -> sesion_ok s) ->
  quiz_get json_loads ses ahora o q = (Return v, q') ->
  sesion_ok (vista_sesion v) /\
  vista_pregunta v = pregunta_actual (vista_sesion v) /\
  num_pregunta v = (total (vista_sesion v) + 1)%Z /\
  (1 <= num_pregunta v <= 10)%Z /\
  (forall s, ses = Some s -> vista_sesion v = s /\ q' = q) /\
  (ses = None ->
   obtener_pregunta_cache json_loads o q = (Return (vista_pregunta v), q') /\
   vista_sesion v = sesion_nueva ahora (vista_pregunta v)).
Proof.
  intros Hses. unfold quiz_get. destruct ses as [s|].
  - intros [= <- <-]. cbn [vista_sesion vista_pregunta num_pregunta].
    pose proof (Hses s eq_refl) as Hok. pose proof Hok as [H0 [Hsum Hle]].
    split; [exact Hok|]. split; [reflexivity|]. split; [reflexivity|].
    split; [lia|]. split; [|discriminate].
    intros s0 [= <-]. auto.
  - destruct (obtener_pregunta_cache json_loads o q) as [[p|e] q1]; [|discriminate].
    intros [= <- <-]. cbn [vista_sesion vista_pregunta num_pregunta sesion_nueva
                            pregunta_actual total].
    split; [apply sesion_nueva_ok|]. split; [reflexivity|]. split; [reflexivity|].
    split; [lia|]. split; [discriminate|]. auto.
Qed.

End QuizGet.

Lemma quiz_get_sesion_ok_witness :
  quiz_get json_loads_ref None 1000%Z (ClientRaises SERVER_ERROR) DEMO_CACHE_2
  = (Return (VistaQuiz DEMO_RECORD 1 DEMO_SESION), Queue.mk CACHE_SIZE [DEMO_NULL_RECORD]) /\
  sesion_ok DEMO_SESION.
Proof.
  assert (H : quiz_get json_loads_ref None 1000%Z (ClientRaises SERVER_ERROR) DEMO_CACHE_2
              = (Return (VistaQuiz DEMO_RECORD 1 DEMO_SESION),
                 Queue.mk CACHE_SIZE [DEMO_NULL_RECORD])) by reflexivity.
  split; [exact H|].
  refine (proj1 (quiz_get_sesion_ok Z json_loads_ref None 1000%Z
                   (ClientRaises SERVER_ERROR) DEMO_CACHE_2 _
                   (VistaQuiz DEMO_RECORD 1 DEMO_SESION) _ H)).
  intros s Hs. discriminate.
Defined.
